(** * Resumable batch-processing core of the deal extraction and packaging
      pipeline: checkpoint store, bounded semantic partitioner, incremental
      multi-sink exporter and the batch loops that compose them.

    The Python sources are embedded shallowly: integers are [Z], list
    positions are [nat], dictionaries that are iterated in insertion order
    are association lists, the spreadsheet row index is a [gmap], exceptions
    are the [Raise] constructor of [result], and code that mutates an object
    or the outside world is a function on an explicit state. *)

From Stdlib Require Import ZArith QArith Lia Ascii.
From stdpp Require Import base decidable option list gmap strings pretty.

Open Scope Z_scope.
Open Scope string_scope.
Open Scope list_scope.

(** ** Exceptions and the error monad *)

Inductive exn : Type :=
| ZeroDivisionError
| ValueError
| IndexError
| TypeError
| AttributeError
| OSError
| JSONDecodeError
| ExternalError.

Inductive result (A : Type) : Type :=
| Ok (a : A)
| Raise (e : exn).
Arguments Ok {A} a.
Arguments Raise {A} e.

Definition rbind {A B : Type} (m : result A) (k : A -> result B) : result B :=
  match m with
  | Ok a => k a
  | Raise e => Raise e
  end.

Declare Scope result_scope.
Delimit Scope result_scope with result.
Notation "'do' x <- m ; k" := (rbind m (fun x => k))
  (at level 10, x name, m at level 100, k at level 200) : result_scope.

(** [for x in l: acc = body(acc, x)] where the body may raise. *)
Fixpoint rfold {A B : Type} (body : A -> B -> result A) (l : list B) (acc : A)
  : result A :=
  match l with
  | [] => Ok acc
  | x :: l' => rbind (body acc x) (rfold body l')
  end.

(** ** Python integer and sequence primitives *)

(** [a // b] on Python ints: floor division, [ZeroDivisionError] on [b = 0]. *)
Definition floordiv (a b : Z) : result Z :=
  if decide (b = 0) then Raise ZeroDivisionError else Ok (a / b).

(** [len(l)] as a Python int. *)
Definition len {A : Type} (l : list A) : Z := Z.of_nat (length l).

(** [list(range(start, stop, step))]. *)
Definition py_range (start stop step : Z) : result (list Z) :=
  if decide (step = 0) then Raise ValueError
  else if decide (0 < step) then
    Ok (map (fun k : nat => start + Z.of_nat k * step)
            (seq 0 (Z.to_nat ((stop - start + step - 1) / step))))
  else
    Ok (map (fun k : nat => start + Z.of_nat k * step)
            (seq 0 (Z.to_nat ((start - stop - step - 1) / (- step))))).

(** Slice bounds are clamped the way Python does it: a negative bound counts
    from the end, and every bound is brought into [0 .. len]. *)
Definition clamp_index (n : nat) (i : Z) : nat :=
  if decide (i < 0) then Z.to_nat (Z.max 0 (i + Z.of_nat n))
  else Z.to_nat (Z.min i (Z.of_nat n)).

(** [l[lo:hi]]. *)
Definition py_slice {A : Type} (l : list A) (lo hi : Z) : list A :=
  let a := clamp_index (length l) lo in
  let b := clamp_index (length l) hi in
  take (b - a) (drop a l).

(** [list(enumerate(l))]. *)
Definition enumerate {A : Type} (l : list A) : list (nat * A) :=
  imap (fun i x => (i, x)) l.

(** ** Bounded semantic partitioner ([package_creation/clustering.py]) *)

Module Clustering.

(** A two-dimensional array of membership probabilities, as
    [predict_proba] returns it: [shape0] samples by [shape1] components.
    Probabilities and BIC scores are rationals here: the code compares and
    sorts them and never computes with them. *)
Record ndarray : Type := mk_ndarray {
  shape0 : nat;
  shape1 : nat;
  item : nat -> nat -> Q
}.

(** [probabilities[:, c]]. *)
Definition column (p : ndarray) (c : Z) : result (list Q) :=
  if decide (0 <= c < Z.of_nat (shape1 p)) then
    Ok (map (fun i => item p i (Z.to_nat c)) (seq 0 (shape0 p)))
  else Raise IndexError.

(** [clusters[label].append(idx)] on an insertion-ordered dict, creating the
    entry when the label is new. *)
Fixpoint append_to_label (label : Z) (idx : nat) (clusters : list (Z * list nat))
  : list (Z * list nat) :=
  match clusters with
  | [] => [(label, [idx])]
  | (l, members) :: rest =>
      if decide (l = label) then (l, members ++ [idx]) :: rest
      else (l, members) :: append_to_label label idx rest
  end.

(** Lines 80-85: group sample indices by their label. *)
Definition group_by_label (cluster_labels : list Z) : list (Z * list nat) :=
  fold_left (fun clusters p => append_to_label (snd p) (fst p) clusters)
            (enumerate cluster_labels) [].

(** The chunks [xs[i:i + max]] for [i in range(0, len(xs), max)]. *)
Definition chunks (max_deals_per_cluster : Z) (xs : list nat)
  : result (list (list nat)) :=
  (do starts <- py_range 0 (len xs) max_deals_per_cluster;
   Ok (map (fun i => py_slice xs i (i + max_deals_per_cluster)) starts))%result.

(** Lines 87-95: keep a cluster that fits, cut a larger one into chunks. *)
Definition split_large (max_deals_per_cluster : Z)
    (clusters : list (Z * list nat)) : result (list (list nat)) :=
  rfold (fun final_clusters entry =>
           let deal_indices := snd entry in
           if decide (len deal_indices <= max_deals_per_cluster)
           then Ok (final_clusters ++ [deal_indices])
           else (do cs <- chunks max_deals_per_cluster deal_indices;
                 Ok (final_clusters ++ cs))%result)
        clusters [].

(** Line 98: drop the clusters below the minimum size. *)
Definition filter_tiny (min_cluster_size : Z) (final_clusters : list (list nat))
  : list (list nat) :=
  filter (fun c => min_cluster_size <= len c) final_clusters.

(** Lines 194-197: the positions of [col] whose probability reaches the
    threshold. *)
Definition members_above (probability_threshold : Q) (col : list Q) : list nat :=
  map fst (filter (fun p => Qle_bool probability_threshold (snd p) = true)
                  (enumerate col)).

(** The members of component [c]: the samples whose probability in column
    [c] reaches the threshold. *)
Definition component_members (probabilities : ndarray)
    (probability_threshold : Q) (c : nat) : list nat :=
  members_above probability_threshold
    (map (fun i => item probabilities i c) (seq 0 (shape0 probabilities))).

(** Stable insertion into a list that is descending by [key]. *)
Fixpoint insert_desc (key : nat -> Q) (x : nat) (l : list nat) : list nat :=
  match l with
  | [] => [x]
  | y :: l' =>
      if Qle_bool (key y) (key x) then x :: y :: l'
      else y :: insert_desc key x l'
  end.

(** [sorted(l, key=key, reverse=True)]: descending, equal keys keep their
    original order. *)
Definition sorted_desc (key : nat -> Q) (l : list nat) : list nat :=
  foldr (insert_desc key) [] l.

Section Partitioner.

(** The deals are only counted; the embeddings are only handed to
    scikit-learn, which is taken as given: fitting may raise, and otherwise
    returns labels, a BIC score or a probability matrix. *)
Context {Deal Embeddings : Type}.
Variable len_embeddings : Embeddings -> nat.
(** [GaussianMixture(n_components, covariance_type, random_state=42,
    max_iter=100).fit_predict(embeddings)] *)
Variable gmm_fit_predict : Z -> string -> Embeddings -> result (list Z).
(** [KMeans(n_clusters, random_state=42, n_init=10).fit_predict(embeddings)] *)
Variable kmeans_fit_predict : Z -> Embeddings -> result (list Z).
(** [GaussianMixture(n, 'full', random_state=42, max_iter=50)] fitted on the
    embeddings, then [.bic(embeddings)] *)
Variable gmm_bic : Z -> Embeddings -> result Q.
(** [GaussianMixture(n, 'full', random_state=42, max_iter=100)] fitted on the
    embeddings, then [.predict_proba(embeddings)] *)
Variable gmm_predict_proba : Z -> Embeddings -> result ndarray.

(** [bic < best_bic], where [best_bic] starts at [np.inf] ([None] here). *)
Definition bic_lt (bic : Q) (best_bic : option Q) : bool :=
  match best_bic with
  | None => true
  | Some b => negb (Qle_bool b bic)
  end.

(** Lines 103-145. *)
Definition _select_optimal_components (embeddings : Embeddings)
    (max_components min_components : Z) : result Z :=
  let n_samples := Z.of_nat (len_embeddings embeddings) in
  let max_components := Z.min max_components (n_samples / 2) in
  (do candidates <- py_range min_components (max_components + 1) 1;
   let best :=
     fold_left
       (fun (best : option Q * Z) n =>
          match gmm_bic n embeddings with
          | Ok bic => if bic_lt bic (fst best) then (Some bic, n) else best
          | Raise _ => best
          end)
       candidates (None, min_components) in
   Ok (snd best))%result.

(** Lines 58-59: the target number of clusters. *)
Definition target_components (deals : list Deal)
    (max_deals_per_cluster min_cluster_size : Z) : result Z :=
  (do q <- floordiv (len deals) max_deals_per_cluster;
   let n_clusters := Z.max 3 q in
   do r <- floordiv (len deals) min_cluster_size;
   Ok (Z.min n_clusters r))%result.

(** Lines 61-78: the number of components the model is fitted with. *)
Definition fitted_components (embeddings : Embeddings) (n_clusters : Z)
    (method : string) (n_components : option Z) : result Z :=
  if decide (method = "gmm") then
    match n_components with
    | None => _select_optimal_components embeddings n_clusters 3
    | Some n => Ok n
    end
  else Ok n_clusters.

(** Lines 61-78: the labels of the fitted model. *)
Definition fit_labels (embeddings : Embeddings) (n_clusters : Z)
    (method : string) (n_components : option Z) (covariance_type : string)
  : result (list Z) :=
  (do k <- fitted_components embeddings n_clusters method n_components;
   if decide (method = "gmm")
   then gmm_fit_predict k covariance_type embeddings
   else kmeans_fit_predict k embeddings)%result.

(** Lines 24-100. *)
Definition cluster_deals_semantically (deals : list Deal) (embeddings : Embeddings)
    (max_deals_per_cluster min_cluster_size : Z) (method : string)
    (n_components : option Z) (covariance_type : string)
  : result (list (list nat)) :=
  if decide (len deals < min_cluster_size) then Ok []
  else
    (do n_clusters <- target_components deals max_deals_per_cluster min_cluster_size;
     do cluster_labels <- fit_labels embeddings n_clusters method n_components
                                     covariance_type;
     let clusters := group_by_label cluster_labels in
     do final_clusters <- split_large max_deals_per_cluster clusters;
     Ok (filter_tiny min_cluster_size final_clusters))%result.

(** Lines 192-211: the clusters one mixture component contributes. *)
Definition component_clusters (probabilities : ndarray)
    (max_deals_per_cluster min_cluster_size : Z) (probability_threshold : Q)
    (component_idx : Z) : result (list (list nat)) :=
  (do col <- column probabilities component_idx;
   let deal_indices := members_above probability_threshold col in
   if decide (min_cluster_size <= len deal_indices) then
     if decide (len deal_indices <= max_deals_per_cluster) then Ok [deal_indices]
     else
       let sorted_indices :=
         sorted_desc (fun idx => item probabilities idx (Z.to_nat component_idx))
                     deal_indices in
       chunks max_deals_per_cluster sorted_indices
   else Ok [])%result.

(** Lines 148-213. *)
Definition cluster_deals_with_soft_assignments (deals : list Deal)
    (embeddings : Embeddings) (max_deals_per_cluster min_cluster_size : Z)
    (probability_threshold : Q) : result (list (list nat)) :=
  if decide (len deals < min_cluster_size) then Ok []
  else
    (do n_components <- target_components deals max_deals_per_cluster min_cluster_size;
     do probabilities <- gmm_predict_proba n_components embeddings;
     do components <- py_range 0 n_components 1;
     rfold (fun clusters component_idx =>
              do cs <- component_clusters probabilities max_deals_per_cluster
                                          min_cluster_size probability_threshold
                                          component_idx;
              Ok (clusters ++ cs))
           components [])%result.

End Partitioner.

End Clustering.

(** ** Python values *)

(** What [json.load] returns and what [model_dump(mode='json')] produces.
    Numbers are the integers: the code below only copies and compares
    numbers, it never computes with them. Dictionaries keep insertion
    order. *)
#[local] Set Warnings "-register-all".
Inductive json : Type :=
| JNull
| JBool (b : bool)
| JNum (z : Z)
| JStr (s : string)
| JList (l : list json)
| JDict (d : list (string * json)).

(** The hashable scalars, used as Unit Keys and as set elements. A Python
    [bool] hashes and compares like the integers 0 and 1. *)
Inductive key : Type :=
| KNone
| KNum (z : Z)
| KStr (s : string).

#[global] Instance key_eq_dec : EqDecision key.
Proof. solve_decision. Defined.

Definition key_to_sum (k : key) : option (Z + string) :=
  match k with
  | KNone => None
  | KNum z => Some (inl z)
  | KStr s => Some (inr s)
  end.

Definition key_of_sum (o : option (Z + string)) : key :=
  match o with
  | None => KNone
  | Some (inl z) => KNum z
  | Some (inr s) => KStr s
  end.

#[global] Instance key_countable : Countable key.
Proof.
  apply (inj_countable' key_to_sum key_of_sum). intros []; reflexivity.
Defined.

(** Truth value of a scalar: [None], [0] and [''] are false. *)
Definition key_truthy (k : key) : bool :=
  match k with
  | KNone => false
  | KNum z => negb (Z.eqb z 0)
  | KStr s => negb (String.eqb s "")
  end.

(** Truth value of a JSON value. *)
Definition json_truthy (v : json) : bool :=
  match v with
  | JNull => false
  | JBool b => b
  | JNum z => negb (Z.eqb z 0)
  | JStr s => negb (String.eqb s "")
  | JList l => match l with [] => false | _ => true end
  | JDict d => match d with [] => false | _ => true end
  end.

(** [hash(v)] succeeds on scalars only. *)
Definition hashable (v : json) : result key :=
  match v with
  | JNull => Ok KNone
  | JBool b => Ok (KNum (if b then 1 else 0))
  | JNum z => Ok (KNum z)
  | JStr s => Ok (KStr s)
  | JList _ | JDict _ => Raise TypeError
  end.

Fixpoint rmap {A B : Type} (f : A -> result B) (l : list A) : result (list B) :=
  match l with
  | [] => Ok []
  | x :: l' =>
      match f x with
      | Ok y => match rmap f l' with
                | Ok ys => Ok (y :: ys)
                | Raise e => Raise e
                end
      | Raise e => Raise e
      end
  end.

(** [set(v)]: the elements of a list, the characters of a string, the keys
    of a dict; anything else is not iterable. *)
Definition py_set (v : json) : result (gset key) :=
  match v with
  | JList l =>
      match rmap hashable l with
      | Ok ks => Ok (list_to_set ks)
      | Raise e => Raise e
      end
  | JStr s =>
      Ok (list_to_set (map (fun c => KStr (String c EmptyString))
                           (String.list_ascii_of_string s)))
  | JDict d => Ok (list_to_set (map (fun p => KStr (fst p)) d))
  | JNull | JBool _ | JNum _ => Raise TypeError
  end.

(** [d.get(k, default)] on an insertion-ordered dict. *)
Fixpoint assoc_get {V : Type} (d : list (string * V)) (k : string) : option V :=
  match d with
  | [] => None
  | (k', v) :: d' => if String.eqb k' k then Some v else assoc_get d' k
  end.

(** [data.get(k, default)] where [data] came out of [json.load]: only a dict
    has a [get] method. *)
Definition json_get (data : json) (k : string) (dflt : json) : result json :=
  match data with
  | JDict d => Ok (default dflt (assoc_get d k))
  | _ => Raise AttributeError
  end.

(** ** State with exceptions *)

(** A method that mutates [self] (and the files and remote sheet it owns)
    and may raise: the state reached when the exception is raised is kept,
    as in Python. *)
Definition M (S A : Type) : Type := S -> result A * S.

Definition ret {S A : Type} (a : A) : M S A := fun s => (Ok a, s).

Definition bind {S A B : Type} (m : M S A) (k : A -> M S B) : M S B :=
  fun s => match m s with
           | (Ok a, s') => k a s'
           | (Raise e, s') => (Raise e, s')
           end.

Definition get {S : Type} : M S S := fun s => (Ok s, s).
Definition modify {S : Type} (f : S -> S) : M S unit := fun s => (Ok tt, f s).
Definition raise {S A : Type} (e : exn) : M S A := fun s => (Raise e, s).
Definition lift {S A : Type} (r : result A) : M S A := fun s => (r, s).

(** [try: body except Exception: handler]. *)
Definition try_except {S A : Type} (body : M S A) (handler : exn -> M S A)
  : M S A :=
  fun s => match body s with
           | (Ok a, s') => (Ok a, s')
           | (Raise e, s') => handler e s'
           end.

Declare Scope state_scope.
Delimit Scope state_scope with M.
Notation "'do' x <- m ; k" := (bind m (fun x => k))
  (at level 10, x name, m at level 100, k at level 200) : state_scope.
Notation "m ;; k" := (bind m (fun _ => k))
  (at level 100, k at level 200, right associativity) : state_scope.

(** [for x in l: body(x)] on mutable state. *)
Fixpoint for_each {S A : Type} (body : A -> M S unit) (l : list A) : M S unit :=
  match l with
  | [] => ret tt
  | x :: l' => bind (body x) (fun _ => for_each body l')
  end.

(** ** Checkpoint store ([enrichment/checkpoint.py],
       [package_creation/checkpoint.py]) *)

(** The backing file as the loader meets it: absent, present but failing
    on [open], present with text [json.load] rejects, or present with text
    that parses to [data]. *)
Inductive backing_file : Type :=
| Missing
| Unreadable
| Malformed
| Parsed (data : json).

(** [checkpoint_file.exists()]. *)
Definition file_exists (f : backing_file) : bool :=
  match f with
  | Missing => false
  | _ => true
  end.

(** [with open(checkpoint_file) as f: json.load(f)]. *)
Definition json_load (f : backing_file) : result json :=
  match f with
  | Missing | Unreadable => Raise OSError
  | Malformed => Raise JSONDecodeError
  | Parsed data => Ok data
  end.

(** A backing file that exists but does not hold a checkpoint: [open]
    raises on it, [json.load] raises on it, or what it parses to is not a
    JSON object. *)
Definition corrupt (f : backing_file) : Prop :=
  match f with
  | Missing => False
  | Unreadable | Malformed => True
  | Parsed (JDict _) => False
  | Parsed _ => True
  end.

(** [a < b] on keys: defined between two numbers and between two strings. *)
Definition key_lt (a b : key) : result bool :=
  match a, b with
  | KNum x, KNum y => Ok (Z.ltb x y)
  | KStr s, KStr t => Ok (String.ltb s t)
  | _, _ => Raise TypeError
  end.

Fixpoint insert_sorted (x : key) (l : list key) : result (list key) :=
  match l with
  | [] => Ok [x]
  | y :: l' =>
      match key_lt x y with
      | Ok true => Ok (x :: y :: l')
      | Ok false =>
          match insert_sorted x l' with
          | Ok r => Ok (y :: r)
          | Raise e => Raise e
          end
      | Raise e => Raise e
      end
  end.

(** [sorted(list(s))]: raises when two elements cannot be compared. *)
Definition py_sorted (s : gset key) : result (list key) :=
  rfold (fun acc x => insert_sorted x acc) (elements s) [].

Definition key_json (k : key) : json :=
  match k with
  | KNone => JNull
  | KNum z => JNum z
  | KStr s => JStr s
  end.

(** A deal as the checkpoint sees it: an object with attributes or a plain
    dict; the values that matter here are scalars. *)
Inductive deal : Type :=
| DealObject (attrs : list (string * key))
| DealDict (items : list (string * key)).

Module EnrichmentCheckpoint.

Record checkpoint : Type := mk {
  checkpoint_file : backing_file;
  processed_deal_ids : gset key;
  source_file : json;
  last_updated : json
}.

Definition set_checkpoint_file (v : backing_file) (self : checkpoint) :=
  mk v (processed_deal_ids self) (source_file self) (last_updated self).
Definition set_processed_deal_ids (v : gset key) (self : checkpoint) :=
  mk (checkpoint_file self) v (source_file self) (last_updated self).
Definition set_source_file (v : json) (self : checkpoint) :=
  mk (checkpoint_file self) (processed_deal_ids self) v (last_updated self).
Definition set_last_updated (v : json) (self : checkpoint) :=
  mk (checkpoint_file self) (processed_deal_ids self) (source_file self) v.

(** Lines 40-54. *)
Definition _load : M checkpoint unit :=
  (do self <- get;
   if file_exists (checkpoint_file self) then
     try_except
       (do data <- lift (json_load (checkpoint_file self));
        do ids <- lift (json_get data "processed_deal_ids" (JList []));
        do s <- lift (py_set ids);
        modify (set_processed_deal_ids s) ;;
        do src <- lift (json_get data "source_file" JNull);
        modify (set_source_file src) ;;
        do upd <- lift (json_get data "last_updated" JNull);
        modify (set_last_updated upd))
       (fun _ => modify (set_processed_deal_ids ∅))
   else ret tt)%M.

(** Lines 25-38: the constructor. *)
Definition __init__ (checkpoint_file : backing_file) : result unit * checkpoint :=
  _load (mk checkpoint_file ∅ JNull JNull).

(** Lines 56-81; [now] is [datetime.now().isoformat()] and [disk_ok] tells
    whether creating the directory and writing the file succeed. *)
Definition save (source_file : option string) (now : string) (disk_ok : bool)
  : M checkpoint unit :=
  (match source_file with
   | Some s => if negb (String.eqb s "") then modify (set_source_file (JStr s))
               else ret tt
   | None => ret tt
   end ;;
   modify (set_last_updated (JStr now)) ;;
   do self <- get;
   do ids <- lift (py_sorted (processed_deal_ids self));
   let data :=
     JDict [("processed_deal_ids", JList (map key_json ids));
            ("source_file", EnrichmentCheckpoint.source_file self);
            ("last_updated", last_updated self);
            ("count", JNum (Z.of_nat (size (processed_deal_ids self))))] in
   try_except
     (if disk_ok then modify (set_checkpoint_file (Parsed data))
      else raise OSError)
     (fun _ => ret tt))%M.

(** Lines 83-93. *)
Definition is_processed (self : checkpoint) (deal_id : key) : bool :=
  bool_decide (deal_id ∈ processed_deal_ids self).

(** Lines 95-102. *)
Definition mark_processed (deal_id : key) (self : checkpoint) : checkpoint :=
  set_processed_deal_ids (processed_deal_ids self ∪ {[deal_id]}) self.

(** Lines 116-123: an object is asked for its attribute, a dict for its
    entry; whatever has neither yields [None]. *)
Definition extract_deal_id (d : deal) : key :=
  match d with
  | DealObject attrs => default KNone (assoc_get attrs "deal_id")
  | DealDict items => default KNone (assoc_get items "deal_id")
  end.

(** Lines 104-139. *)
Definition get_unprocessed_deals (self : checkpoint) (deals : list deal)
  : list deal :=
  fold_left
    (fun unprocessed d =>
       let deal_id := extract_deal_id d in
       if key_truthy deal_id && negb (is_processed self deal_id)
       then unprocessed ++ [d]
       else if negb (key_truthy deal_id)
       then unprocessed ++ [d]
       else unprocessed)
    deals [].

(** Lines 159-166. *)
Definition reset (self : checkpoint) : checkpoint :=
  mk Missing ∅ JNull JNull.

(** The deals that count as not yet processed: those without a non-empty
    key, and those whose key is not in the processed set. *)
Definition unprocessed (self : checkpoint) (d : deal) : Prop :=
  key_truthy (extract_deal_id d) = true ->
  extract_deal_id d ∉ processed_deal_ids self.

#[global] Instance unprocessed_dec self d : Decision (unprocessed self d).
Proof. unfold unprocessed. apply _. Defined.

End EnrichmentCheckpoint.

Module PackageCreationCheckpoint.

Record checkpoint : Type := mk {
  checkpoint_file : backing_file;
  processed_cluster_indices : gset key;
  source_file : json;
  last_updated : json
}.

Definition set_checkpoint_file (v : backing_file) (self : checkpoint) :=
  mk v (processed_cluster_indices self) (source_file self) (last_updated self).
Definition set_processed_cluster_indices (v : gset key) (self : checkpoint) :=
  mk (checkpoint_file self) v (source_file self) (last_updated self).
Definition set_source_file (v : json) (self : checkpoint) :=
  mk (checkpoint_file self) (processed_cluster_indices self) v (last_updated self).
Definition set_last_updated (v : json) (self : checkpoint) :=
  mk (checkpoint_file self) (processed_cluster_indices self) (source_file self) v.

(** Lines 40-54. *)
Definition _load : M checkpoint unit :=
  (do self <- get;
   if file_exists (checkpoint_file self) then
     try_except
       (do data <- lift (json_load (checkpoint_file self));
        do ids <- lift (json_get data "processed_cluster_indices" (JList []));
        do s <- lift (py_set ids);
        modify (set_processed_cluster_indices s) ;;
        do src <- lift (json_get data "source_file" JNull);
        modify (set_source_file src) ;;
        do upd <- lift (json_get data "last_updated" JNull);
        modify (set_last_updated upd))
       (fun _ => modify (set_processed_cluster_indices ∅))
   else ret tt)%M.

(** Lines 25-38: the constructor. *)
Definition __init__ (checkpoint_file : backing_file) : result unit * checkpoint :=
  _load (mk checkpoint_file ∅ JNull JNull).

(** Lines 56-81. *)
Definition save (source_file : option string) (now : string) (disk_ok : bool)
  : M checkpoint unit :=
  (match source_file with
   | Some s => if negb (String.eqb s "") then modify (set_source_file (JStr s))
               else ret tt
   | None => ret tt
   end ;;
   modify (set_last_updated (JStr now)) ;;
   do self <- get;
   do ids <- lift (py_sorted (processed_cluster_indices self));
   let data :=
     JDict [("processed_cluster_indices", JList (map key_json ids));
            ("source_file", PackageCreationCheckpoint.source_file self);
            ("last_updated", last_updated self);
            ("count", JNum (Z.of_nat (size (processed_cluster_indices self))))] in
   try_except
     (if disk_ok then modify (set_checkpoint_file (Parsed data))
      else raise OSError)
     (fun _ => ret tt))%M.

(** Lines 83-93. *)
Definition is_processed (self : checkpoint) (cluster_idx : Z) : bool :=
  bool_decide (KNum cluster_idx ∈ processed_cluster_indices self).

(** Lines 95-102. *)
Definition mark_processed (cluster_idx : Z) (self : checkpoint) : checkpoint :=
  set_processed_cluster_indices
    (processed_cluster_indices self ∪ {[KNum cluster_idx]}) self.

(** Lines 104-125: [enumerate(clusters, 1)] numbers the clusters from 1. *)
Definition get_unprocessed_clusters (self : checkpoint)
    (clusters : list (list nat)) : list (Z * list nat) :=
  fold_left
    (fun unprocessed p =>
       let cluster_idx := Z.of_nat (fst p) + 1 in
       if negb (is_processed self cluster_idx)
       then unprocessed ++ [(cluster_idx, snd p)]
       else unprocessed)
    (enumerate clusters) [].

End PackageCreationCheckpoint.

(** ** Incremental multi-sink exporter ([enrichment/incremental_exporter.py]) *)

(** [s.lower()] on the ASCII letters. *)
Definition ascii_lower (c : ascii) : ascii :=
  let n := nat_of_ascii c in
  if (65 <=? n)%nat && (n <=? 90)%nat then ascii_of_nat (n + 32) else c.

Fixpoint str_lower (s : string) : string :=
  match s with
  | EmptyString => EmptyString
  | String c s' => String (ascii_lower c) (str_lower s')
  end.

Definition is_space (c : ascii) : bool :=
  let n := nat_of_ascii c in
  (n =? 32)%nat || ((9 <=? n)%nat && (n <=? 13)%nat).

Fixpoint drop_spaces (l : list ascii) : list ascii :=
  match l with
  | [] => []
  | c :: l' => if is_space c then drop_spaces l' else l
  end.

(** [s.strip()]. *)
Definition str_strip (s : string) : string :=
  String.string_of_list_ascii
    (rev (drop_spaces (rev (drop_spaces (String.list_ascii_of_string s))))).

(** [d[k] = v] on an insertion-ordered dict: a known key keeps its place. *)
Fixpoint dict_set {V : Type} (d : list (string * V)) (k : string) (v : V)
  : list (string * V) :=
  match d with
  | [] => [(k, v)]
  | (k', v') :: d' =>
      if String.eqb k' k then (k', v) :: d' else (k', v') :: dict_set d' k v
  end.

(** [dict(items)]. *)
Definition dict_of_items {V : Type} (items : list (string * V)) : list (string * V) :=
  fold_left (fun d p => dict_set d (fst p) (snd p)) items [].

(** The text a scalar takes in a delimited file; [None] is the empty cell. *)
Definition cell_text (v : json) : string :=
  match v with
  | JStr s => s
  | JNum z => pretty z
  | JBool true => "True"
  | JBool false => "False"
  | _ => ""
  end.

(** The remote worksheet: the rows [get_all_values] returns and the size of
    the grid. *)
Record Worksheet : Type := mk_worksheet {
  ws_values : list (list string);
  col_count : nat;
  row_count : nat
}.

(** Writing a range of one row: a [None] leaves its cell as it is, any
    other value replaces the text of its cell. *)
Fixpoint write_cells (old : list string) (vals : list json) : list string :=
  match vals with
  | [] => old
  | v :: vs =>
      let o := match old with [] => "" | o :: _ => o end in
      let os := match old with [] => [] | _ :: os => os end in
      (match v with
       | JNull => o
       | JStr s => s
       | JNum z => pretty z
       | JBool true => "TRUE"
       | JBool false => "FALSE"
       | _ => o
       end) :: write_cells os vs
  end.

(** [worksheet.update([vals], 'A{r}:...{r}')]: row [r >= 1] of the grid. *)
Definition update_row (r : nat) (vals : list json) (ws : Worksheet) : Worksheet :=
  let rows := ws_values ws ++ replicate (r - length (ws_values ws)) [] in
  mk_worksheet (alter (fun old => write_cells old vals) (r - 1)%nat rows)
               (col_count ws) (row_count ws).

(** [worksheet.resize(rows=row_count, cols=cols)]. *)
Definition resize_cols (cols : nat) (ws : Worksheet) : Worksheet :=
  mk_worksheet (ws_values ws) cols (row_count ws).

(** What [UnifiedDataExporter(...)._get_spreadsheet()] gives: it raises,
    returns nothing, or returns a spreadsheet that may hold a worksheet
    named Unified. *)
Inductive spreadsheet : Type :=
| SpreadsheetError
| NoSpreadsheet
| Spreadsheet (unified : option Worksheet).

(** The calls that leave the process, in the order they are attempted. *)
Inductive io_call : Type :=
| Mkdir
| ReadCsvHeader
| WriteJsonl
| WriteTsv
| GetSpreadsheet
| OpenWorksheet
| AddWorksheet
| GetAllValues
| Resize
| UpdateHeader
| UpdateRow (r : nat).

Module IncrementalExporter.

(** The exporter object together with what it owns outside the process:
    the two files and the worksheet behind its handle. [io_log] records
    every outside call attempted and whether it succeeded. *)

Record exporter : Type := mk {
  jsonl_file : list json;
  tsv_file : option (list (list string));
  tsv_header_written : bool;
  tsv_columns : option (list string);
  worksheet : option Worksheet;
  sheets_header_written : bool;
  sheets_header_updated : bool;
  sheets_header_columns : option nat;
  sheets_next_row : nat;
  deal_id_to_row : gmap string nat;
  io_log : list (io_call * bool)
}.

Definition set_jsonl_file (v : list json) (self : exporter) : exporter :=
  mk v (tsv_file self) (tsv_header_written self) (tsv_columns self) (worksheet self) (sheets_header_written self) (sheets_header_updated self) (sheets_header_columns self) (sheets_next_row self) (deal_id_to_row self) (io_log self).

Definition set_tsv_file (v : option (list (list string))) (self : exporter) : exporter :=
  mk (jsonl_file self) v (tsv_header_written self) (tsv_columns self) (worksheet self) (sheets_header_written self) (sheets_header_updated self) (sheets_header_columns self) (sheets_next_row self) (deal_id_to_row self) (io_log self).

Definition set_tsv_header_written (v : bool) (self : exporter) : exporter :=
  mk (jsonl_file self) (tsv_file self) v (tsv_columns self) (worksheet self) (sheets_header_written self) (sheets_header_updated self) (sheets_header_columns self) (sheets_next_row self) (deal_id_to_row self) (io_log self).

Definition set_tsv_columns (v : option (list string)) (self : exporter) : exporter :=
  mk (jsonl_file self) (tsv_file self) (tsv_header_written self) v (worksheet self) (sheets_header_written self) (sheets_header_updated self) (sheets_header_columns self) (sheets_next_row self) (deal_id_to_row self) (io_log self).

Definition set_worksheet (v : option Worksheet) (self : exporter) : exporter :=
  mk (jsonl_file self) (tsv_file self) (tsv_header_written self) (tsv_columns self) v (sheets_header_written self) (sheets_header_updated self) (sheets_header_columns self) (sheets_next_row self) (deal_id_to_row self) (io_log self).

Definition set_sheets_header_written (v : bool) (self : exporter) : exporter :=
  mk (jsonl_file self) (tsv_file self) (tsv_header_written self) (tsv_columns self) (worksheet self) v (sheets_header_updated self) (sheets_header_columns self) (sheets_next_row self) (deal_id_to_row self) (io_log self).

Definition set_sheets_header_updated (v : bool) (self : exporter) : exporter :=
  mk (jsonl_file self) (tsv_file self) (tsv_header_written self) (tsv_columns self) (worksheet self) (sheets_header_written self) v (sheets_header_columns self) (sheets_next_row self) (deal_id_to_row self) (io_log self).

Definition set_sheets_header_columns (v : option nat) (self : exporter) : exporter :=
  mk (jsonl_file self) (tsv_file self) (tsv_header_written self) (tsv_columns self) (worksheet self) (sheets_header_written self) (sheets_header_updated self) v (sheets_next_row self) (deal_id_to_row self) (io_log self).

Definition set_sheets_next_row (v : nat) (self : exporter) : exporter :=
  mk (jsonl_file self) (tsv_file self) (tsv_header_written self) (tsv_columns self) (worksheet self) (sheets_header_written self) (sheets_header_updated self) (sheets_header_columns self) v (deal_id_to_row self) (io_log self).

Definition set_deal_id_to_row (v : gmap string nat) (self : exporter) : exporter :=
  mk (jsonl_file self) (tsv_file self) (tsv_header_written self) (tsv_columns self) (worksheet self) (sheets_header_written self) (sheets_header_updated self) (sheets_header_columns self) (sheets_next_row self) v (io_log self).

Definition set_io_log (v : list (io_call * bool)) (self : exporter) : exporter :=
  mk (jsonl_file self) (tsv_file self) (tsv_header_written self) (tsv_columns self) (worksheet self) (sheets_header_written self) (sheets_header_updated self) (sheets_header_columns self) (sheets_next_row self) (deal_id_to_row self) v.

Section Methods.

(** Taken as given: [json.dumps], [repr] of a list or dict, and the outcome
    of the n-th call that leaves the process ([true]: it succeeds). *)
Variable json_dumps : json -> string.
Variable py_repr : json -> string.
Variable io_ok : nat -> bool.

(** [str(v)]. *)
Definition py_str (v : json) : string :=
  match v with
  | JStr s => s
  | JNum z => pretty z
  | JBool true => "True"
  | JBool false => "False"
  | JNull => "None"
  | _ => py_repr v
  end.

(** One call to the outside: logged, and raising when the oracle says so. *)
Definition io (c : io_call) : M exporter unit :=
  fun self =>
    let ok := io_ok (length (io_log self)) in
    (if ok then Ok tt else Raise OSError,
     set_io_log (io_log self ++ [(c, ok)]) self).

(** [flatten_dict] of [common/data_exporter.py], lines 33-69, on the dict
    [v] with [parent_key]. *)
Fixpoint flatten_value (exclude_keys : list string) (sep parent_key : string)
    (v : json) {struct v} : list (string * json) :=
  match v with
  | JDict d =>
      dict_of_items
        ((fix items (d : list (string * json)) : list (string * json) :=
            match d with
            | [] => []
            | (k, v') :: rest =>
                let new_key :=
                  if negb (String.eqb parent_key "")
                  then parent_key +:+ sep +:+ k else k in
                (if bool_decide (k ∈ exclude_keys)
                    || (String.eqb parent_key "" && bool_decide (k ∈ exclude_keys))
                 then [(k, JStr (if json_truthy v' then json_dumps v' else ""))]
                 else match v' with
                      | JDict _ => flatten_value exclude_keys sep new_key v'
                      | JList _ =>
                          [(new_key,
                            JStr (if json_truthy v' then json_dumps v' else ""))]
                      | _ => [(new_key, v')]
                      end) ++ items rest
            end) d)
  | _ => []
  end.

Definition flatten_dict (d : list (string * json)) (parent_key sep : string)
    (exclude_keys : list string) : list (string * json) :=
  flatten_value exclude_keys sep parent_key (JDict d).

(** Lines 191-196 and 221-226: the flattened record, with [raw_deal_data]
    always present. *)
Definition flattened_record (deal_dict : list (string * json))
  : list (string * json) :=
  let flattened := flatten_dict deal_dict "" "_" ["raw_deal_data"] in
  if negb (bool_decide ("raw_deal_data" ∈ map fst flattened))
  then dict_set flattened "raw_deal_data"
         (JStr (json_dumps (default (JDict [])
                                    (assoc_get deal_dict "raw_deal_data"))))
  else flattened.

(** [df_row.reindex(columns=cols, fill_value=None)] followed by the cell
    texts of the row. *)
Definition reindex_row (cols : list string) (flattened : list (string * json))
  : list string :=
  map (fun c => cell_text (default JNull (assoc_get flattened c))) cols.

(** Lines 179-186. *)
Definition _append_jsonl (deal_dict : list (string * json)) : M exporter unit :=
  try_except
    (io WriteJsonl ;;
     modify (fun self => set_jsonl_file (jsonl_file self ++ [JDict deal_dict]) self))%M
    (fun _ => ret tt).

(** Lines 188-213. *)
Definition _append_tsv (deal_dict : list (string * json)) : M exporter unit :=
  try_except
    (let flattened := flattened_record deal_dict in
     let columns := map fst flattened in
     let row := map (fun p => cell_text (snd p)) flattened in
     do self <- get;
     if negb (tsv_header_written self) then
       io WriteTsv ;;
       modify (set_tsv_file (Some [columns; row])) ;;
       modify (set_tsv_header_written true) ;;
       modify (set_tsv_columns (Some columns))
     else
       let row :=
         match tsv_columns self with
         | Some (c :: cs) => reindex_row (c :: cs) flattened
         | _ => row
         end in
       io WriteTsv ;;
       modify (fun self =>
                 set_tsv_file (Some (default [] (tsv_file self) ++ [row])) self))%M
    (fun _ => ret tt).

(** [self.worksheet.get_all_values()]. *)
Definition get_all_values : M exporter (list (list string)) :=
  (do self <- get;
   match worksheet self with
   | None => raise AttributeError
   | Some ws => io GetAllValues ;; ret (ws_values ws)
   end)%M.

Definition on_worksheet (f : Worksheet -> Worksheet) : M exporter unit :=
  modify (fun self => set_worksheet (f <$> worksheet self) self).

(** Lines 137-145 and 262-270: widen the grid to [max(a, col_count, b)]
    columns; a failure is logged and dropped. *)
Definition expand_columns (a b : nat) : M exporter unit :=
  try_except
    (do self <- get;
     match worksheet self with
     | None => raise AttributeError
     | Some ws =>
         let current_cols := col_count ws in
         let cols_needed := Nat.max (Nat.max a current_cols) b in
         if (current_cols <? cols_needed)%nat
         then io Resize ;; on_worksheet (resize_cols cols_needed)
         else ret tt
     end)%M
    (fun _ => ret tt).

(** [self.worksheet.update([new_header], 'A1')]. *)
Definition update_header (new_header : list string) : M exporter unit :=
  (io UpdateHeader ;; on_worksheet (update_row 1 (map JStr new_header)))%M.

(** [self.worksheet.update([row_values], 'A{r}:{col}{r}')]; row 0 is not a
    valid range. *)
Definition update_sheet_row (r : nat) (row_values : list json) : M exporter unit :=
  (io (UpdateRow r) ;;
   if (r =? 0)%nat then raise ExternalError
   else on_worksheet (update_row r row_values))%M.

(** Lines 111-115: position of the first column named deal_id. *)
Definition find_deal_id_col (header : list string) : option nat :=
  fst <$> list_find (fun col_name => str_lower col_name = "deal_id") header.

(** Lines 118-122: the Unit-Key to row-number index of the existing rows,
    the first data row being row 2. *)
Definition build_index (deal_id_col_idx : nat) (rows : list (list string))
  : gmap string nat :=
  fold_left
    (fun index p =>
       let row_idx := (fst p + 2)%nat in
       match snd p !! deal_id_col_idx with
       | Some cell =>
           if negb (String.eqb cell "") then
             let deal_id := str_strip cell in
             if negb (String.eqb deal_id "") then <[deal_id := row_idx]> index
             else index
           else index
       | None => index
       end)
    (enumerate rows) ∅.

(** Lines 92-158. *)
Definition _init_google_sheets (remote : spreadsheet) : M exporter unit :=
  try_except
    (io GetSpreadsheet ;;
     match remote with
     | SpreadsheetError => raise ExternalError
     | NoSpreadsheet =>
         modify (set_worksheet None) ;; modify (set_deal_id_to_row ∅)
     | Spreadsheet unified =>
         try_except
           (io OpenWorksheet ;;
            match unified with
            | None => raise ExternalError
            | Some ws =>
                modify (set_worksheet (Some ws)) ;;
                do existing_data <- get_all_values;
                (if (1 <? length existing_data)%nat then
                   modify (set_sheets_header_written true) ;;
                   modify (set_deal_id_to_row ∅) ;;
                   match existing_data with
                   | header :: rows =>
                       modify (set_sheets_header_columns (Some (length header))) ;;
                       match find_deal_id_col header with
                       | Some deal_id_col_idx =>
                           modify (set_deal_id_to_row
                                     (build_index deal_id_col_idx rows))
                       | None => ret tt
                       end
                   | [] => ret tt
                   end ;;
                   modify (set_sheets_next_row (length existing_data + 1)%nat)
                 else if (length existing_data =? 1)%nat then
                   modify (set_sheets_header_written true) ;;
                   modify (set_sheets_next_row 2%nat) ;;
                   modify (set_deal_id_to_row ∅) ;;
                   match existing_data with
                   | header :: _ =>
                       modify (set_sheets_header_columns (Some (length header)))
                   | [] => ret tt
                   end
                 else ret tt) ;;
                expand_columns 50 40
            end)
           (fun _ =>
              io AddWorksheet ;;
              match unified with
              | Some _ => raise ExternalError
              | None =>
                  modify (set_worksheet (Some (mk_worksheet [] 50 2000))) ;;
                  modify (set_deal_id_to_row ∅)
              end)
     end)%M
    (fun _ => modify (set_worksheet None) ;; modify (set_deal_id_to_row ∅))%M.

(** The files found on disk, before the constructor has run. *)
Definition on_disk (jsonl : list json) (tsv : option (list (list string)))
  : exporter :=
  mk jsonl tsv false None None false false None 2%nat ∅ [].

(** Lines 29-81. *)
Definition __init__ (google_sheets_id : option string) (remote : spreadsheet)
  : M exporter unit :=
  (io Mkdir ;;
   do self <- get;
   modify (set_tsv_header_written (bool_decide (is_Some (tsv_file self)))) ;;
   (if bool_decide (is_Some (tsv_file self)) then
      try_except
        (io ReadCsvHeader ;;
         match tsv_file self with
         | Some ((c :: cs) :: _) => modify (set_tsv_columns (Some (c :: cs)))
         | _ => raise ValueError
         end)
        (fun _ => modify (set_tsv_header_written false) ;;
                  modify (set_tsv_columns None))
    else modify (set_tsv_columns None)) ;;
   modify (set_deal_id_to_row ∅) ;;
   modify (set_worksheet None) ;;
   modify (set_sheets_header_written false) ;;
   modify (set_sheets_header_updated false) ;;
   modify (set_sheets_header_columns None) ;;
   modify (set_sheets_next_row 2%nat) ;;
   modify (set_deal_id_to_row ∅) ;;
   match google_sheets_id with
   | Some id => if negb (String.eqb id "") then _init_google_sheets remote
                else ret tt
   | None => ret tt
   end)%M.

(** Lines 231-246: long text is cut to 49000 characters. *)
Definition prepare_cell (v : json) : json :=
  match v with
  | JStr s =>
      if (49000 <? Z.of_nat (String.length s))%Z
      then JStr (String.substring 0 (Z.to_nat 49000) s)
      else v
  | _ => v
  end.

(** Lines 248-292: write the header once per run when it is missing or
    differs from the record's columns. *)
Definition reconcile_header (new_header : list string) : M exporter unit :=
  (do self <- get;
   if negb (sheets_header_updated self) then
     do existing_data <- get_all_values;
     match existing_data with
     | existing_header :: _ =>
         if negb (bool_decide (existing_header = new_header)) then
           expand_columns (length new_header + 10) 50 ;;
           update_header new_header ;;
           modify (set_sheets_header_updated true) ;;
           modify (set_sheets_header_columns (Some (length new_header)))
         else ret tt
     | [] =>
         if negb (sheets_header_written self) then
           expand_columns (length new_header + 10) 50 ;;
           update_header new_header ;;
           modify (set_sheets_header_written true) ;;
           modify (set_sheets_header_updated true) ;;
           modify (set_sheets_header_columns (Some (length new_header)))
         else ret tt
     end
   else ret tt)%M.

(** Lines 294-305: the number of columns a row is written with. *)
Definition header_column_count (new_header : list string) : M exporter nat :=
  (do self <- get;
   match sheets_header_columns self with
   | Some (S n) => ret (S n)
   | _ =>
       do existing_data <- get_all_values;
       match existing_data with
       | h :: _ => ret (length h)
       | [] =>
           modify (set_sheets_header_columns (Some (length new_header))) ;;
           ret (length new_header)
       end
   end)%M.

(** Lines 307-313: pad with [None], cut what is beyond the header. *)
Definition fit_row (num_cols : nat) (row_values : list json) : list json :=
  let padded := row_values ++ replicate (num_cols - length row_values) JNull in
  if (num_cols <? length padded)%nat then take num_cols padded else padded.

(** Lines 316-321: the row the index holds for this record, if any. *)
Definition lookup_target_row (self : exporter) (deal_dict : list (string * json))
  : option nat :=
  let deal_id := default JNull (assoc_get deal_dict "deal_id") in
  if json_truthy deal_id && negb (size (deal_id_to_row self) =? 0)%nat
  then deal_id_to_row self !! py_str deal_id
  else None.

(** Lines 215-339. *)
Definition _append_to_sheets (deal_dict : list (string * json)) : M exporter unit :=
  (do self <- get;
   match worksheet self with
   | None => ret tt
   | Some _ =>
       try_except
         (let flattened := flattened_record deal_dict in
          let row_values := map (fun p => prepare_cell (snd p)) flattened in
          let new_header := map fst flattened in
          reconcile_header new_header ;;
          do num_cols <- header_column_count new_header;
          let row_values := fit_row num_cols row_values in
          do self <- get;
          match lookup_target_row self deal_dict with
          | Some (S r) => update_sheet_row (S r) row_values
          | _ =>
              update_sheet_row (sheets_next_row self) row_values ;;
              modify (fun self =>
                        set_sheets_next_row (sheets_next_row self + 1)%nat self)
          end)
         (fun _ => ret tt)
   end)%M.

(** Lines 160-177; [deal_dict] is [enriched_deal.model_dump(mode='json')]. *)
Definition export_deal (deal_dict : list (string * json)) : M exporter unit :=
  (_append_jsonl deal_dict ;;
   _append_tsv deal_dict ;;
   do self <- get;
   match worksheet self with
   | Some _ => _append_to_sheets deal_dict
   | None => ret tt
   end)%M.

End Methods.

(** A step that stays on the spreadsheet side: it leaves the append log and
    the tabular file, with its header bookkeeping, as they are, does not
    touch the row index, and only adds to the log of outside calls. *)
Definition sheet_side {A : Type} (m : M exporter A) : Prop :=
  forall s,
    jsonl_file (snd (m s)) = jsonl_file s
    /\ tsv_file (snd (m s)) = tsv_file s
    /\ tsv_header_written (snd (m s)) = tsv_header_written s
    /\ tsv_columns (snd (m s)) = tsv_columns s
    /\ deal_id_to_row (snd (m s)) = deal_id_to_row s
    /\ exists rest, io_log (snd (m s)) = io_log s ++ rest.


(** A step that succeeds on an attached worksheet and leaves its data rows
    (everything below the header), the row index and the row cursor as they
    are. *)
Definition keeps_rows {A : Type} (m : M exporter A) : Prop :=
  forall s ws,
    worksheet s = Some ws ->
    exists a s1 ws1,
      m s = (Ok a, s1)
      /\ worksheet s1 = Some ws1
      /\ drop 1 (ws_values ws1) = drop 1 (ws_values ws)
      /\ deal_id_to_row s1 = deal_id_to_row s
      /\ sheets_next_row s1 = sheets_next_row s.

End IncrementalExporter.

(** ** Batch processors ([enrichment/enricher.py],
       [package_creation/creator.py]) *)

(** What a batch loop does to its collaborators, in order: the call to the
    transform for the unit numbered [idx], the hand-over of a record to the
    exporter, the checkpoint mark, and a checkpoint flush. *)
Inductive event : Type :=
| EvProcess (idx : Z)
| EvExport (idx : Z) (record : json)
| EvMark (idx : Z) (k : key)
| EvSave.

(** [list(enumerate(l, 1))]. *)
Definition enumerate1 {A : Type} (l : list A) : list (Z * A) :=
  imap (fun i x => (Z.of_nat i + 1, x)) l.

(** Run a method of an optional collaborator object held in the state. *)
Definition on_field {S T : Type} (getf : S -> option T)
    (setf : option T -> S -> S) (m : M T unit) : M S unit :=
  fun s =>
    match getf s with
    | Some t => let (r, t') := m t in (r, setf (Some t') s)
    | None => (Ok tt, s)
    end.

Module DealEnricher.

(** The local variables of [enrich_batch] that change while it runs, and the
    trace of what it did. *)
Record batch : Type := mk {
  checkpoint : option EnrichmentCheckpoint.checkpoint;
  exporter : option IncrementalExporter.exporter;
  enriched : list (list (string * json));
  errors : nat;
  trace : list event
}.

Definition set_checkpoint (v : option EnrichmentCheckpoint.checkpoint) (b : batch) :=
  mk v (exporter b) (enriched b) (errors b) (trace b).
Definition set_exporter (v : option IncrementalExporter.exporter) (b : batch) :=
  mk (checkpoint b) v (enriched b) (errors b) (trace b).
Definition set_enriched (v : list (list (string * json))) (b : batch) :=
  mk (checkpoint b) (exporter b) v (errors b) (trace b).
Definition set_errors (v : nat) (b : batch) :=
  mk (checkpoint b) (exporter b) (enriched b) v (trace b).
Definition set_trace (v : list event) (b : batch) :=
  mk (checkpoint b) (exporter b) (enriched b) (errors b) v.

Definition start : batch := mk None None [] 0%nat [].

(** What the exporter's constructor finds: the files of this run's
    timestamp, the spreadsheet id and the remote spreadsheet. *)
Record exporter_env : Type := mk_env {
  env_jsonl : list json;
  env_tsv : option (list (list string));
  env_google_sheets_id : option string;
  env_remote : spreadsheet
}.

Section EnrichBatch.

(** Taken as given: the transform [enrich_deal(deal, llm_client)], whose
    result is represented by its [model_dump]; the optional progress
    callback; the clock and the outcome of the checkpoint write, by position
    in the trace; and what the exporter takes as given. *)
Variable enrich_deal : deal -> result (list (string * json)).
Variable progress_callback :
  option (Z -> Z -> list (string * json) -> result unit).
Variable now_iso : nat -> string.
Variable disk_ok : nat -> bool.
Variable json_dumps : json -> string.
Variable py_repr : json -> string.
Variable io_ok : nat -> bool.

Definition log (ev : event) : M batch unit :=
  modify (fun b => set_trace (trace b ++ [ev]) b).

(** [deal.deal_id]: only an object with that attribute has it. *)
Definition attr_deal_id (d : deal) : result key :=
  match d with
  | DealObject attrs =>
      match assoc_get attrs "deal_id" with
      | Some k => Ok k
      | None => Raise AttributeError
      end
  | DealDict _ => Raise AttributeError
  end.

(** [checkpoint.save()]. *)
Definition save_checkpoint : M batch unit :=
  (do b <- get;
   log EvSave ;;
   on_field checkpoint set_checkpoint
     (EnrichmentCheckpoint.save None (now_iso (length (trace b)))
                                (disk_ok (length (trace b)))))%M.

(** Lines 108-137: one turn of the loop. *)
Definition enrich_one (continue_on_error incremental : bool) (total : Z)
    (p : Z * deal) : M batch unit :=
  let idx := fst p in
  let d := snd p in
  try_except
    (log (EvProcess idx) ;;
     do enriched_deal <- lift (enrich_deal d);
     modify (fun b => set_enriched (enriched b ++ [enriched_deal]) b) ;;
     (if incremental then
        (do b <- get;
         match checkpoint b with
         | Some _ =>
             do k <- lift (attr_deal_id d);
             log (EvMark idx k) ;;
             on_field checkpoint set_checkpoint
               (modify (EnrichmentCheckpoint.mark_processed k)) ;;
             if (idx mod 10 =? 0)%Z then save_checkpoint else ret tt
         | None => ret tt
         end) ;;
        (do b <- get;
         match exporter b with
         | Some _ =>
             log (EvExport idx (JDict enriched_deal)) ;;
             on_field exporter set_exporter
               (IncrementalExporter.export_deal json_dumps py_repr io_ok
                                                enriched_deal)
         | None => ret tt
         end)
      else ret tt) ;;
     match progress_callback with
     | Some cb => lift (cb idx total enriched_deal)
     | None => ret tt
     end ;;
     do _ <- lift (attr_deal_id d);
     ret tt)%M
    (fun e =>
       modify (fun b => set_errors (errors b + 1)%nat b) ;;
       do _ <- lift (attr_deal_id d);
       if negb continue_on_error then raise e else ret tt)%M.

(** Lines 57-148. *)
Definition enrich_batch (deals : list deal)
    (continue_on_error incremental : bool)
    (checkpoint_file : option backing_file) (output : option exporter_env)
  : M batch (list (list (string * json))) :=
  (do deals <-
     (if incremental then
        do deals <-
          match checkpoint_file with
          | Some f =>
              let (r, cp) := EnrichmentCheckpoint.__init__ f in
              lift r ;;
              modify (set_checkpoint (Some cp)) ;;
              ret (EnrichmentCheckpoint.get_unprocessed_deals cp deals)
          | None => ret deals
          end;
        match output with
        | Some env =>
            let (r, e) :=
              IncrementalExporter.__init__ io_ok (env_google_sheets_id env)
                (env_remote env)
                (IncrementalExporter.on_disk (env_jsonl env) (env_tsv env)) in
            lift r ;;
            modify (set_exporter (Some e))
        | None => ret tt
        end ;;
        ret deals
      else ret deals);
   let total := len deals in
   for_each (enrich_one continue_on_error incremental total)
            (enumerate1 deals) ;;
   do b <- get;
   match checkpoint b with
   | Some _ => if incremental then save_checkpoint else ret tt
   | None => ret tt
   end ;;
   do b <- get;
   ret (enriched b))%M.

End EnrichBatch.

End DealEnricher.

Module PackageCreator.

(** The settings of a [PackageCreator]. *)
Record creator : Type := mk_creator {
  max_deals_per_cluster : Z;
  min_cluster_size : Z;
  clustering_method : string;
  use_soft_assignments : bool
}.

Section CreatePackages.

Context {Deal Embeddings Exporter : Type}.

(** Taken as given: scikit-learn (see [Clustering]), the embedding model, the
    transform [_propose_packages_for_cluster], the stage-2 exporter's
    [export_package], the clock and the outcome of the checkpoint write. *)
Variable len_embeddings : Embeddings -> nat.
Variable gmm_fit_predict : Z -> string -> Embeddings -> result (list Z).
Variable kmeans_fit_predict : Z -> Embeddings -> result (list Z).
Variable gmm_bic : Z -> Embeddings -> result Q.
Variable gmm_predict_proba : Z -> Embeddings -> result Clustering.ndarray.
Variable create_deal_embeddings : list Deal -> result Embeddings.
Variable _propose_packages_for_cluster : list Deal -> Z -> result (list json).
Variable export_package : json -> M Exporter unit.
Variable now_iso : nat -> string.
Variable disk_ok : nat -> bool.

(** The local state of [create_packages], with the trace of what it did. *)
Record run : Type := mk {
  checkpoint : option PackageCreationCheckpoint.checkpoint;
  incremental_exporter : option Exporter;
  all_proposals : list json;
  trace : list event
}.

Definition set_checkpoint (v : option PackageCreationCheckpoint.checkpoint) (s : run) :=
  mk v (incremental_exporter s) (all_proposals s) (trace s).
Definition set_incremental_exporter (v : option Exporter) (s : run) :=
  mk (checkpoint s) v (all_proposals s) (trace s).
Definition set_all_proposals (v : list json) (s : run) :=
  mk (checkpoint s) (incremental_exporter s) v (trace s).
Definition set_trace (v : list event) (s : run) :=
  mk (checkpoint s) (incremental_exporter s) (all_proposals s) v.

Definition log (ev : event) : M run unit :=
  modify (fun s => set_trace (trace s ++ [ev]) s).

(** [checkpoint.save()]. *)
Definition save_checkpoint : M run unit :=
  (do s <- get;
   log EvSave ;;
   on_field checkpoint set_checkpoint
     (PackageCreationCheckpoint.save None (now_iso (length (trace s)))
                                     (disk_ok (length (trace s)))))%M.

(** [[deals[i] for i in cluster_deal_indices]]. *)
Definition select_deals (deals : list Deal) (cluster_deal_indices : list nat)
  : result (list Deal) :=
  rmap (fun i => match deals !! i with
                 | Some d => Ok d
                 | None => Raise IndexError
                 end) cluster_deal_indices.

(** Lines 155-184: one turn of the loop (the pause between calls to the
    model is not represented). *)
Definition process_cluster (deals : list Deal) (p : Z * list nat) : M run unit :=
  let cluster_idx := fst p in
  (do cluster_deals <- lift (select_deals deals (snd p));
   log (EvProcess cluster_idx) ;;
   do batch_proposals <- lift (_propose_packages_for_cluster cluster_deals cluster_idx);
   (do s <- get;
    match incremental_exporter s, batch_proposals with
    | Some _, _ :: _ =>
        for_each (fun package =>
                    log (EvExport cluster_idx package) ;;
                    on_field incremental_exporter set_incremental_exporter
                             (export_package package))
                 batch_proposals
    | _, _ => ret tt
    end) ;;
   modify (fun s => set_all_proposals (all_proposals s ++ batch_proposals) s) ;;
   do s <- get;
   match checkpoint s with
   | Some _ =>
       log (EvMark cluster_idx (KNum cluster_idx)) ;;
       on_field checkpoint set_checkpoint
         (modify (PackageCreationCheckpoint.mark_processed cluster_idx)) ;;
       if (cluster_idx mod 5 =? 0)%Z then save_checkpoint else ret tt
   | None => ret tt
   end)%M.

(** Lines 79-193, called without a progress callback; the initial state
    holds the [checkpoint] and [incremental_exporter] arguments. *)
Definition create_packages (self : creator) (deals : list Deal)
  : M run (list json) :=
  (if decide (len deals < min_cluster_size self) then ret []
   else
     do embeddings <- lift (create_deal_embeddings deals);
     do clusters <-
       lift (if use_soft_assignments self then
               Clustering.cluster_deals_with_soft_assignments
                 gmm_predict_proba deals embeddings
                 (max_deals_per_cluster self) (min_cluster_size self) (3 # 10)
             else
               Clustering.cluster_deals_semantically
                 len_embeddings gmm_fit_predict kmeans_fit_predict gmm_bic
                 deals embeddings
                 (max_deals_per_cluster self) (min_cluster_size self)
                 (clustering_method self) None "full");
     match clusters with
     | [] => ret []
     | _ :: _ =>
         do s <- get;
         let unprocessed_clusters :=
           match checkpoint s with
           | Some cp => PackageCreationCheckpoint.get_unprocessed_clusters cp clusters
           | None => enumerate1 clusters
           end in
         for_each (process_cluster deals) unprocessed_clusters ;;
         do s <- get;
         match checkpoint s with
         | Some _ => save_checkpoint
         | None => ret tt
         end ;;
         do s <- get;
         ret (all_proposals s)
     end)%M.

End CreatePackages.

End PackageCreator.

(** ** Concrete inputs used by the examples below *)

Module Inputs.

(** A mixture in which every sample belongs to every component with
    probability 1, as a single-component fit gives. *)
Definition certain (n_samples : nat) (n_components : Z) : Clustering.ndarray :=
  Clustering.mk_ndarray n_samples (Z.to_nat n_components) (fun _ _ => 1%Q).

(** Ten samples and two components: sample 0 is split evenly, samples 1-7
    belong to component 0, samples 8 and 9 to component 1. *)
Definition split_sample : Clustering.ndarray :=
  Clustering.mk_ndarray 10 2
    (fun i c =>
       match i, c with
       | O, _ => (1 # 2)%Q
       | _, O => if (i <? 8)%nat then 1%Q else 0%Q
       | _, _ => if (i <? 8)%nat then 0%Q else 1%Q
       end).

(** Ten samples and two components, every sample split evenly. *)
Definition even_split : Clustering.ndarray :=
  Clustering.mk_ndarray 10 2 (fun _ _ => (1 # 2)%Q).

(** A record with five fields, and one with the same five and two more. *)
Definition record_five : list (string * json) :=
  [("deal_id", JStr "A"); ("deal_name", JStr "first");
   ("source", JStr "BidSwitch"); ("floor_price", JNum 2);
   ("raw_deal_data", JDict [])].

Definition record_seven : list (string * json) :=
  [("deal_id", JStr "B"); ("deal_name", JStr "second");
   ("taxonomy", JDict [("tier1", JStr "Automotive")]);
   ("source", JStr "BidSwitch"); ("floor_price", JNum 3);
   ("format", JStr "video"); ("raw_deal_data", JDict [])].

(** A worksheet that already has the header of [record_five] and one row,
    for the deal Z. *)
Definition sheet_with_one_row : Worksheet :=
  mk_worksheet
    [["deal_id"; "deal_name"; "source"; "floor_price"; "raw_deal_data"];
     ["Z"; "old"; "BidSwitch"; "1"; ""]]
    50 1000.

(** The same record as [record_five] for the deal Z. *)
Definition record_z : list (string * json) :=
  [("deal_id", JStr "Z"); ("deal_name", JStr "renamed");
   ("source", JStr "BidSwitch"); ("floor_price", JNum 2);
   ("raw_deal_data", JDict [])].

(** A stage-1 deal object with the key A, and a run that writes files only. *)
Definition deal_a : deal := DealObject [("deal_id", KStr "A")].

Definition files_only : DealEnricher.exporter_env :=
  DealEnricher.mk_env [] None None NoSpreadsheet.

(** A checkpoint file that records A as processed. *)
Definition checkpoint_with_a : backing_file :=
  Parsed (JDict [("processed_deal_ids", JList [JStr "A"]);
                 ("source_file", JNull);
                 ("last_updated", JStr "2025-01-01T00:00:00");
                 ("count", JNum 1)]).

(** A proposed package, and a stage-2 exporter that keeps what it is
    handed. *)
Definition package_p : json :=
  JDict [("package_name", JStr "P"); ("deal_ids", JList [JStr "A"])].

Definition keep_package (package : json) : M (list json) unit :=
  modify (fun kept => kept ++ [package]).

End Inputs.

(** ** Keys that [sorted] can order *)

(** A list of keys that are all strings, or all numbers: the lists on which
    [<] never raises. *)
Definition comparable (l : list key) : Prop :=
  (forall k, k ∈ l -> exists s, k = KStr s)
  \/ (forall k, k ∈ l -> exists z, k = KNum z).

(** ** Column letters ([enrichment/incremental_exporter.py], lines 83-90) *)

Module ColumnLetters.

(** The [while col_num > 0] loop, with the number of turns it may take
    bounded by [fuel]; [None] when the bound is hit. *)
Fixpoint column_loop (fuel : nat) (col_num : Z) (result : string) : option string :=
  if col_num >? 0 then
    match fuel with
    | O => None
    | S fuel' =>
        let col_num := col_num - 1 in
        column_loop fuel' (col_num / 26)
          (String (ascii_of_nat (Z.to_nat (65 + col_num mod 26))) result)
    end
  else Some result.

(** [_get_column_letter(col_num)]: the loop is given [col_num] turns. *)
Definition _get_column_letter (col_num : Z) : option string :=
  column_loop (Z.to_nat col_num) col_num "".

(** The column a run of capital letters stands for in A1 notation: A is 1,
    Z is 26, AA is 27. *)
Fixpoint column_number_from (acc : Z) (letters : string) : Z :=
  match letters with
  | EmptyString => acc
  | String c rest =>
      column_number_from (acc * 26 + (Z.of_nat (nat_of_ascii c) - 64)) rest
  end.

Definition column_number (letters : string) : Z := column_number_from 0 letters.

(** Every character is one of A .. Z. *)
Fixpoint capital_letters (letters : string) : Prop :=
  match letters with
  | EmptyString => True
  | String c rest =>
      (65 <= nat_of_ascii c <= 90)%nat /\ capital_letters rest
  end.

End ColumnLetters.

(** ** Flat records *)

(** A value that is neither a list nor a dict. *)
Definition scalar (v : json) : Prop :=
  match v with
  | JList _ | JDict _ => False
  | _ => True
  end.

(** ** Keys of worksheet rows *)

(** The key a worksheet row carries in column [deal_id_col_idx]: the
    stripped cell, empty when the row is too short or the cell is blank. *)
Definition row_key (deal_id_col_idx : nat) (row_data : list string) : string :=
  match row_data !! deal_id_col_idx with
  | Some cell => str_strip cell
  | None => ""
  end.

(** ** Invariants of stateful code *)

(** Running [m] from a state that satisfies [P] ends, whether [m] returns
    or raises, in a state that satisfies [Q]. *)
Definition hoare {S A : Type} (P : S -> Prop) (m : M S A) (Q : S -> Prop) : Prop :=
  forall s, P s -> Q (snd (m s)).

(** Every row the index points at is a data row strictly below the row the
    next append goes to. *)
Definition index_below_cursor (self : IncrementalExporter.exporter) : Prop :=
  forall k r,
    IncrementalExporter.deal_id_to_row self !! k = Some r ->
    (2 <= r < IncrementalExporter.sheets_next_row self)%nat.

(** [m] returns from every state: it never raises. *)
Definition never_raises {S A : Type} (m : M S A) : Prop :=
  forall s, exists a, fst (m s) = Ok a.

(** ** Further concrete inputs *)

Module MoreInputs.

(** Twenty samples of which the first fourteen are labelled 0 and the last
    six are labelled 1, whatever number of clusters is asked for. *)
Definition two_groups (n_clusters : Z) (n_samples : nat) : result (list Z) :=
  Ok (replicate 14 0 ++ replicate 6 1).

(** A stage-1 deal object with the key B, and a transform that succeeds for
    the deal A only. *)
Definition deal_b : deal := DealObject [("deal_id", KStr "B")].

Definition enrich_only_a (d : deal) : result (list (string * json)) :=
  if decide (EnrichmentCheckpoint.extract_deal_id d = KStr "A")
  then Ok [("deal_id", JStr "A")] else Raise ValueError.

End MoreInputs.

(** * Properties *)

(** ** Sequence primitives *)

Lemma py_slice_length_le {A : Type} (l : list A) (lo step : Z) :
  0 <= lo -> 0 < step -> len (py_slice l lo (lo + step)) <= step.
Proof.
  intros Hlo Hstep. unfold py_slice, len, clamp_index.
  rewrite length_take, length_drop.
  repeat case_decide; lia.
Qed.

Lemma py_range_nonneg (stop step : Z) (r : list Z) :
  py_range 0 stop step = Ok r -> 0 < step -> Forall (fun i => 0 <= i) r.
Proof.
  unfold py_range. intros H Hstep.
  repeat case_decide; try lia. inversion H; subst.
  apply Forall_forall. intros i Hi. apply list_elem_of_In in Hi.
  apply in_map_iff in Hi. destruct Hi as [k [<- _]]. nia.
Qed.

Lemma py_range_neg_step (start stop step : Z) :
  step < 0 -> start <= stop -> py_range start stop step = Ok [].
Proof.
  intros Hs Hle. unfold py_range. repeat case_decide; try lia.
  replace (Z.to_nat ((start - stop - step - 1) / - step)) with 0%nat; [reflexivity|].
  assert ((start - stop - step - 1) / - step <= 0); [|lia].
  assert (start - stop - step - 1 < - step) by lia.
  destruct (Z_lt_le_dec (start - stop - step - 1) 0).
  - assert ((start - stop - step - 1) / - step < 0); [|lia].
    apply Z.div_lt_upper_bound; lia.
  - rewrite Z.div_small; lia.
Qed.


Lemma rfold_invariant {A B : Type} (P : A -> Prop) (body : A -> B -> result A)
    (l : list B) (acc r : A) :
  P acc ->
  (forall a x a', P a -> body a x = Ok a' -> P a') ->
  rfold body l acc = Ok r -> P r.
Proof.
  intros Hacc Hstep. revert acc Hacc.
  induction l as [|x l IH]; intros acc Hacc H; simpl in H.
  - inversion H; subst; exact Hacc.
  - destruct (body acc x) as [a|e] eqn:E; simpl in H; [|discriminate].
    eapply IH; [|exact H]. eapply Hstep; eauto.
Qed.

(** A loop that only appends to its accumulator returns the accumulator
    followed by what each turn appended. *)
Lemma rfold_extend {A B : Type} (f : B -> result (list A)) (l : list B)
    (acc r : list A) :
  rfold (fun acc x => rbind (f x) (fun cs => Ok (acc ++ cs))) l acc = Ok r ->
  exists css, rmap f l = Ok css /\ r = acc ++ concat css.
Proof.
  revert acc. induction l as [|x l IH]; intros acc H; simpl in H.
  - inversion H; subst. exists []. simpl. rewrite app_nil_r. auto.
  - destruct (f x) as [cs|e] eqn:E; simpl in H; [|discriminate].
    destruct (IH _ H) as [css [Hcss Hr]].
    exists (cs :: css). simpl. rewrite E, Hcss. split; [reflexivity|].
    rewrite Hr, app_assoc. reflexivity.
Qed.


(** ** Bounded semantic partitioner *)

Module ClusteringFacts.
Import Clustering.

Lemma chunks_bounded (m : Z) (xs : list nat) (cs : list (list nat)) :
  chunks m xs = Ok cs -> Forall (fun c => len c <= m) cs.
Proof.
  unfold chunks. intros H.
  destruct (py_range 0 (len xs) m) as [starts|e] eqn:E; simpl in H; [|discriminate].
  inversion H; subst; clear H.
  destruct (Z_lt_le_dec 0 m) as [Hpos|Hneg].
  - pose proof (py_range_nonneg _ _ _ E Hpos) as Hnn.
    apply Forall_forall. intros c Hc. apply list_elem_of_In, in_map_iff in Hc.
    destruct Hc as [i [<- Hi]]. apply list_elem_of_In in Hi.
    rewrite Forall_forall in Hnn. apply py_slice_length_le; auto.
  - destruct (decide (m = 0)) as [->|Hne].
    + unfold py_range in E. simpl in E. discriminate.
    + rewrite py_range_neg_step in E by (unfold len; lia).
      inversion E; subst. constructor.
Qed.

Lemma split_large_bounded (m : Z) (clusters : list (Z * list nat))
    (final : list (list nat)) :
  split_large m clusters = Ok final -> Forall (fun c => len c <= m) final.
Proof.
  unfold split_large. apply rfold_invariant; [constructor|].
  intros acc [label xs] acc' Hacc Hbody. simpl in Hbody.
  case_decide.
  - inversion Hbody; subst. apply Forall_app; split; [exact Hacc|].
    constructor; [assumption|constructor].
  - destruct (chunks m xs) as [cs|e] eqn:E; simpl in Hbody; [|discriminate].
    inversion Hbody; subst. apply Forall_app; split; [exact Hacc|].
    eapply chunks_bounded; eauto.
Qed.

Lemma insert_desc_perm (key : nat -> Q) (x : nat) (l : list nat) :
  Permutation (insert_desc key x l) (x :: l).
Proof.
  induction l as [|y l IH]; simpl; [reflexivity|].
  destruct (Qle_bool (key y) (key x)); [reflexivity|].
  rewrite IH. apply perm_swap.
Qed.

Lemma sorted_desc_perm (key : nat -> Q) (l : list nat) :
  Permutation (sorted_desc key l) l.
Proof.
  induction l as [|x l IH]; simpl; [reflexivity|].
  rewrite insert_desc_perm. constructor. exact IH.
Qed.

(** With a positive chunk size, every member of the list lands in a chunk. *)
Lemma chunks_cover (m : Z) (xs : list nat) (cs : list (list nat)) (x : nat) :
  0 < m -> chunks m xs = Ok cs -> x ∈ xs -> exists c, c ∈ cs /\ x ∈ c.
Proof.
  intros Hm H Hx. apply list_elem_of_lookup in Hx as [p Hp].
  pose proof (lookup_lt_Some _ _ _ Hp) as Hlt.
  unfold chunks, py_range in H. repeat case_decide; try lia.
  simpl in H. inversion H; subst; clear H.
  pose proof (Z.mul_div_le (Z.of_nat p) m Hm) as Hlo.
  pose proof (Z.mul_succ_div_gt (Z.of_nat p) m Hm) as Hhi.
  assert (0 <= Z.of_nat p / m) as Hq by (apply Z.div_pos; lia).
  set (q := Z.of_nat p / m) in *.
  exists (py_slice xs (0 + Z.of_nat (Z.to_nat q) * m)
                   (0 + Z.of_nat (Z.to_nat q) * m + m)). split.
  - apply list_elem_of_In, in_map_iff.
    exists (0 + Z.of_nat (Z.to_nat q) * m). split; [reflexivity|].
    apply in_map_iff. exists (Z.to_nat q). split; [reflexivity|].
    apply in_seq. split; [lia|]. simpl.
    assert (q + 1 <= (len xs - 0 + m - 1) / m); [|lia].
    apply Z.div_le_lower_bound; [lia|]. unfold len. lia.
  - unfold py_slice, clamp_index. rewrite Z2Nat.id by lia.
    repeat case_decide; try lia.
    apply list_elem_of_lookup.
    exists (p - Z.to_nat (Z.min (0 + q * m) (Z.of_nat (length xs))))%nat.
    rewrite lookup_take_lt by lia. rewrite lookup_drop.
    rewrite <- Hp. f_equal. lia.
Qed.

Lemma members_above_elem (thr : Q) (col : list Q) (i : nat) (q : Q) :
  col !! i = Some q -> (thr <= q)%Q -> i ∈ members_above thr col.
Proof.
  intros Hi Hq. unfold members_above.
  apply list_elem_of_In, in_map_iff. exists (i, q). split; [reflexivity|].
  apply list_elem_of_In, list_elem_of_filter. split.
  - simpl. apply Qle_bool_iff. exact Hq.
  - unfold enumerate. apply (elem_of_lookup_imap_2 (fun i x => (i, x))). exact Hi.
Qed.

Lemma column_lookup (p : ndarray) (c i : nat) (col : list Q) :
  column p (Z.of_nat c) = Ok col -> (i < shape0 p)%nat ->
  col !! i = Some (item p i c).
Proof.
  unfold column. intros H Hi.
  destruct (decide (0 <= Z.of_nat c < Z.of_nat (shape1 p))); [|discriminate].
  inversion H; subst; clear H. rewrite Nat2Z.id.
  change (map ?f ?l) with (f <$> l). rewrite list_lookup_fmap.
  rewrite lookup_seq_lt by exact Hi. reflexivity.
Qed.

(** Two entries of a list of cluster groups that each hold a cluster with
    [i] give at least two clusters with [i] in the concatenation. *)
Lemma two_groups_two_hits (css : list (list (list nat))) (i j1 j2 : nat)
    (cs1 cs2 : list (list nat)) :
  (j1 < j2)%nat -> css !! j1 = Some cs1 -> css !! j2 = Some cs2 ->
  (exists c, c ∈ cs1 /\ i ∈ c) -> (exists c, c ∈ cs2 /\ i ∈ c) ->
  (2 <= length (filter (fun c => i ∈ c) (concat css)))%nat.
Proof.
  intros Hlt H1 H2 [c1 [Hc1 Hi1]] [c2 [Hc2 Hi2]].
  assert (forall (cs : list (list nat)) (c : list nat), c ∈ cs -> i ∈ c ->
            (1 <= length (filter (fun c : list nat => i ∈ c) cs))%nat) as Hone.
  { intros cs c Hc Hi. apply list_elem_of_split in Hc as [l1 [l2 ->]].
    rewrite filter_app, filter_cons_True by exact Hi.
    rewrite length_app. simpl. lia. }
  rewrite <- (take_drop_middle css j1 cs1 H1).
  assert (drop (S j1) css !! (j2 - S j1)%nat = Some cs2) as H2'.
  { rewrite lookup_drop. rewrite <- H2. f_equal. lia. }
  rewrite <- (take_drop_middle _ _ _ H2').
  rewrite !concat_app. simpl. rewrite !concat_app. simpl.
  rewrite !filter_app, !length_app.
  pose proof (Hone _ _ Hc1 Hi1). pose proof (Hone _ _ Hc2 Hi2). lia.
Qed.

Lemma rmap_lookup {A B : Type} (f : A -> result B) (l : list A) (r : list B)
    (j : nat) (x : A) :
  rmap f l = Ok r -> l !! j = Some x -> exists y, f x = Ok y /\ r !! j = Some y.
Proof.
  revert r j. induction l as [|a l IH]; intros r j H Hj; [discriminate|].
  simpl in H. destruct (f a) as [y|e] eqn:E; [|discriminate].
  destruct (rmap f l) as [ys|e] eqn:E'; [|discriminate].
  inversion H; subst; clear H. destruct j as [|j]; simpl in *.
  - inversion Hj; subst. eauto.
  - eapply IH; eauto.
Qed.

Section Partitioner.

Context {Deal Embeddings : Type}.
Variable len_embeddings : Embeddings -> nat.
Variable gmm_fit_predict : Z -> string -> Embeddings -> result (list Z).
Variable kmeans_fit_predict : Z -> Embeddings -> result (list Z).
Variable gmm_bic : Z -> Embeddings -> result Q.
Variable gmm_predict_proba : Z -> Embeddings -> result ndarray.

(** Hard mode keeps the bounds: whatever labels the fitted model returns,
    every cluster of the returned list has between [min_cluster_size] and
    [max_deals_per_cluster] members. *)
Lemma hard_mode_bounds (deals : list Deal) (embeddings : Embeddings)
    (max_deals_per_cluster min_cluster_size : Z) (method : string)
    (n_components : option Z) (covariance_type : string)
    (clusters : list (list nat)) :
  cluster_deals_semantically len_embeddings gmm_fit_predict kmeans_fit_predict
    gmm_bic deals embeddings max_deals_per_cluster min_cluster_size method
    n_components covariance_type = Ok clusters ->
  Forall (fun c => min_cluster_size <= len c <= max_deals_per_cluster) clusters.
Proof.
  unfold cluster_deals_semantically. intros H.
  case_decide; [inversion H; constructor|].
  destruct (target_components _ _ _) as [k|e]; simpl in H; [|discriminate].
  destruct (fit_labels _ _ _ _ _ _ _ _ _) as [labels|e]; simpl in H; [|discriminate].
  destruct (split_large _ _) as [final|e] eqn:E; simpl in H; [|discriminate].
  inversion H; subst; clear H.
  apply split_large_bounded in E. unfold filter_tiny.
  apply Forall_forall. intros c Hc. apply list_elem_of_filter in Hc.
  destruct Hc as [Hmin Hin]. rewrite Forall_forall in E. split; auto.
Qed.

Lemma component_clusters_bounded (P : ndarray) (maxc minc : Z) (thr : Q)
    (c : Z) (cs : list (list nat)) :
  component_clusters P maxc minc thr c = Ok cs ->
  Forall (fun cl => len cl <= maxc) cs.
Proof.
  unfold component_clusters. intros H.
  destruct (column P c) as [col|e]; simpl in H; [|discriminate].
  case_decide; [|injection H as <-; apply Forall_nil_2].
  case_decide.
  - injection H as <-. apply Forall_cons_2; [assumption|apply Forall_nil_2].
  - eapply chunks_bounded; eauto.
Qed.

(** Soft mode keeps the upper bound: no returned cluster has more than
    [max_deals_per_cluster] members. *)
Lemma soft_mode_upper_bound (deals : list Deal) (embeddings : Embeddings)
    (max_deals_per_cluster min_cluster_size : Z) (probability_threshold : Q)
    (clusters : list (list nat)) :
  cluster_deals_with_soft_assignments gmm_predict_proba deals embeddings
    max_deals_per_cluster min_cluster_size probability_threshold = Ok clusters ->
  Forall (fun c => len c <= max_deals_per_cluster) clusters.
Proof.
  unfold cluster_deals_with_soft_assignments. intros H.
  case_decide; [inversion H; constructor|].
  destruct (target_components _ _ _) as [n|e]; simpl in H; [|discriminate].
  destruct (gmm_predict_proba n embeddings) as [P|e]; simpl in H; [|discriminate].
  unfold py_range in H. repeat case_decide; try lia. simpl in H.
  revert H. apply rfold_invariant; [constructor|].
  intros acc c acc' Hacc Hbody.
  destruct (component_clusters P _ _ _ c) as [cs|e] eqn:E; simpl in Hbody;
    [|discriminate].
  inversion Hbody; subst. apply Forall_app. split; [exact Hacc|].
  eapply component_clusters_bounded; eauto.
Qed.

(** A component that is within the matrix and has at least
    [min_cluster_size] members contributes a cluster for each of them. *)
Lemma component_clusters_member (P : ndarray) (maxc minc : Z) (thr : Q)
    (c i : nat) (cs : list (list nat)) :
  0 < maxc ->
  component_clusters P maxc minc thr (Z.of_nat c) = Ok cs ->
  (i < shape0 P)%nat -> (thr <= item P i c)%Q ->
  minc <= len (component_members P thr c) ->
  exists cl, cl ∈ cs /\ i ∈ cl.
Proof.
  intros Hmax H Hi Hthr Hmin. unfold component_clusters in H.
  destruct (column P (Z.of_nat c)) as [col|e] eqn:Ecol; simpl in H; [|discriminate].
  pose proof (column_lookup _ _ _ _ Ecol Hi) as Hlook.
  pose proof (members_above_elem thr col i _ Hlook Hthr) as Hmem.
  assert (col = map (fun i => item P i c) (seq 0 (shape0 P))) as Hcol.
  { unfold column in Ecol.
    destruct (decide (0 <= Z.of_nat c < Z.of_nat (shape1 P))); [|discriminate].
    inversion Ecol. rewrite Nat2Z.id. reflexivity. }
  unfold component_members in Hmin. rewrite <- Hcol in Hmin.
  case_decide; [|lia]. case_decide.
  - inversion H. eexists. split; [apply list_elem_of_here|exact Hmem].
  - eapply chunks_cover; [exact Hmax|exact H|].
    rewrite sorted_desc_perm. exact Hmem.
Qed.

(** C4, as the code has it: an item that reaches the threshold in two
    components, each of which has at least [min_cluster_size] members,
    appears in at least two of the returned clusters. *)
Theorem soft_overlap_of_kept_components (deals : list Deal)
    (embeddings : Embeddings) (max_deals_per_cluster min_cluster_size : Z)
    (probability_threshold : Q) (n_components : Z) (probabilities : ndarray)
    (clusters : list (list nat)) (i c1 c2 : nat) :
  cluster_deals_with_soft_assignments gmm_predict_proba deals embeddings
    max_deals_per_cluster min_cluster_size probability_threshold = Ok clusters ->
  min_cluster_size <= len deals ->
  0 < max_deals_per_cluster ->
  target_components deals max_deals_per_cluster min_cluster_size = Ok n_components ->
  gmm_predict_proba n_components embeddings = Ok probabilities ->
  (c1 < c2)%nat -> Z.of_nat c2 < n_components ->
  (i < shape0 probabilities)%nat ->
  (probability_threshold <= item probabilities i c1)%Q ->
  (probability_threshold <= item probabilities i c2)%Q ->
  min_cluster_size <= len (component_members probabilities probability_threshold c1) ->
  min_cluster_size <= len (component_members probabilities probability_threshold c2) ->
  (2 <= length (filter (fun c : list nat => i ∈ c) clusters))%nat.
Proof.
  intros H Hlen Hmax Htarget HP Hc Hc2 Hi Hp1 Hp2 Hm1 Hm2.
  unfold cluster_deals_with_soft_assignments in H.
  case_decide; [lia|]. rewrite Htarget in H. simpl in H.
  rewrite HP in H. simpl in H.
  unfold py_range in H. repeat case_decide; try lia. simpl in H.
  apply rfold_extend in H as [css [Hcss ->]]. simpl.
  assert (forall c : nat, Z.of_nat c < n_components ->
            map (fun k : nat => 0 + Z.of_nat k * 1)
                (seq 0 (Z.to_nat ((n_components - 0 + 1 - 1) / 1))) !! c
            = Some (Z.of_nat c)) as Hlook.
  { intros c Hcn. change (map ?f ?l) with (f <$> l).
    rewrite list_lookup_fmap, lookup_seq_lt.
    - simpl. f_equal. lia.
    - rewrite Z.div_1_r. lia. }
  destruct (rmap_lookup _ _ _ _ _ Hcss (Hlook c1 ltac:(lia))) as [cs1 [Hf1 Hl1]].
  destruct (rmap_lookup _ _ _ _ _ Hcss (Hlook c2 Hc2)) as [cs2 [Hf2 Hl2]].
  eapply two_groups_two_hits; [exact Hc|exact Hl1|exact Hl2| |].
  - eapply component_clusters_member; eauto.
  - eapply component_clusters_member; eauto.
Qed.

End Partitioner.

(** C1 (soft mode drops the lower bound after splitting): nine deals,
    [min_cluster_size = 5], [max_deals_per_cluster = 8]. The target count is
    one component, every sample reaches the threshold in it, the nine
    members are cut into a chunk of eight and a chunk of one, and the chunk
    of one is returned although it is below the minimum; hard mode filters
    such a chunk out. *)
Theorem soft_mode_returns_undersized_chunk :
  cluster_deals_with_soft_assignments
    (fun n (_ : unit) => Ok (Inputs.certain 9 n))
    (replicate 9 tt) tt 8 5 (3 # 10)
  = Ok [[0; 1; 2; 3; 4; 5; 6; 7]; [8]]%nat
  /\ ~ Forall (fun c : list nat => 5 <= len c <= 8)
              [[0; 1; 2; 3; 4; 5; 6; 7]; [8]]%nat.
Proof.
  split; [vm_compute; reflexivity|].
  intros H. inversion H as [|? ? _ H2]; subst.
  inversion H2 as [|? ? H3 _]; subst. unfold len in H3. simpl in H3. lia.
Qed.

(** C5 (the automatic choice ignores the cap): twelve deals,
    [min_cluster_size = 5], [max_deals_per_cluster = 8], hard mode. The target
    count is 2, and K-means is fitted with 2 clusters; but with the default
    method the candidate range [range(3, 2 + 1)] is empty, so the selection
    returns its starting value 3 and the mixture is fitted with 3
    components, whatever the BIC scores are. *)
Theorem twelve_deals_component_count
    (gmm_fit_predict : Z -> string -> nat -> result (list Z))
    (kmeans_fit_predict : Z -> nat -> result (list Z))
    (gmm_bic : Z -> nat -> result Q) (covariance_type : string) :
  target_components (replicate 12 tt) 8 5 = Ok 2
  /\ fitted_components (fun n => n) gmm_bic 12%nat 2 "kmeans" None = Ok 2
  /\ fitted_components (fun n => n) gmm_bic 12%nat 2 "gmm" None = Ok 3
  /\ cluster_deals_semantically (fun n => n) gmm_fit_predict kmeans_fit_predict
       gmm_bic (replicate 12 tt) 12%nat 8 5 "gmm" None covariance_type
     = rbind (gmm_fit_predict 3 covariance_type 12%nat)
         (fun cluster_labels =>
            rbind (split_large 8 (group_by_label cluster_labels))
                  (fun final_clusters => Ok (filter_tiny 5 final_clusters))).
Proof.
  repeat split; reflexivity.
Qed.

(** C4 fails as stated: sample 0 reaches the threshold 0.3 in both
    components, but component 1 has only three members (samples 0, 8, 9),
    fewer than [min_cluster_size = 5], so it contributes no cluster and
    sample 0 appears in one returned cluster only. *)
Lemma soft_overlap_counterexample :
  (3 # 10 <= item Inputs.split_sample 0 0)%Q
  /\ (3 # 10 <= item Inputs.split_sample 0 1)%Q
  /\ cluster_deals_with_soft_assignments
       (fun _ (_ : unit) => Ok Inputs.split_sample)
       (replicate 10 tt) tt 8 5 (3 # 10)
     = Ok [[0; 1; 2; 3; 4; 5; 6; 7]]%nat
  /\ ~ (2 <= length (filter (fun c : list nat => 0%nat ∈ c)
                            [[0; 1; 2; 3; 4; 5; 6; 7]]))%nat.
Proof.
  split; [vm_compute; discriminate|].
  split; [vm_compute; discriminate|].
  split; [vm_compute; reflexivity|].
  vm_compute. lia.
Qed.

Lemma soft_overlap_of_kept_components_witness :
  (2 <= length (filter (fun c : list nat => 0%nat ∈ c)
                       [[0; 1; 2; 3; 4; 5; 6; 7]; [8; 9];
                        [0; 1; 2; 3; 4; 5; 6; 7]; [8; 9]]))%nat.
Proof.
  apply (soft_overlap_of_kept_components
           (fun _ (_ : unit) => Ok Inputs.even_split)
           (replicate 10 tt) tt 8 5 (3 # 10) 2 Inputs.even_split
           [[0; 1; 2; 3; 4; 5; 6; 7]; [8; 9]; [0; 1; 2; 3; 4; 5; 6; 7]; [8; 9]]%nat
           0%nat 0%nat 1%nat).
  - vm_compute. reflexivity.
  - vm_compute. discriminate.
  - reflexivity.
  - reflexivity.
  - reflexivity.
  - lia.
  - reflexivity.
  - simpl. lia.
  - vm_compute. discriminate.
  - vm_compute. discriminate.
  - vm_compute. discriminate.
  - vm_compute. discriminate.
Defined.

End ClusteringFacts.

(** ** Checkpoint store *)

Module CheckpointFacts.

(** The loader never raises, whatever the backing file holds. *)
Lemma enrichment_init_never_raises (f : backing_file) :
  fst (EnrichmentCheckpoint.__init__ f) = Ok tt.
Proof.
  unfold EnrichmentCheckpoint.__init__, EnrichmentCheckpoint._load,
    bind, get, try_except, lift, modify, ret. simpl.
  destruct (file_exists f); [|reflexivity].
  destruct (json_load f) as [data|e]; [|reflexivity].
  destruct (json_get data "processed_deal_ids" (JList [])) as [ids|e]; [|reflexivity].
  destruct (py_set ids) as [s|e]; [|reflexivity].
  destruct (json_get data "source_file" JNull) as [src|e]; [|reflexivity].
  destruct (json_get data "last_updated" JNull) as [upd|e]; reflexivity.
Qed.

Lemma package_creation_init_never_raises (f : backing_file) :
  fst (PackageCreationCheckpoint.__init__ f) = Ok tt.
Proof.
  unfold PackageCreationCheckpoint.__init__, PackageCreationCheckpoint._load,
    bind, get, try_except, lift, modify, ret. simpl.
  destruct (file_exists f); [|reflexivity].
  destruct (json_load f) as [data|e]; [|reflexivity].
  destruct (json_get data "processed_cluster_indices" (JList [])) as [ids|e];
    [|reflexivity].
  destruct (py_set ids) as [s|e]; [|reflexivity].
  destruct (json_get data "source_file" JNull) as [src|e]; [|reflexivity].
  destruct (json_get data "last_updated" JNull) as [upd|e]; reflexivity.
Qed.

(** C9: constructing a checkpoint store over a backing file that exists but
    cannot be opened, cannot be parsed, or does not parse to an object, does
    not raise, and leaves the processed set empty, so that no key is
    reported as processed; in both the stage-1 and the stage-2 store. *)
Theorem corrupt_backing_file_starts_over (f : backing_file) :
  corrupt f ->
  (exists cp,
      EnrichmentCheckpoint.__init__ f = (Ok tt, cp)
      /\ EnrichmentCheckpoint.processed_deal_ids cp = ∅
      /\ forall k, EnrichmentCheckpoint.is_processed cp k = false)
  /\ (exists cp,
         PackageCreationCheckpoint.__init__ f = (Ok tt, cp)
         /\ PackageCreationCheckpoint.processed_cluster_indices cp = ∅
         /\ forall i, PackageCreationCheckpoint.is_processed cp i = false).
Proof.
  intros Hf.
  destruct f as [| | |[]]; simpl in Hf; try contradiction;
    (split; eexists; (split; [reflexivity|]); (split; [reflexivity|]);
     intros; reflexivity).
Qed.

Lemma corrupt_backing_file_starts_over_witness :
  exists cp,
    EnrichmentCheckpoint.__init__ Malformed = (Ok tt, cp)
    /\ EnrichmentCheckpoint.processed_deal_ids cp = ∅
    /\ forall k, EnrichmentCheckpoint.is_processed cp k = false.
Proof.
  apply (corrupt_backing_file_starts_over Malformed). simpl. exact I.
Defined.

Lemma get_unprocessed_deals_acc (cp : EnrichmentCheckpoint.checkpoint)
    (deals acc : list deal) :
  fold_left
    (fun unprocessed d =>
       let deal_id := EnrichmentCheckpoint.extract_deal_id d in
       if key_truthy deal_id && negb (EnrichmentCheckpoint.is_processed cp deal_id)
       then unprocessed ++ [d]
       else if negb (key_truthy deal_id)
       then unprocessed ++ [d]
       else unprocessed)
    deals acc
  = acc ++ filter (EnrichmentCheckpoint.unprocessed cp) deals.
Proof.
  revert acc. induction deals as [|d deals IH]; intros acc; simpl.
  - rewrite app_nil_r. reflexivity.
  - rewrite IH. unfold EnrichmentCheckpoint.is_processed.
    destruct (key_truthy (EnrichmentCheckpoint.extract_deal_id d)) eqn:Et; simpl.
    + case_bool_decide as Hin; simpl.
      * rewrite filter_cons_False; [reflexivity|].
        unfold EnrichmentCheckpoint.unprocessed. intros Hu.
        apply Hu; [exact Et|exact Hin].
      * rewrite filter_cons_True, <- app_assoc; [reflexivity|].
        unfold EnrichmentCheckpoint.unprocessed. intros _. exact Hin.
    + rewrite filter_cons_True, <- app_assoc; [reflexivity|].
      unfold EnrichmentCheckpoint.unprocessed. rewrite Et. discriminate.
Qed.

Lemma get_unprocessed_deals_filter (cp : EnrichmentCheckpoint.checkpoint)
    (deals : list deal) :
  EnrichmentCheckpoint.get_unprocessed_deals cp deals
  = filter (EnrichmentCheckpoint.unprocessed cp) deals.
Proof.
  unfold EnrichmentCheckpoint.get_unprocessed_deals.
  rewrite get_unprocessed_deals_acc. reflexivity.
Qed.

(** C10: [get_unprocessed_deals] returns, in input order, exactly the deals
    that have no non-empty key or whose key is not in the processed set; in
    particular a deal without a usable key is returned whatever the
    processed set holds. *)
Theorem get_unprocessed_deals_keeps_keyless_and_new
    (cp : EnrichmentCheckpoint.checkpoint) (deals : list deal) :
  EnrichmentCheckpoint.get_unprocessed_deals cp deals
  = filter (EnrichmentCheckpoint.unprocessed cp) deals
  /\ (forall d, d ∈ deals ->
        key_truthy (EnrichmentCheckpoint.extract_deal_id d) = false ->
        d ∈ EnrichmentCheckpoint.get_unprocessed_deals cp deals)
  /\ (forall d, d ∈ deals ->
        key_truthy (EnrichmentCheckpoint.extract_deal_id d) = true ->
        (d ∈ EnrichmentCheckpoint.get_unprocessed_deals cp deals
         <-> EnrichmentCheckpoint.extract_deal_id d
               ∉ EnrichmentCheckpoint.processed_deal_ids cp)).
Proof.
  rewrite get_unprocessed_deals_filter. split; [reflexivity|]. split.
  - intros d Hd Hk. apply list_elem_of_filter. split; [|exact Hd].
    unfold EnrichmentCheckpoint.unprocessed. rewrite Hk. discriminate.
  - intros d Hd Hk. rewrite list_elem_of_filter. unfold EnrichmentCheckpoint.unprocessed. split.
    + intros [Hu _]. apply Hu. exact Hk.
    + intros Hn. split; [intros _; exact Hn|exact Hd].
Qed.

End CheckpointFacts.

(** ** Incremental multi-sink exporter *)

Module ExporterFacts.
Import IncrementalExporter.

Lemma try_except_ret_total {S : Type} (body : M S unit) (s : S) :
  fst (try_except body (fun _ => ret tt) s) = Ok tt.
Proof.
  unfold try_except, ret. destruct (body s) as [[[]|e] s']; reflexivity.
Qed.

Section Sinks.

Variable json_dumps : json -> string.
Variable py_repr : json -> string.
Variable io_ok : nat -> bool.

Lemma sheet_side_ret {A : Type} (a : A) : sheet_side (ret a).
Proof. intros s. simpl. repeat split. exists []. rewrite app_nil_r. reflexivity. Qed.

Lemma sheet_side_raise {A : Type} (e : exn) : sheet_side (@raise exporter A e).
Proof. intros s. simpl. repeat split. exists []. rewrite app_nil_r. reflexivity. Qed.

Lemma sheet_side_get : sheet_side (@get exporter).
Proof. intros s. simpl. repeat split. exists []. rewrite app_nil_r. reflexivity. Qed.

Lemma sheet_side_io (c : io_call) : sheet_side (io io_ok c).
Proof. intros s. simpl. repeat split. eexists. reflexivity. Qed.

Lemma sheet_side_bind {A B : Type} (m : M exporter A) (k : A -> M exporter B) :
  sheet_side m -> (forall a, sheet_side (k a)) -> sheet_side (bind m k).
Proof.
  intros Hm Hk s. unfold bind. specialize (Hm s).
  destruct (m s) as [[a|e] s1]; simpl in *.
  - specialize (Hk a s1). destruct Hm as (H1 & H2 & H3 & H4 & H6 & [r1 H5]).
    destruct Hk as (K1 & K2 & K3 & K4 & K6 & [r2 K5]).
    repeat split; try congruence.
    exists (r1 ++ r2). rewrite K5, H5, app_assoc. reflexivity.
  - exact Hm.
Qed.

Lemma sheet_side_try {A : Type} (m : M exporter A) (h : exn -> M exporter A) :
  sheet_side m -> (forall e, sheet_side (h e)) -> sheet_side (try_except m h).
Proof.
  intros Hm Hh s. unfold try_except. specialize (Hm s).
  destruct (m s) as [[a|e] s1]; simpl in *.
  - exact Hm.
  - specialize (Hh e s1). destruct Hm as (H1 & H2 & H3 & H4 & H6 & [r1 H5]).
    destruct Hh as (K1 & K2 & K3 & K4 & K6 & [r2 K5]).
    repeat split; try congruence.
    exists (r1 ++ r2). rewrite K5, H5, app_assoc. reflexivity.
Qed.

Lemma sheet_side_modify (f : exporter -> exporter) :
  (forall s, jsonl_file (f s) = jsonl_file s /\ tsv_file (f s) = tsv_file s
             /\ tsv_header_written (f s) = tsv_header_written s
             /\ tsv_columns (f s) = tsv_columns s
             /\ deal_id_to_row (f s) = deal_id_to_row s
             /\ io_log (f s) = io_log s) ->
  sheet_side (modify f).
Proof.
  intros Hf s. simpl. destruct (Hf s) as (-> & -> & -> & -> & -> & ->).
  repeat split. exists []. rewrite app_nil_r. reflexivity.
Qed.

Ltac sheet_side_step :=
  first
    [ apply sheet_side_bind; [|intros ?]
    | apply sheet_side_try; [|intros ?]
    | apply sheet_side_ret
    | apply sheet_side_raise
    | apply sheet_side_get
    | apply sheet_side_io
    | apply sheet_side_modify; intros ?; simpl; repeat split; reflexivity
    | match goal with
      | |- sheet_side (if ?b then _ else _) => destruct b
      | |- sheet_side (match ?x with _ => _ end) => destruct x
      end ].

Lemma sheet_side_get_all_values : sheet_side (get_all_values io_ok).
Proof. unfold get_all_values. repeat sheet_side_step. Qed.

Lemma sheet_side_expand_columns (a b : nat) : sheet_side (expand_columns io_ok a b).
Proof. unfold expand_columns, on_worksheet. repeat sheet_side_step. Qed.

Lemma sheet_side_update_header (h : list string) : sheet_side (update_header io_ok h).
Proof. unfold update_header, on_worksheet. repeat sheet_side_step. Qed.

Lemma sheet_side_update_sheet_row (r : nat) (vals : list json) :
  sheet_side (update_sheet_row io_ok r vals).
Proof. unfold update_sheet_row, on_worksheet. repeat sheet_side_step. Qed.

Lemma sheet_side_reconcile_header (h : list string) :
  sheet_side (reconcile_header io_ok h).
Proof.
  unfold reconcile_header.
  repeat first
    [ apply sheet_side_get_all_values
    | apply sheet_side_expand_columns
    | apply sheet_side_update_header
    | sheet_side_step ].
Qed.

Lemma sheet_side_header_column_count (h : list string) :
  sheet_side (header_column_count io_ok h).
Proof.
  unfold header_column_count.
  repeat first [ apply sheet_side_get_all_values | sheet_side_step ].
Qed.

Lemma sheet_side_append_to_sheets (deal_dict : list (string * json)) :
  sheet_side (_append_to_sheets json_dumps py_repr io_ok deal_dict).
Proof.
  unfold _append_to_sheets.
  repeat first
    [ apply sheet_side_reconcile_header
    | apply sheet_side_header_column_count
    | apply sheet_side_update_sheet_row
    | sheet_side_step ].
Qed.

Lemma append_to_sheets_never_raises (deal_dict : list (string * json))
    (s : exporter) :
  fst (_append_to_sheets json_dumps py_repr io_ok deal_dict s) = Ok tt.
Proof.
  unfold _append_to_sheets, bind, get.
  destruct (worksheet s); [apply try_except_ret_total|reflexivity].
Qed.

(** What the append-log step does: one logged write, and the record's line
    added when that write succeeds. *)
Lemma append_jsonl_effect (deal_dict : list (string * json)) (s : exporter) :
  _append_jsonl io_ok deal_dict s
  = (Ok tt,
     if io_ok (length (io_log s))
     then set_jsonl_file (jsonl_file s ++ [JDict deal_dict])
            (set_io_log (io_log s ++ [(WriteJsonl, true)]) s)
     else set_io_log (io_log s ++ [(WriteJsonl, false)]) s).
Proof.
  unfold _append_jsonl, try_except, bind, io, modify, ret.
  destruct (io_ok (length (io_log s))); reflexivity.
Qed.

(** What the tabular step does besides the file itself: it does not raise,
    leaves the append log alone, and logs exactly one write. *)
Lemma append_tsv_effect (deal_dict : list (string * json)) (s : exporter) :
  fst (_append_tsv json_dumps io_ok deal_dict s) = Ok tt
  /\ jsonl_file (snd (_append_tsv json_dumps io_ok deal_dict s)) = jsonl_file s
  /\ io_log (snd (_append_tsv json_dumps io_ok deal_dict s))
     = io_log s ++ [(WriteTsv, io_ok (length (io_log s)))].
Proof.
  unfold _append_tsv, try_except, bind, get, io, modify, ret.
  destruct (tsv_header_written s); simpl;
    destruct (io_ok (length (io_log s))); simpl; auto.
Qed.

(** [export_deal] is its three steps in sequence, the third one only when
    a worksheet is attached. *)
Lemma export_deal_steps (deal_dict : list (string * json)) (self : exporter) :
  export_deal json_dumps py_repr io_ok deal_dict self
  = let s1 := snd (_append_jsonl io_ok deal_dict self) in
    let s2 := snd (_append_tsv json_dumps io_ok deal_dict s1) in
    match worksheet s2 with
    | Some _ => _append_to_sheets json_dumps py_repr io_ok deal_dict s2
    | None => (Ok tt, s2)
    end.
Proof.
  unfold export_deal, bind. rewrite append_jsonl_effect. simpl.
  match goal with |- context [_append_tsv _ _ _ ?s] => set (s1 := s) end.
  destruct (append_tsv_effect deal_dict s1) as (Hr & _ & _).
  destruct (_append_tsv json_dumps io_ok deal_dict s1) as [r2 s2].
  simpl in *. subst r2. unfold get. simpl. destruct (worksheet s2); reflexivity.
Qed.

Lemma export_deal_never_raises (deal_dict : list (string * json))
    (self : exporter) :
  fst (export_deal json_dumps py_repr io_ok deal_dict self) = Ok tt.
Proof.
  rewrite export_deal_steps. cbv zeta.
  destruct (worksheet _); [apply append_to_sheets_never_raises|reflexivity].
Qed.

(** No export changes the row index, whatever the sinks do. *)
Lemma export_deal_keeps_index (deal_dict : list (string * json))
    (self : exporter) :
  deal_id_to_row (snd (export_deal json_dumps py_repr io_ok deal_dict self))
  = deal_id_to_row self.
Proof.
  rewrite export_deal_steps. cbv zeta.
  set (s1 := snd (_append_jsonl io_ok deal_dict self)).
  set (s2 := snd (_append_tsv json_dumps io_ok deal_dict s1)).
  assert (deal_id_to_row s1 = deal_id_to_row self) as H1.
  { subst s1. rewrite append_jsonl_effect.
    destruct (io_ok (length (io_log self))); reflexivity. }
  assert (deal_id_to_row s2 = deal_id_to_row s1) as H2.
  { subst s2. unfold _append_tsv, try_except, bind, get, io, modify, ret.
    destruct (tsv_header_written s1); simpl;
      destruct (io_ok (length (io_log s1))); reflexivity. }
  destruct (worksheet s2).
  - destruct (sheet_side_append_to_sheets deal_dict s2) as (_ & _ & _ & _ & K & _).
    congruence.
  - simpl. congruence.
Qed.

(** C6: [export_deal] returns without raising whatever the sinks do; it
    always attempts the append-log write and then the tabular write, before
    and independently of any spreadsheet call; the record's line is in the
    append log exactly when the append-log write itself succeeded, and the
    tabular file is what the tabular step left, whatever happens at the
    spreadsheet. *)
Theorem export_deal_isolates_sink_failures (deal_dict : list (string * json))
    (self : exporter) :
  let after_jsonl := snd (_append_jsonl io_ok deal_dict self) in
  let after_tsv := snd (_append_tsv json_dumps io_ok deal_dict after_jsonl) in
  let out := export_deal json_dumps py_repr io_ok deal_dict self in
  fst out = Ok tt
  /\ (exists rest,
        io_log (snd out)
        = io_log self
          ++ (WriteJsonl, io_ok (length (io_log self)))
          :: (WriteTsv, io_ok (S (length (io_log self)))) :: rest)
  /\ jsonl_file (snd out)
     = (if io_ok (length (io_log self))
        then jsonl_file self ++ [JDict deal_dict] else jsonl_file self)
  /\ tsv_file (snd out) = tsv_file after_tsv
  /\ tsv_columns (snd out) = tsv_columns after_tsv.
Proof.
  intros s1 s2 out. subst out. rewrite export_deal_steps. cbv zeta.
  fold s1. fold s2.
  assert (io_log s1 = io_log self ++ [(WriteJsonl, io_ok (length (io_log self)))]
          /\ jsonl_file s1
             = (if io_ok (length (io_log self))
                then jsonl_file self ++ [JDict deal_dict] else jsonl_file self))
    as [Hlog1 Hj1].
  { subst s1. rewrite append_jsonl_effect.
    destruct (io_ok (length (io_log self))); simpl; auto. }
  destruct (append_tsv_effect deal_dict s1) as (_ & Hj2 & Hlog2).
  fold s2 in Hj2, Hlog2.
  assert (length (io_log s1) = S (length (io_log self))) as Hlen.
  { rewrite Hlog1, length_app. simpl. lia. }
  destruct (worksheet s2) eqn:Ew.
  - pose proof (append_to_sheets_never_raises deal_dict s2) as Hok.
    destruct (sheet_side_append_to_sheets deal_dict s2)
      as (K1 & K2 & K3 & K4 & _ & [rest K5]).
    split; [exact Hok|].
    split; [|split; [rewrite K1, Hj2; exact Hj1|split; assumption]].
    exists rest. rewrite K5, Hlog2, Hlen, Hlog1, <- !app_assoc. reflexivity.
  - simpl. split; [reflexivity|].
    split; [|split; [rewrite Hj2; exact Hj1|split; reflexivity]].
    exists []. rewrite Hlog2, Hlen, Hlog1, <- !app_assoc. reflexivity.
Qed.

End Sinks.

Section Tabular.

Variable json_dumps : json -> string.

(** Every sink call succeeds. *)
Let always (n : nat) : bool := true.

Lemma dict_set_nonempty {V : Type} (d : list (string * V)) (k : string) (v : V) :
  map fst (dict_set d k v) <> [].
Proof.
  destruct d as [|[k' v'] d]; simpl; [discriminate|].
  destruct (String.eqb k' k); discriminate.
Qed.

(** A flattened record always has a column: [raw_deal_data] at least. *)
Lemma flattened_record_columns (deal_dict : list (string * json)) :
  exists c cs, map fst (flattened_record json_dumps deal_dict) = c :: cs.
Proof.
  unfold flattened_record. case_bool_decide as Hin; simpl.
  - destruct (map fst (flatten_dict json_dumps deal_dict "" "_" ["raw_deal_data"]))
      as [|c cs] eqn:E; [|eauto]. inversion Hin.
  - pose proof (dict_set_nonempty
                  (flatten_dict json_dumps deal_dict "" "_" ["raw_deal_data"])
                  "raw_deal_data"
                  (JStr (json_dumps (default (JDict [])
                                             (assoc_get deal_dict "raw_deal_data")))))
      as Hne.
    destruct (map fst (dict_set _ _ _)) as [|c cs]; [contradiction|eauto].
Qed.

(** The first write of a run creates the file and fixes the columns. *)
Lemma append_tsv_first (deal_dict : list (string * json)) (s : exporter) :
  tsv_header_written s = false ->
  let s' := snd (_append_tsv json_dumps always deal_dict s) in
  tsv_header_written s' = true
  /\ tsv_columns s' = Some (map fst (flattened_record json_dumps deal_dict))
  /\ tsv_file s'
     = Some [map fst (flattened_record json_dumps deal_dict);
             map (fun p => cell_text (snd p)) (flattened_record json_dumps deal_dict)].
Proof.
  intros H. unfold _append_tsv, try_except, bind, get, io, modify, ret. simpl.
  rewrite H. simpl. auto.
Qed.

(** A later write appends the record reindexed to the fixed columns. *)
Lemma append_tsv_later (deal_dict : list (string * json)) (s : exporter)
    (c : string) (cs : list string) (lines : list (list string)) :
  tsv_header_written s = true -> tsv_columns s = Some (c :: cs) ->
  tsv_file s = Some lines ->
  let s' := snd (_append_tsv json_dumps always deal_dict s) in
  tsv_header_written s' = true
  /\ tsv_columns s' = Some (c :: cs)
  /\ tsv_file s'
     = Some (lines ++ [reindex_row (c :: cs) (flattened_record json_dumps deal_dict)]).
Proof.
  intros H1 H2 H3. unfold _append_tsv, try_except, bind, get, io, modify, ret.
  simpl. rewrite H1, H2. simpl. rewrite H1, H2, H3. auto.
Qed.

Lemma append_tsv_never_raises (deal_dict : list (string * json)) (s : exporter) :
  fst (_append_tsv json_dumps always deal_dict s) = Ok tt.
Proof. apply try_except_ret_total. Qed.

Lemma append_tsv_all_later (records : list (list (string * json))) (s : exporter)
    (c : string) (cs : list string) (lines : list (list string)) :
  tsv_header_written s = true -> tsv_columns s = Some (c :: cs) ->
  tsv_file s = Some lines ->
  let s' := snd (for_each (_append_tsv json_dumps always) records s) in
  tsv_columns s' = Some (c :: cs)
  /\ tsv_file s'
     = Some (lines ++ map (fun r => reindex_row (c :: cs)
                                      (flattened_record json_dumps r)) records).
Proof.
  revert s lines. induction records as [|r records IH]; intros s lines H1 H2 H3.
  - simpl. rewrite app_nil_r. auto.
  - simpl. unfold bind.
    pose proof (append_tsv_never_raises r s) as Hok.
    destruct (append_tsv_later r s c cs lines H1 H2 H3) as (K1 & K2 & K3).
    destruct (_append_tsv json_dumps always r s) as [res s1]. simpl in *.
    subst res. destruct (IH s1 _ K1 K2 K3) as [L1 L2].
    split; [exact L1|]. rewrite L2, <- app_assoc. reflexivity.
Qed.

(** C7: the columns of the tabular file are those of the first record
    written in a fresh run, or the header line read back from the file
    when resuming; every later record is written reindexed to those
    columns, a missing field as an empty cell and a field outside the
    columns not at all, so every line has exactly those columns. *)
Theorem tsv_columns_fixed_by_first_record
    (first : list (string * json)) (later : list (list (string * json)))
    (jsonl : list json) :
  let columns := map fst (flattened_record json_dumps first) in
  let fresh := snd (__init__ always None NoSpreadsheet (on_disk jsonl None)) in
  let written :=
    snd (for_each (_append_tsv json_dumps always) (first :: later) fresh) in
  tsv_columns written = Some columns
  /\ tsv_file written
     = Some (columns
             :: map (fun p => cell_text (snd p)) (flattened_record json_dumps first)
             :: map (fun r => reindex_row columns (flattened_record json_dumps r))
                    later)
  /\ (forall r, length (reindex_row columns (flattened_record json_dumps r))
                = length columns)
  /\ (forall (c : string) (cs : list string) (lines : list (list string))
             (records : list (list (string * json))),
        let resumed :=
          snd (__init__ always None NoSpreadsheet
                        (on_disk jsonl (Some ((c :: cs) :: lines)))) in
        let appended :=
          snd (for_each (_append_tsv json_dumps always) records resumed) in
        tsv_columns resumed = Some (c :: cs)
        /\ tsv_columns appended = Some (c :: cs)
        /\ tsv_file appended
           = Some (((c :: cs) :: lines)
                   ++ map (fun r => reindex_row (c :: cs)
                                      (flattened_record json_dumps r)) records)).
Proof.
  intros columns fresh written.
  destruct (flattened_record_columns first) as [c [cs Hcols]].
  assert (tsv_header_written fresh = false) as Hfresh by reflexivity.
  split; [|split; [|split]].
  - subst written. simpl. unfold bind at 1.
    pose proof (append_tsv_never_raises first fresh) as Hok.
    destruct (append_tsv_first first fresh Hfresh) as (K1 & K2 & K3).
    destruct (_append_tsv json_dumps always first fresh) as [res s1].
    simpl in *. subst res. rewrite Hcols in K2.
    destruct (append_tsv_all_later later s1 c cs _ K1 K2 K3) as [L1 _].
    subst columns. rewrite Hcols. exact L1.
  - subst written. simpl. unfold bind at 1.
    pose proof (append_tsv_never_raises first fresh) as Hok.
    destruct (append_tsv_first first fresh Hfresh) as (K1 & K2 & K3).
    destruct (_append_tsv json_dumps always first fresh) as [res s1].
    simpl in *. subst res. rewrite Hcols in K2.
    destruct (append_tsv_all_later later s1 c cs _ K1 K2 K3) as [_ L2].
    rewrite L2. subst columns. rewrite Hcols. reflexivity.
  - intros r. unfold reindex_row. rewrite length_map. reflexivity.
  - intros c' cs' lines records resumed appended.
    assert (tsv_header_written resumed = true
            /\ tsv_columns resumed = Some (c' :: cs')
            /\ tsv_file resumed = Some ((c' :: cs') :: lines)) as (R1 & R2 & R3).
    { subst resumed. repeat split. }
    split; [exact R2|].
    exact (append_tsv_all_later records resumed c' cs' _ R1 R2 R3).
Qed.

End Tabular.

Section Reconciliation.

Variable json_dumps : json -> string.
Variable py_repr : json -> string.
Variable io_ok : nat -> bool.

(** Every sink call succeeds. *)
Let always (n : nat) : bool := true.

Lemma update_row_length (r : nat) (vals : list json) (ws : Worksheet) :
  length (ws_values (update_row r vals ws)) = Nat.max (length (ws_values ws)) r.
Proof.
  unfold update_row. simpl. rewrite length_alter, length_app, length_replicate. lia.
Qed.

(** Writing row [r] leaves every other row as it was. *)
Lemma update_row_other (r j : nat) (vals : list json) (ws : Worksheet) :
  j <> (r - 1)%nat ->
  ws_values (update_row r vals ws) !! j
  = (ws_values ws ++ replicate (r - length (ws_values ws)) []) !! j.
Proof.
  intros Hj. unfold update_row. simpl. rewrite list_lookup_alter_ne; [reflexivity|].
  intros Heq. apply Hj. symmetry. exact Heq.
Qed.

Lemma update_header_keeps_data (vals : list json) (ws : Worksheet) :
  drop 1 (ws_values (update_row 1 vals ws)) = drop 1 (ws_values ws).
Proof.
  unfold update_row. simpl. destruct (ws_values ws) as [|row rows]; simpl.
  - reflexivity.
  - rewrite app_nil_r. reflexivity.
Qed.

Lemma keeps_rows_ret {A : Type} (a : A) : keeps_rows (ret a).
Proof. intros s ws H. exists a, s, ws. auto. Qed.

Lemma keeps_rows_get : keeps_rows (@get exporter).
Proof. intros s ws H. exists s, s, ws. auto. Qed.

Lemma keeps_rows_io (c : io_call) : keeps_rows (io always c).
Proof. intros s ws H. eexists tt, _, ws. split; [reflexivity|]. simpl. auto. Qed.

Lemma keeps_rows_bind {A B : Type} (m : M exporter A) (k : A -> M exporter B) :
  keeps_rows m -> (forall a, keeps_rows (k a)) -> keeps_rows (bind m k).
Proof.
  intros Hm Hk s ws H. unfold bind.
  destruct (Hm s ws H) as (a & s1 & ws1 & -> & H1 & H2 & H3 & H4).
  destruct (Hk a s1 ws1 H1) as (b & s2 & ws2 & -> & K1 & K2 & K3 & K4).
  exists b, s2, ws2. repeat split; congruence.
Qed.

Lemma keeps_rows_try {A : Type} (m : M exporter A) (h : exn -> M exporter A) :
  keeps_rows m -> keeps_rows (try_except m h).
Proof.
  intros Hm s ws H. unfold try_except.
  destruct (Hm s ws H) as (a & s1 & ws1 & -> & H1 & H2 & H3 & H4).
  exists a, s1, ws1. auto.
Qed.

Lemma keeps_rows_modify (f : exporter -> exporter) :
  (forall s, worksheet (f s) = worksheet s
             /\ deal_id_to_row (f s) = deal_id_to_row s
             /\ sheets_next_row (f s) = sheets_next_row s) ->
  keeps_rows (modify f).
Proof.
  intros Hf s ws H. destruct (Hf s) as (F1 & F2 & F3).
  exists tt, (f s), ws. repeat split; congruence.
Qed.

Lemma keeps_rows_get_all_values : keeps_rows (get_all_values always).
Proof.
  intros s ws H. unfold get_all_values, bind, get, io, ret. rewrite H. simpl.
  eexists _, _, ws. split; [reflexivity|]. simpl. auto.
Qed.

Lemma keeps_rows_expand_columns (a b : nat) : keeps_rows (expand_columns always a b).
Proof.
  intros s ws H.
  unfold expand_columns, try_except, bind, get, io, ret, on_worksheet, modify.
  rewrite H. destruct (col_count ws <? Nat.max (Nat.max a (col_count ws)) b)%nat.
  - simpl. eexists tt, _, _. split; [reflexivity|]. simpl. rewrite H. simpl. auto.
  - exists tt, s, ws. auto.
Qed.

Lemma keeps_rows_update_header (h : list string) : keeps_rows (update_header always h).
Proof.
  intros s ws H. unfold update_header, bind, io, on_worksheet, modify. simpl.
  eexists tt, _, _. split; [reflexivity|]. simpl. rewrite H. simpl.
  split; [reflexivity|]. split; [apply update_header_keeps_data|auto].
Qed.

Ltac keeps_rows_step :=
  first
    [ apply keeps_rows_get_all_values
    | apply keeps_rows_expand_columns
    | apply keeps_rows_update_header
    | apply keeps_rows_bind; [|intros ?]
    | apply keeps_rows_ret
    | apply keeps_rows_get
    | apply keeps_rows_io
    | apply keeps_rows_modify; intros ?; simpl; repeat split; reflexivity
    | match goal with
      | |- keeps_rows (if ?b then _ else _) => destruct b
      | |- keeps_rows (match ?x with _ => _ end) => destruct x
      end ].

Lemma keeps_rows_reconcile_header (h : list string) :
  keeps_rows (reconcile_header always h).
Proof. unfold reconcile_header. repeat keeps_rows_step. Qed.

Lemma keeps_rows_header_column_count (h : list string) :
  keeps_rows (header_column_count always h).
Proof. unfold header_column_count. repeat keeps_rows_step. Qed.

(** The row an export is aimed at depends on the index only. *)
Lemma lookup_target_row_index (s s' : exporter) (d : list (string * json)) :
  deal_id_to_row s' = deal_id_to_row s ->
  lookup_target_row py_repr s' d = lookup_target_row py_repr s d.
Proof. intros H. unfold lookup_target_row. rewrite H. reflexivity. Qed.

(** One export to an attached worksheet when every sink call succeeds: the
    header steps leave a state [s2] with worksheet [ws2], then one row is
    written. *)
Lemma append_to_sheets_run (deal_dict : list (string * json))
    (self : exporter) (ws : Worksheet) :
  worksheet self = Some ws ->
  sheets_next_row self <> 0%nat ->
  exists s2 ws2 row_values,
    worksheet s2 = Some ws2
    /\ drop 1 (ws_values ws2) = drop 1 (ws_values ws)
    /\ deal_id_to_row s2 = deal_id_to_row self
    /\ sheets_next_row s2 = sheets_next_row self
    /\ snd (_append_to_sheets json_dumps py_repr always deal_dict self)
       = match lookup_target_row py_repr self deal_dict with
         | Some (S r) =>
             set_worksheet (Some (update_row (S r) row_values ws2))
               (set_io_log (io_log s2 ++ [(UpdateRow (S r), true)]) s2)
         | _ =>
             set_sheets_next_row (S (sheets_next_row self))
               (set_worksheet
                  (Some (update_row (sheets_next_row self) row_values ws2))
                  (set_io_log
                     (io_log s2 ++ [(UpdateRow (sheets_next_row self), true)])
                     s2))
         end.
Proof.
  intros Hws Hnext.
  set (flattened := flattened_record json_dumps deal_dict).
  set (header := map fst flattened).
  destruct (keeps_rows_reconcile_header header self ws Hws)
    as ([] & s1 & ws1 & E1 & H1 & H2 & H3 & H4).
  destruct (keeps_rows_header_column_count header s1 ws1 H1)
    as (n & s2 & ws2 & E2 & K1 & K2 & K3 & K4).
  exists s2, ws2,
    (fit_row n (map (fun p : string * json => prepare_cell (snd p)) flattened)).
  split; [exact K1|]. split; [congruence|]. split; [congruence|].
  split; [congruence|].
  unfold _append_to_sheets, bind, get, try_except. rewrite Hws.
  fold flattened. fold header. rewrite E1, E2.
  rewrite (lookup_target_row_index self s2) by congruence.
  assert (forall r vals, r <> 0%nat ->
            update_sheet_row always r vals s2
            = (Ok tt, set_worksheet (Some (update_row r vals ws2))
                        (set_io_log (io_log s2 ++ [(UpdateRow r, true)]) s2)))
    as Hupd.
  { intros r vals Hr. unfold update_sheet_row, bind, io, on_worksheet, modify.
    simpl. destruct r as [|r]; [contradiction|]. simpl. rewrite K1. reflexivity. }
  assert (sheets_next_row s2 = sheets_next_row self) as Hn by congruence.
  destruct (lookup_target_row py_repr self deal_dict) as [[|r]|] eqn:Et.
  - rewrite Hupd by congruence. simpl. rewrite Hn, Nat.add_1_r. reflexivity.
  - rewrite Hupd by discriminate. reflexivity.
  - rewrite Hupd by congruence. simpl. rewrite Hn, Nat.add_1_r. reflexivity.
Qed.

(** C2, as the code has it: no export changes the Unit-Key index, which is
    built once from the rows found at start-up, whatever the sinks do. When
    every sink call succeeds, a record whose key is in the index is written
    over that exact row and the row cursor stays; any other record is
    written at the row cursor, which then advances by one, and the index is
    not extended. In both cases the data rows outside the written one are
    left alone. *)
Theorem append_to_sheets_row_choice (deal_dict : list (string * json))
    (self : exporter) (ws : Worksheet) :
  worksheet self = Some ws ->
  sheets_next_row self <> 0%nat ->
  let out := snd (_append_to_sheets json_dumps py_repr always deal_dict self) in
  deal_id_to_row (snd (export_deal json_dumps py_repr io_ok deal_dict self))
  = deal_id_to_row self
  /\ deal_id_to_row out = deal_id_to_row self
  /\ exists ws1 row_values,
       drop 1 (ws_values ws1) = drop 1 (ws_values ws)
       /\ match lookup_target_row py_repr self deal_dict with
          | Some (S r) =>
              worksheet out = Some (update_row (S r) row_values ws1)
              /\ sheets_next_row out = sheets_next_row self
          | _ =>
              worksheet out
              = Some (update_row (sheets_next_row self) row_values ws1)
              /\ sheets_next_row out = S (sheets_next_row self)
          end.
Proof.
  intros Hws Hnext out. subst out.
  split; [apply export_deal_keeps_index|].
  destruct (append_to_sheets_run deal_dict self ws Hws Hnext)
    as (s2 & ws2 & vals & K1 & K2 & K3 & K4 & ->).
  split.
  - destruct (lookup_target_row py_repr self deal_dict) as [[|r]|]; exact K3.
  - exists ws2, vals. split; [exact K2|].
    destruct (lookup_target_row py_repr self deal_dict) as [[|r]|]; simpl; auto.
Qed.

End Reconciliation.

(** C2 fails as stated: on a worksheet that holds one row, for deal Z, the
    record of deal A is exported twice. A is not in the index, the first
    export writes row 3, the index is not extended, and the second export
    writes row 4: the key A occupies two rows. *)
Lemma repeat_export_of_new_key_adds_a_row :
  let always := fun _ : nat => true in
  let dumps := fun _ : json => "" in
  let s0 :=
    snd (__init__ always (Some "sheet")
                  (Spreadsheet (Some Inputs.sheet_with_one_row))
                  (on_disk [] None)) in
  let s1 := snd (export_deal dumps dumps always Inputs.record_five s0) in
  let s2 := snd (export_deal dumps dumps always Inputs.record_five s1) in
  deal_id_to_row s0 = {[ "Z" := 2%nat ]}
  /\ deal_id_to_row s2 = {[ "Z" := 2%nat ]}
  /\ (ws_values <$> worksheet s2)
     = Some [["deal_id"; "deal_name"; "source"; "floor_price"; "raw_deal_data"];
             ["Z"; "old"; "BidSwitch"; "1"; ""];
             ["A"; "first"; "BidSwitch"; "2"; ""];
             ["A"; "first"; "BidSwitch"; "2"; ""]]
  /\ ~ (length (filter (fun row : list string => row !! 0%nat = Some "A")
                       (default [] (ws_values <$> worksheet s2))) <= 1)%nat.
Proof.
  split; [vm_compute; reflexivity|].
  split; [vm_compute; reflexivity|].
  split; [vm_compute; reflexivity|].
  vm_compute. lia.
Qed.

Lemma append_to_sheets_row_choice_witness :
  let always := fun _ : nat => true in
  let dumps := fun _ : json => "" in
  let s0 :=
    snd (__init__ always (Some "sheet")
                  (Spreadsheet (Some Inputs.sheet_with_one_row))
                  (on_disk [] None)) in
  deal_id_to_row (snd (_append_to_sheets dumps dumps always Inputs.record_z s0))
  = deal_id_to_row s0.
Proof.
  intros always dumps s0.
  refine (proj1 (proj2 (append_to_sheets_row_choice dumps dumps always
                          Inputs.record_z s0
                          (mk_worksheet (ws_values Inputs.sheet_with_one_row)
                                        50 1000) _ _))).
  - reflexivity.
  - vm_compute. discriminate.
Defined.

(** An indexed key is overwritten in place: exporting deal Z on the same
    worksheet rewrites row 2 and adds no row. *)
Example export_of_indexed_key_overwrites :
  let always := fun _ : nat => true in
  let dumps := fun _ : json => "" in
  let s0 :=
    snd (__init__ always (Some "sheet")
                  (Spreadsheet (Some Inputs.sheet_with_one_row))
                  (on_disk [] None)) in
  let s1 := snd (export_deal dumps dumps always Inputs.record_z s0) in
  (ws_values <$> worksheet s1)
  = Some [["deal_id"; "deal_name"; "source"; "floor_price"; "raw_deal_data"];
          ["Z"; "renamed"; "BidSwitch"; "2"; ""]]
  /\ sheets_next_row s1 = 3%nat.
Proof. split; vm_compute; reflexivity. Qed.

(** The scenario of the specification: a record with five fields, then one
    with seven of which five are shared; the file keeps the five columns of
    the first record and the two extra fields of the second are absent. *)
Example tsv_five_then_seven_fields :
  let always := fun _ : nat => true in
  let dumps := fun _ : json => "" in
  let fresh := snd (__init__ always None NoSpreadsheet (on_disk [] None)) in
  tsv_file (snd (for_each (_append_tsv dumps always)
                          [Inputs.record_five; Inputs.record_seven] fresh))
  = Some [["deal_id"; "deal_name"; "source"; "floor_price"; "raw_deal_data"];
          ["A"; "first"; "BidSwitch"; "2"; ""];
          ["B"; "second"; "BidSwitch"; "3"; ""]].
Proof. vm_compute. reflexivity. Qed.

End ExporterFacts.

(** ** Batch processors *)

Module BatchFacts.

Lemma filter_none {A : Type} (P : A -> Prop) `{forall x, Decision (P x)}
    (l : list A) :
  (forall x, x ∈ l -> ~ P x) -> filter P l = [].
Proof.
  induction l as [|x l IH]; intros Hl; [reflexivity|].
  rewrite filter_cons_False by (apply Hl; left).
  apply IH. intros y Hy. apply Hl. right. exact Hy.
Qed.

Section EnrichBatch.
Import DealEnricher.

Variable enrich_deal : deal -> result (list (string * json)).
Variable progress_callback :
  option (Z -> Z -> list (string * json) -> result unit).
Variable now_iso : nat -> string.
Variable disk_ok : nat -> bool.
Variable json_dumps : json -> string.
Variable py_repr : json -> string.
Variable io_ok : nat -> bool.

(** C8: when every deal of the input carries a non-empty key that the
    loaded checkpoint already holds, an incremental run calls the transform
    for no deal and hands nothing to the exporter: the only thing it does is
    the final checkpoint flush, and it returns no enriched deal. *)
Theorem rerun_on_processed_input_processes_nothing (deals : list deal)
    (continue_on_error : bool) (f : backing_file) (output : option exporter_env) :
  (forall d, d ∈ deals ->
     key_truthy (EnrichmentCheckpoint.extract_deal_id d) = true
     /\ EnrichmentCheckpoint.extract_deal_id d
          ∈ EnrichmentCheckpoint.processed_deal_ids
              (snd (EnrichmentCheckpoint.__init__ f))) ->
  let out :=
    enrich_batch enrich_deal progress_callback now_iso disk_ok json_dumps
      py_repr io_ok deals continue_on_error true (Some f) output start in
  (forall ev, ev ∈ trace (snd out) -> ev = EvSave)
  /\ enriched (snd out) = []
  /\ (forall r, fst out = Ok r -> r = []).
Proof.
  intros Hall out. subst out.
  assert (EnrichmentCheckpoint.get_unprocessed_deals
            (snd (EnrichmentCheckpoint.__init__ f)) deals = []) as Hnone.
  { rewrite CheckpointFacts.get_unprocessed_deals_filter. apply filter_none.
    intros d Hd Hu. destruct (Hall d Hd) as [Ht Hin]. exact (Hu Ht Hin). }
  pose proof (CheckpointFacts.enrichment_init_never_raises f) as Hinit.
  unfold enrich_batch.
  destruct (EnrichmentCheckpoint.__init__ f) as [r cp]. simpl in Hinit, Hnone.
  subst r. unfold bind at 1. unfold bind at 1. unfold bind at 1.
  unfold lift at 1. unfold bind at 1. unfold modify at 1. unfold ret at 1.
  rewrite Hnone.
  assert (forall b : batch,
            trace b = [] -> enriched b = [] -> checkpoint b = Some cp ->
            let out :=
              bind (for_each (enrich_one enrich_deal progress_callback now_iso
                                disk_ok json_dumps py_repr io_ok
                                continue_on_error true (len (@nil deal)))
                             (enumerate1 (@nil deal)))
                   (fun _ =>
                      bind get (fun b =>
                        bind (match checkpoint b with
                              | Some _ => save_checkpoint now_iso disk_ok
                              | None => ret tt
                              end)
                             (fun _ => bind get (fun b => ret (enriched b))))) b in
            (forall ev, ev ∈ trace (snd out) -> ev = EvSave)
            /\ enriched (snd out) = []
            /\ (forall r, fst out = Ok r -> r = [])) as Hloop.
  { intros b Ht He Hc. simpl. unfold bind, get, ret. simpl. rewrite Hc.
    unfold save_checkpoint, bind, get, log, modify, on_field. simpl. rewrite Hc.
    destruct (EnrichmentCheckpoint.save None _ _ cp) as [[[]|e] cp']; simpl;
      rewrite Ht, He; simpl.
    - split; [|split; [reflexivity|intros r Hr; inversion Hr; reflexivity]].
      intros ev Hev. apply list_elem_of_singleton in Hev. exact Hev.
    - split; [|split; [reflexivity|intros r Hr; discriminate]].
      intros ev Hev. apply list_elem_of_singleton in Hev. exact Hev. }
  destruct output as [env|].
  - destruct (IncrementalExporter.__init__ io_ok (env_google_sheets_id env)
                (env_remote env)
                (IncrementalExporter.on_disk (env_jsonl env) (env_tsv env)))
      as [[[]|e] ex].
    + unfold bind at 1. unfold bind at 1. unfold lift, modify, ret. simpl.
      apply Hloop; reflexivity.
    + unfold bind, lift. simpl.
      split; [intros ev Hev; inversion Hev|].
      split; [reflexivity|intros r Hr; discriminate].
  - unfold bind at 1. unfold ret at 1. unfold ret at 1.
    apply Hloop; reflexivity.
Qed.

(** In stage 1 a successfully transformed deal is marked in the checkpoint
    before its record is handed to the exporter (here away from a flush
    turn). *)
Lemma enrich_one_marks_before_export (b : batch)
    (cp : EnrichmentCheckpoint.checkpoint) (ex : IncrementalExporter.exporter)
    (continue_on_error : bool) (total idx : Z) (d : deal)
    (enriched_deal : list (string * json)) (k : key) :
  checkpoint b = Some cp -> exporter b = Some ex ->
  enrich_deal d = Ok enriched_deal -> attr_deal_id d = Ok k ->
  (idx mod 10 =? 0)%Z = false ->
  trace (snd (enrich_one enrich_deal progress_callback now_iso disk_ok
                json_dumps py_repr io_ok continue_on_error true total (idx, d) b))
  = trace b ++ [EvProcess idx; EvMark idx k; EvExport idx (JDict enriched_deal)].
Proof.
  intros Hcp Hex He Hk Hidx.
  pose proof (ExporterFacts.export_deal_never_raises json_dumps py_repr io_ok
                enriched_deal ex) as Hok.
  unfold enrich_one, try_except, bind, log, lift, modify, get, ret, on_field.
  simpl. rewrite He. simpl. rewrite Hcp. rewrite Hk. simpl. rewrite Hcp, Hidx.
  simpl. rewrite Hex. simpl. rewrite Hex.
  destruct (IncrementalExporter.export_deal json_dumps py_repr io_ok
              enriched_deal ex) as [r ex']. simpl in Hok. subst r.
  destruct progress_callback as [cb|]; simpl.
  - destruct (cb idx total enriched_deal) as [[]|e]; simpl; rewrite ?Hk; simpl;
      try destruct continue_on_error; simpl;
      rewrite <- !app_assoc; reflexivity.
  - rewrite <- !app_assoc. reflexivity.
Qed.

End EnrichBatch.

Section CreatePackages.
Import PackageCreator.

Context {Deal Exporter : Type}.
Variable _propose_packages_for_cluster : list Deal -> Z -> result (list json).
Variable export_package : json -> M Exporter unit.
Variable now_iso : nat -> string.
Variable disk_ok : nat -> bool.

(** Handing a list of packages to an exporter that accepts them logs one
    export per package, in order. *)
Lemma export_all_trace (cluster_idx : Z) (packages : list json) (s : run)
    (ex : Exporter) :
  (forall package e, fst (export_package package e) = Ok tt) ->
  incremental_exporter s = Some ex ->
  exists s',
    for_each (fun package =>
                bind (log (EvExport cluster_idx package))
                     (fun _ => on_field incremental_exporter
                                        set_incremental_exporter
                                        (export_package package)))
             packages s = (Ok tt, s')
    /\ trace s' = trace s ++ map (EvExport cluster_idx) packages
    /\ checkpoint s' = checkpoint s
    /\ all_proposals s' = all_proposals s
    /\ exists ex', incremental_exporter s' = Some ex'.
Proof.
  intros Hok. revert s ex. induction packages as [|p packages IH]; intros s ex Hex.
  - exists s. simpl. rewrite app_nil_r. eauto 6.
  - simpl. unfold bind at 1. unfold bind at 1. unfold log, modify, on_field.
    simpl. rewrite Hex. specialize (Hok p ex).
    destruct (export_package p ex) as [r ex1]. simpl in Hok. subst r.
    destruct (IH (set_incremental_exporter (Some ex1)
                    (set_trace (trace s ++ [EvExport cluster_idx p]) s)) ex1
                 eq_refl) as (s' & E & T & C & A & X).
    exists s'. split; [exact E|]. simpl in T, C, A.
    split; [rewrite T, <- app_assoc; reflexivity|]. auto.
Qed.

(** In stage 2 the packages proposed for a cluster are handed to the
    exporter before the cluster is marked in the checkpoint (here away from
    a flush turn). *)
Lemma process_cluster_exports_before_mark (deals cluster_deals : list Deal)
    (cluster_idx : Z) (cluster_deal_indices : list nat)
    (batch_proposals : list json) (s : run)
    (cp : PackageCreationCheckpoint.checkpoint) (ex : Exporter) :
  (forall package e, fst (export_package package e) = Ok tt) ->
  checkpoint s = Some cp -> incremental_exporter s = Some ex ->
  select_deals deals cluster_deal_indices = Ok cluster_deals ->
  _propose_packages_for_cluster cluster_deals cluster_idx = Ok batch_proposals ->
  (cluster_idx mod 5 =? 0)%Z = false ->
  trace (snd (process_cluster _propose_packages_for_cluster export_package
                now_iso disk_ok deals (cluster_idx, cluster_deal_indices) s))
  = trace s ++ [EvProcess cluster_idx]
    ++ map (EvExport cluster_idx) batch_proposals
    ++ [EvMark cluster_idx (KNum cluster_idx)].
Proof.
  intros Hok Hcp Hex Hsel Hprop Hidx.
  unfold process_cluster. simpl. unfold bind at 1. unfold lift at 1.
  rewrite Hsel. unfold bind at 1. unfold log at 1. unfold modify at 1.
  unfold bind at 1. unfold lift at 1. rewrite Hprop.
  set (s0 := set_trace (trace s ++ [EvProcess cluster_idx]) s).
  assert (incremental_exporter s0 = Some ex) as Hex0 by exact Hex.
  assert (checkpoint s0 = Some cp) as Hcp0 by exact Hcp.
  unfold bind at 1. unfold bind at 1. unfold get at 1. rewrite Hex0.
  assert (exists s1,
            match batch_proposals with
            | [] => ret tt
            | _ :: _ =>
                for_each
                  (fun package =>
                     bind (log (EvExport cluster_idx package))
                          (fun _ => on_field incremental_exporter
                                             set_incremental_exporter
                                             (export_package package)))
                  batch_proposals
            end s0 = (Ok tt, s1)
            /\ trace s1 = trace s0 ++ map (EvExport cluster_idx) batch_proposals
            /\ checkpoint s1 = Some cp) as (s1 & E1 & T1 & C1).
  { destruct batch_proposals as [|p ps].
    - exists s0. simpl. rewrite app_nil_r. auto.
    - destruct (export_all_trace cluster_idx (p :: ps) s0 ex Hok Hex0)
        as (s1 & E & T & C & _). exists s1. split; [exact E|].
      split; [exact T|congruence]. }
  rewrite E1. unfold bind at 1. unfold modify at 1.
  unfold bind at 1. unfold get at 1. simpl. rewrite C1.
  unfold bind, log, modify, on_field, ret. simpl. rewrite C1, Hidx. simpl.
  rewrite T1. subst s0. simpl. rewrite <- !app_assoc. reflexivity.
Qed.

End CreatePackages.

Lemma rerun_on_processed_input_processes_nothing_witness :
  DealEnricher.enriched
    (snd (DealEnricher.enrich_batch (fun _ => Raise ExternalError) None
            (fun _ => "now") (fun _ => true) (fun _ => "") (fun _ => "")
            (fun _ => true) [Inputs.deal_a] true true
            (Some Inputs.checkpoint_with_a) None DealEnricher.start))
  = [].
Proof.
  refine (proj1 (proj2 (rerun_on_processed_input_processes_nothing
           (fun _ => Raise ExternalError) None (fun _ => "now") (fun _ => true)
           (fun _ => "") (fun _ => "") (fun _ => true)
           [Inputs.deal_a] true Inputs.checkpoint_with_a None _))).
  intros d Hd. apply list_elem_of_singleton in Hd. subst d.
  split; [reflexivity|]. apply (bool_decide_unpack _). vm_compute. exact I.
Defined.

(** C3 (stage 1 marks before it exports): one deal A, transformed with
    success, in an incremental run with a checkpoint and an exporter. The
    loop of [enrich_batch] marks A in the checkpoint and only then hands the
    record to the exporter; the loop of [create_packages], on one cluster of
    five deals, hands the proposed package to the exporter and only then
    marks the cluster. *)
Theorem stage_one_marks_before_export :
  DealEnricher.trace
    (snd (DealEnricher.enrich_batch (fun _ => Ok Inputs.record_five) None
            (fun _ => "now") (fun _ => true) (fun _ => "") (fun _ => "")
            (fun _ => true) [Inputs.deal_a] true true
            (Some Missing) (Some Inputs.files_only) DealEnricher.start))
  = [EvProcess 1; EvMark 1 (KStr "A"); EvExport 1 (JDict Inputs.record_five);
     EvSave]
  /\ PackageCreator.trace
       (snd (PackageCreator.create_packages
               (fun n : nat => n)
               (fun _ _ _ => Raise ExternalError)
               (fun _ n => Ok (replicate n 0))
               (fun _ _ => Raise ExternalError)
               (fun _ _ => Raise ExternalError)
               (fun deals : list unit => Ok (length deals))
               (fun _ _ => Ok [Inputs.package_p])
               Inputs.keep_package
               (fun _ => "now") (fun _ => true)
               (PackageCreator.mk_creator 25 5 "kmeans" false)
               (replicate 5 tt)
               (PackageCreator.mk
                  (Some (snd (PackageCreationCheckpoint.__init__ Missing)))
                  (Some []) [] [])))
     = [EvProcess 1; EvExport 1 Inputs.package_p; EvMark 1 (KNum 1); EvSave].
Proof. split; vm_compute; reflexivity. Qed.


End BatchFacts.

(** * Further properties of the code *)

(** ** Partitioner: what the hard mode returns is a partition *)

Module PartitionFacts.
Import Clustering.

Lemma fold_left_invariant {A B : Type} (P : A -> Prop) (f : A -> B -> A)
    (l : list B) (acc : A) :
  P acc -> (forall a x, P a -> x ∈ l -> P (f a x)) -> P (fold_left f l acc).
Proof.
  revert acc. induction l as [|x l IH]; intros acc Hacc Hstep; simpl; [exact Hacc|].
  apply IH.
  - apply Hstep; [exact Hacc|left].
  - intros a y Ha Hy. apply Hstep; [exact Ha|right; exact Hy].
Qed.

Lemma append_to_label_members (label : Z) (idx : nat)
    (clusters : list (Z * list nat)) :
  Permutation (concat (map snd (append_to_label label idx clusters)))
              (concat (map snd clusters) ++ [idx]).
Proof.
  induction clusters as [|[l members] rest IH]; simpl; [reflexivity|].
  case_decide; simpl.
  - rewrite <- !app_assoc. apply Permutation_app_head. apply Permutation_app_comm.
  - rewrite IH, app_assoc. reflexivity.
Qed.

(** Grouping by label distributes the positions [0 .. n-1] of the label
    array over the groups, each position once. *)
Lemma group_by_label_members (cluster_labels : list Z) :
  Permutation (concat (map snd (group_by_label cluster_labels)))
              (seq 0 (length cluster_labels)).
Proof.
  unfold group_by_label, enumerate.
  induction cluster_labels as [|x l IH] using rev_ind; [reflexivity|].
  rewrite imap_app, fold_left_app. simpl.
  rewrite append_to_label_members, IH, length_app, Nat.add_0_r. simpl.
  rewrite Nat.add_1_r, seq_S. reflexivity.
Qed.

Lemma py_slice_take_drop {A : Type} (xs : list A) (lo n : nat) :
  py_slice xs (Z.of_nat lo) (Z.of_nat lo + Z.of_nat n) = take n (drop lo xs).
Proof.
  unfold py_slice, clamp_index. repeat case_decide; try lia.
  destruct (decide (length xs <= lo)%nat) as [Hge|Hlt].
  - rewrite !drop_ge by lia. rewrite !take_nil. reflexivity.
  - replace (Z.to_nat (Z.min (Z.of_nat lo) (Z.of_nat (length xs)))) with lo by lia.
    destruct (decide (lo + n <= length xs)%nat).
    + f_equal. lia.
    + rewrite !take_ge; [reflexivity| |]; rewrite length_drop; lia.
Qed.

Lemma chunks_prefix {A : Type} (xs : list A) (m cnt : nat) :
  concat (map (fun k => take m (drop (k * m) xs)) (seq 0 cnt)) = take (cnt * m) xs.
Proof.
  induction cnt as [|cnt IH]; [reflexivity|].
  rewrite seq_S, map_app, concat_app, IH. simpl. rewrite app_nil_r.
  rewrite take_take_drop. f_equal. lia.
Qed.

(** With a positive chunk size the chunks, put end to end, are the list. *)
Lemma chunks_concat (m : Z) (xs : list nat) (cs : list (list nat)) :
  0 < m -> chunks m xs = Ok cs -> concat cs = xs.
Proof.
  intros Hm H. unfold chunks, py_range in H. repeat case_decide; try lia.
  simpl in H. injection H as <-.
  set (cnt := Z.to_nat ((len xs - 0 + m - 1) / m)).
  rewrite map_map.
  rewrite (map_ext _ (fun k => take (Z.to_nat m) (drop (k * Z.to_nat m) xs))).
  - rewrite chunks_prefix. apply take_ge.
    assert (len xs <= Z.of_nat cnt * m); [|unfold len in *; nia].
    subst cnt. rewrite Z2Nat.id by (apply Z.div_pos; unfold len; lia).
    pose proof (Z.mul_succ_div_gt (len xs - 0 + m - 1) m Hm). lia.
  - intros k. rewrite <- (py_slice_take_drop xs (k * Z.to_nat m) (Z.to_nat m)).
    f_equal; lia.
Qed.

Lemma split_large_members (m : Z) (clusters : list (Z * list nat))
    (final : list (list nat)) :
  0 < m -> split_large m clusters = Ok final ->
  concat final = concat (map snd clusters).
Proof.
  intros Hm. unfold split_large.
  assert (forall acc,
            rfold (fun final_clusters entry =>
                     let deal_indices := snd entry in
                     if decide (len deal_indices <= m)
                     then Ok (final_clusters ++ [deal_indices])
                     else rbind (chunks m deal_indices)
                                (fun cs => Ok (final_clusters ++ cs)))
                  clusters acc = Ok final ->
            concat final = concat acc ++ concat (map snd clusters)) as Hgen.
  { induction clusters as [|[l xs] rest IH]; intros acc H; simpl in H.
    - injection H as <-. simpl. rewrite app_nil_r. reflexivity.
    - case_decide.
      + simpl in H. rewrite (IH _ H), concat_app. simpl.
        rewrite app_nil_r, app_assoc. reflexivity.
      + destruct (chunks m xs) as [cs|e] eqn:E; simpl in H; [|discriminate].
        rewrite (IH _ H), concat_app, (chunks_concat m xs cs Hm E). simpl.
        rewrite app_assoc. reflexivity. }
  intros H. apply (Hgen [] H).
Qed.

Lemma split_large_negative (m : Z) (clusters : list (Z * list nat))
    (final : list (list nat)) :
  m < 0 -> split_large m clusters = Ok final -> final = [].
Proof.
  intros Hm. unfold split_large.
  apply (rfold_invariant (fun r : list (list nat) => r = [])); [reflexivity|].
  intros acc [l xs] acc' -> H. simpl in H.
  case_decide; [unfold len in *; lia|].
  unfold chunks in H. rewrite py_range_neg_step in H by (unfold len; lia).
  simpl in H. injection H as <-. reflexivity.
Qed.

Lemma elem_of_concat {A : Type} (x : A) (l : list (list A)) :
  x ∈ concat l <-> exists c, x ∈ c /\ c ∈ l.
Proof.
  rewrite list_elem_of_In, in_concat. split.
  - intros (c & Hc & Hx). exists c. rewrite !list_elem_of_In. auto.
  - intros (c & Hx & Hc). exists c. rewrite <- !list_elem_of_In. auto.
Qed.

Lemma NoDup_concat_filter {A : Type} (P : list A -> Prop)
    `{forall c, Decision (P c)} (l : list (list A)) :
  NoDup (concat l) -> NoDup (concat (filter P l)).
Proof.
  induction l as [|c l IH]; intros Hnd; [constructor|].
  simpl in Hnd. apply NoDup_app in Hnd as (Hc & Hdisj & Hl).
  destruct (decide (P c)) as [Hp|Hp].
  - rewrite filter_cons_True by exact Hp. simpl. apply NoDup_app.
    split; [exact Hc|]. split; [|apply IH; exact Hl].
    intros x Hx Hin. apply (Hdisj x Hx).
    apply elem_of_concat in Hin as (c' & Hxc & Hc').
    apply elem_of_concat. exists c'. split; [exact Hxc|].
    apply list_elem_of_filter in Hc'. apply Hc'.
  - rewrite filter_cons_False by exact Hp. apply IH. exact Hl.
Qed.

Section Partitioner.

Context {Deal Embeddings : Type}.
Variable len_embeddings : Embeddings -> nat.
Variable gmm_fit_predict : Z -> string -> Embeddings -> result (list Z).
Variable kmeans_fit_predict : Z -> Embeddings -> result (list Z).
Variable gmm_bic : Z -> Embeddings -> result Q.

(** Hard mode returns disjoint clusters of valid positions: no sample index
    occurs twice in the returned clusters, and every index is a position of
    the label array the fitted model returned. *)
Theorem hard_mode_clusters_disjoint (deals : list Deal) (embeddings : Embeddings)
    (max_deals_per_cluster min_cluster_size : Z) (method : string)
    (n_components : option Z) (covariance_type : string)
    (clusters : list (list nat)) :
  cluster_deals_semantically len_embeddings gmm_fit_predict kmeans_fit_predict
    gmm_bic deals embeddings max_deals_per_cluster min_cluster_size method
    n_components covariance_type = Ok clusters ->
  NoDup (concat clusters)
  /\ (clusters = []
      \/ exists n_clusters cluster_labels,
           fit_labels len_embeddings gmm_fit_predict kmeans_fit_predict gmm_bic
             embeddings n_clusters method n_components covariance_type
           = Ok cluster_labels
           /\ forall i, i ∈ concat clusters -> (i < length cluster_labels)%nat).
Proof.
  unfold cluster_deals_semantically. intros H.
  case_decide; [injection H as <-; split; [constructor|left; reflexivity]|].
  destruct (target_components deals max_deals_per_cluster min_cluster_size)
    as [k|e] eqn:Ek; simpl in H; [|discriminate].
  destruct (fit_labels _ _ _ _ _ _ _ _ _) as [labels|e] eqn:El; simpl in H;
    [|discriminate].
  destruct (split_large _ _) as [final|e] eqn:E; simpl in H; [|discriminate].
  injection H as <-.
  assert (max_deals_per_cluster <> 0) as Hne.
  { intros ->. unfold target_components, floordiv in Ek. simpl in Ek. discriminate. }
  destruct (Z_lt_le_dec 0 max_deals_per_cluster) as [Hpos|Hneg].
  - pose proof (split_large_members _ _ _ Hpos E) as Hcat.
    pose proof (group_by_label_members labels) as Hperm.
    assert (NoDup (concat final)) as Hnd.
    { rewrite Hcat, Hperm. apply NoDup_seq. }
    split; [apply NoDup_concat_filter; exact Hnd|].
    right. exists k, labels. split; [exact El|].
    intros i Hi. unfold filter_tiny in Hi.
    apply elem_of_concat in Hi as (c & Hic & Hc).
    apply list_elem_of_filter in Hc as [_ Hc].
    assert (i ∈ concat final) as Hif.
    { apply elem_of_concat. exists c. auto. }
    rewrite Hcat, Hperm in Hif. apply elem_of_seq in Hif.
    destruct Hif as [_ Hif]. simpl in Hif. exact Hif.
  - assert (max_deals_per_cluster < 0) as Hlt by lia.
    rewrite (split_large_negative _ _ _ Hlt E).
    split; [constructor|left; reflexivity].
Qed.

(** The automatic choice of the number of components always returns, and
    what it returns is never below [min_components] and never above the
    larger of [min_components] and the capped [max_components], whatever
    the fits do. *)
Theorem select_optimal_components_range (embeddings : Embeddings)
    (max_components min_components : Z) :
  exists n,
    _select_optimal_components len_embeddings gmm_bic embeddings
      max_components min_components = Ok n
    /\ min_components <= n
    /\ n <= Z.max min_components
              (Z.min max_components (Z.of_nat (len_embeddings embeddings) / 2)).
Proof.
  unfold _select_optimal_components, py_range.
  set (cap := Z.min max_components (Z.of_nat (len_embeddings embeddings) / 2)).
  repeat case_decide; try lia. simpl. eexists. split; [reflexivity|].
  apply (fold_left_invariant
           (fun best : option Q * Z =>
              min_components <= snd best
              /\ snd best <= Z.max min_components cap)).
  - simpl. lia.
  - intros best n [Hlo Hhi] Hn.
    apply list_elem_of_In, in_map_iff in Hn as (k & <- & Hk).
    apply in_seq in Hk. rewrite Z.div_1_r in Hk.
    destruct (gmm_bic (min_components + Z.of_nat k * 1) embeddings) as [bic|e];
      [|auto].
    destruct (bic_lt bic (fst best)); [|auto]. simpl. lia.
Qed.

End Partitioner.

Lemma hard_mode_clusters_disjoint_witness :
  NoDup (concat [[0; 1; 2; 3; 4; 5; 6; 7]; [8; 9; 10; 11; 12; 13];
                 [14; 15; 16; 17; 18; 19]]%nat).
Proof.
  refine (proj1 (hard_mode_clusters_disjoint
                   (fun n : nat => n) (fun _ _ _ => Raise ExternalError)
                   MoreInputs.two_groups (fun _ _ => Raise ExternalError)
                   (replicate 20 tt) 20%nat 8 5 "kmeans" None "full" _ _)).
  vm_compute. reflexivity.
Defined.

Lemma hard_mode_bounds_witness :
  Forall (fun c : list nat => 5 <= len c <= 8)
         [[0; 1; 2; 3; 4; 5; 6; 7]; [8; 9; 10; 11; 12; 13];
          [14; 15; 16; 17; 18; 19]]%nat.
Proof.
  apply (ClusteringFacts.hard_mode_bounds
           (fun n : nat => n) (fun _ _ _ => Raise ExternalError)
           MoreInputs.two_groups (fun _ _ => Raise ExternalError)
           (replicate 20 tt) 20%nat 8 5 "kmeans" None "full").
  vm_compute. reflexivity.
Defined.

Lemma soft_mode_upper_bound_witness :
  Forall (fun c : list nat => len c <= 8)
         [[0; 1; 2; 3; 4; 5; 6; 7]; [8; 9]; [0; 1; 2; 3; 4; 5; 6; 7]; [8; 9]]%nat.
Proof.
  apply (ClusteringFacts.soft_mode_upper_bound
           (fun _ (_ : unit) => Ok Inputs.even_split)
           (replicate 10 tt) tt 8 5 (3 # 10)).
  vm_compute. reflexivity.
Defined.

End PartitionFacts.

(** ** Checkpoint store: marking, saving and loading *)

Module CheckpointMore.

(** Marking a usable key removes exactly the deals carrying that key from
    what [get_unprocessed_deals] returns; the other deals stay, in order. *)
Theorem mark_processed_removes_its_deals
    (cp : EnrichmentCheckpoint.checkpoint) (k : key) (deals : list deal) :
  key_truthy k = true ->
  EnrichmentCheckpoint.get_unprocessed_deals
    (EnrichmentCheckpoint.mark_processed k cp) deals
  = filter (fun d => EnrichmentCheckpoint.extract_deal_id d <> k)
           (EnrichmentCheckpoint.get_unprocessed_deals cp deals).
Proof.
  intros Hk. rewrite !CheckpointFacts.get_unprocessed_deals_filter.
  induction deals as [|d deals IH]; [reflexivity|].
  set (id := EnrichmentCheckpoint.extract_deal_id d).
  destruct (decide (EnrichmentCheckpoint.unprocessed cp d)) as [Hu|Hu].
  - rewrite (filter_cons_True (EnrichmentCheckpoint.unprocessed cp)) by exact Hu.
    destruct (decide (id = k)) as [Heq|Hne].
    + rewrite filter_cons_False, filter_cons_False; [exact IH| |].
      * intros Hn. apply Hn. exact Heq.
      * intros Hm. unfold EnrichmentCheckpoint.unprocessed in Hm. fold id in Hm.
        rewrite Heq in Hm. apply (Hm Hk). simpl. set_solver.
    + rewrite filter_cons_True, filter_cons_True; [f_equal; exact IH| |].
      * exact Hne.
      * unfold EnrichmentCheckpoint.unprocessed in *. fold id in Hu |- *.
        intros Ht. specialize (Hu Ht). simpl. set_solver.
  - rewrite (filter_cons_False (EnrichmentCheckpoint.unprocessed cp)) by exact Hu.
    rewrite filter_cons_False; [exact IH|].
    intros Hm. apply Hu. unfold EnrichmentCheckpoint.unprocessed in *.
    fold id in Hm |- *. intros Ht. specialize (Hm Ht). simpl in Hm. set_solver.
Qed.

Lemma mark_processed_removes_its_deals_witness :
  EnrichmentCheckpoint.get_unprocessed_deals
    (EnrichmentCheckpoint.mark_processed (KStr "A")
       (snd (EnrichmentCheckpoint.__init__ Missing)))
    [Inputs.deal_a; DealDict [("deal_id", KStr "B")]]
  = filter (fun d => EnrichmentCheckpoint.extract_deal_id d <> KStr "A")
           (EnrichmentCheckpoint.get_unprocessed_deals
              (snd (EnrichmentCheckpoint.__init__ Missing))
              [Inputs.deal_a; DealDict [("deal_id", KStr "B")]]).
Proof.
  apply (mark_processed_removes_its_deals
           (snd (EnrichmentCheckpoint.__init__ Missing)) (KStr "A")).
  reflexivity.
Defined.

Lemma insert_sorted_comparable (x : key) (l : list key) :
  comparable (x :: l) ->
  exists r, insert_sorted x l = Ok r /\ Permutation r (x :: l).
Proof.
  induction l as [|y l IH]; intros Hc; simpl.
  - exists [x]. split; reflexivity.
  - assert (exists b, key_lt x y = Ok b) as [b Hb].
    { destruct Hc as [Hc|Hc];
        destruct (Hc x ltac:(left)) as [? ->];
        destruct (Hc y ltac:(right; left)) as [? ->]; simpl; eauto. }
    rewrite Hb. destruct b; [eexists; split; reflexivity|].
    destruct IH as (r & -> & Hr).
    { destruct Hc as [Hc|Hc]; [left|right]; intros k Hk; apply Hc;
        apply elem_of_cons in Hk as [->|Hk]; [left|right; right; exact Hk
                                             |left|right; right; exact Hk]. }
    eexists. split; [reflexivity|]. rewrite Hr. apply perm_swap.
Qed.

Lemma py_sorted_comparable (s : gset key) :
  comparable (elements s) ->
  exists l, py_sorted s = Ok l /\ Permutation l (elements s).
Proof.
  unfold py_sorted. intros Hc.
  assert (forall (todo acc : list key),
            comparable (acc ++ todo) ->
            exists l, rfold (fun acc x => insert_sorted x acc) todo acc = Ok l
                      /\ Permutation l (acc ++ todo)) as Hgen.
  { induction todo as [|x todo IH]; intros acc Hall; simpl.
    - exists acc. rewrite app_nil_r. split; reflexivity.
    - destruct (insert_sorted_comparable x acc) as (r & -> & Hr).
      { destruct Hall as [Hall|Hall]; [left|right]; intros k Hk; apply Hall;
          rewrite elem_of_app, elem_of_cons;
          apply elem_of_cons in Hk as [->|Hk]; auto. }
      simpl. destruct (IH r) as (l & Hl & Hp).
      { destruct Hall as [Hall|Hall]; [left|right]; intros k Hk; apply Hall;
          rewrite elem_of_app in Hk; rewrite Hr in Hk;
          rewrite elem_of_app, !elem_of_cons; rewrite elem_of_cons in Hk;
          tauto. }
      exists l. split; [exact Hl|]. rewrite Hp, Hr.
      rewrite (Permutation_middle acc todo x). reflexivity. }
  destruct (Hgen (elements s) [] Hc) as (l & Hl & Hp). exists l. auto.
Qed.

Lemma hashable_key_json (l : list key) : rmap hashable (map key_json l) = Ok l.
Proof.
  induction l as [|k l IH]; [reflexivity|].
  simpl. rewrite IH. destruct k; reflexivity.
Qed.

(** Stage 1: saving a checkpoint whose keys are all strings and building a
    new checkpoint from the file written gives back the same processed
    set; the save itself changes nothing but the file and the time
    stamp. *)
Theorem enrichment_save_then_load (cp : EnrichmentCheckpoint.checkpoint)
    (now : string) :
  (forall k, k ∈ EnrichmentCheckpoint.processed_deal_ids cp -> exists s, k = KStr s) ->
  exists saved loaded,
    EnrichmentCheckpoint.save None now true cp = (Ok tt, saved)
    /\ EnrichmentCheckpoint.processed_deal_ids saved
       = EnrichmentCheckpoint.processed_deal_ids cp
    /\ EnrichmentCheckpoint.__init__ (EnrichmentCheckpoint.checkpoint_file saved)
       = (Ok tt, loaded)
    /\ EnrichmentCheckpoint.processed_deal_ids loaded
       = EnrichmentCheckpoint.processed_deal_ids cp
    /\ EnrichmentCheckpoint.source_file loaded = EnrichmentCheckpoint.source_file cp
    /\ EnrichmentCheckpoint.last_updated loaded = JStr now.
Proof.
  intros Hstr.
  destruct (py_sorted_comparable (EnrichmentCheckpoint.processed_deal_ids cp))
    as (l & Hl & Hp).
  { left. intros k Hk. apply Hstr. apply elem_of_elements. exact Hk. }
  unfold EnrichmentCheckpoint.save, bind, modify, get, lift, try_except, ret.
  simpl. rewrite Hl. simpl.
  eexists _, _. split; [reflexivity|]. simpl. split; [reflexivity|].
  unfold EnrichmentCheckpoint.__init__, EnrichmentCheckpoint._load, bind, get,
    try_except, lift, modify, ret. simpl.
  rewrite hashable_key_json. simpl. split; [reflexivity|]. simpl.
  split; [|split; reflexivity].
  rewrite Hp. apply list_to_set_elements_L.
Qed.

Lemma enrichment_save_then_load_witness :
  exists saved loaded,
    EnrichmentCheckpoint.save None "now" true
      (snd (EnrichmentCheckpoint.__init__ Inputs.checkpoint_with_a))
    = (Ok tt, saved)
    /\ EnrichmentCheckpoint.processed_deal_ids saved = {[ KStr "A" ]}
    /\ EnrichmentCheckpoint.__init__ (EnrichmentCheckpoint.checkpoint_file saved)
       = (Ok tt, loaded)
    /\ EnrichmentCheckpoint.processed_deal_ids loaded = {[ KStr "A" ]}.
Proof.
  destruct (enrichment_save_then_load
              (snd (EnrichmentCheckpoint.__init__ Inputs.checkpoint_with_a)) "now")
    as (saved & loaded & H1 & H2 & H3 & H4 & _).
  - intros k Hk. exists "A".
    assert (EnrichmentCheckpoint.processed_deal_ids
              (snd (EnrichmentCheckpoint.__init__ Inputs.checkpoint_with_a))
            = {[ KStr "A" ]}) as E by (vm_compute; reflexivity).
    rewrite E in Hk. apply elem_of_singleton in Hk. exact Hk.
  - exists saved, loaded. split; [exact H1|]. split; [rewrite H2; reflexivity|].
    split; [exact H3|]. rewrite H4. reflexivity.
Defined.

(** Stage 2: the same round trip for a checkpoint whose keys are cluster
    numbers. *)
Theorem package_creation_save_then_load
    (cp : PackageCreationCheckpoint.checkpoint) (now : string) :
  (forall k, k ∈ PackageCreationCheckpoint.processed_cluster_indices cp ->
             exists z, k = KNum z) ->
  exists saved loaded,
    PackageCreationCheckpoint.save None now true cp = (Ok tt, saved)
    /\ PackageCreationCheckpoint.processed_cluster_indices saved
       = PackageCreationCheckpoint.processed_cluster_indices cp
    /\ PackageCreationCheckpoint.__init__
         (PackageCreationCheckpoint.checkpoint_file saved) = (Ok tt, loaded)
    /\ PackageCreationCheckpoint.processed_cluster_indices loaded
       = PackageCreationCheckpoint.processed_cluster_indices cp
    /\ forall i, PackageCreationCheckpoint.is_processed loaded i
                 = PackageCreationCheckpoint.is_processed cp i.
Proof.
  intros Hnum.
  destruct (py_sorted_comparable
              (PackageCreationCheckpoint.processed_cluster_indices cp))
    as (l & Hl & Hp).
  { right. intros k Hk. apply Hnum. apply elem_of_elements. exact Hk. }
  unfold PackageCreationCheckpoint.save, bind, modify, get, lift, try_except, ret.
  simpl. rewrite Hl. simpl.
  eexists _, _. split; [reflexivity|]. simpl. split; [reflexivity|].
  unfold PackageCreationCheckpoint.__init__, PackageCreationCheckpoint._load,
    bind, get, try_except, lift, modify, ret. simpl.
  rewrite hashable_key_json. simpl. split; [reflexivity|].
  assert (list_to_set l = PackageCreationCheckpoint.processed_cluster_indices cp)
    as Hset by (rewrite Hp; apply list_to_set_elements_L).
  split; [exact Hset|].
  intros i. unfold PackageCreationCheckpoint.is_processed. simpl.
  rewrite Hset. reflexivity.
Qed.

Lemma package_creation_save_then_load_witness :
  exists saved loaded,
    PackageCreationCheckpoint.save None "now" true
      (PackageCreationCheckpoint.mark_processed 1
         (snd (PackageCreationCheckpoint.__init__ Missing)))
    = (Ok tt, saved)
    /\ PackageCreationCheckpoint.__init__
         (PackageCreationCheckpoint.checkpoint_file saved) = (Ok tt, loaded)
    /\ PackageCreationCheckpoint.is_processed loaded 1 = true.
Proof.
  destruct (package_creation_save_then_load
              (PackageCreationCheckpoint.mark_processed 1
                 (snd (PackageCreationCheckpoint.__init__ Missing))) "now")
    as (saved & loaded & H1 & _ & H3 & _ & H5).
  - intros k Hk. exists 1.
    assert (PackageCreationCheckpoint.processed_cluster_indices
              (PackageCreationCheckpoint.mark_processed 1
                 (snd (PackageCreationCheckpoint.__init__ Missing)))
            = {[ KNum 1 ]}) as E by (vm_compute; reflexivity).
    rewrite E in Hk. apply elem_of_singleton in Hk. exact Hk.
  - exists saved, loaded. split; [exact H1|]. split; [exact H3|].
    rewrite H5. vm_compute. reflexivity.
Defined.

Lemma get_unprocessed_clusters_acc (cp : PackageCreationCheckpoint.checkpoint)
    (l : list (nat * list nat)) (acc : list (Z * list nat)) :
  fold_left
    (fun unprocessed p =>
       let cluster_idx := Z.of_nat (fst p) + 1 in
       if negb (PackageCreationCheckpoint.is_processed cp cluster_idx)
       then unprocessed ++ [(cluster_idx, snd p)]
       else unprocessed)
    l acc
  = acc ++ filter (fun q : Z * list nat =>
                     KNum (fst q)
                       ∉ PackageCreationCheckpoint.processed_cluster_indices cp)
                  (map (fun p => (Z.of_nat (fst p) + 1, snd p)) l).
Proof.
  revert acc. induction l as [|p l IH]; intros acc; simpl.
  - rewrite app_nil_r. reflexivity.
  - rewrite IH. unfold PackageCreationCheckpoint.is_processed.
    case_bool_decide as Hin; simpl.
    + rewrite filter_cons_False; [reflexivity|]. intros Hn. exact (Hn Hin).
    + rewrite filter_cons_True, <- app_assoc; [reflexivity|exact Hin].
Qed.

(** Stage 2: [get_unprocessed_clusters] numbers the clusters from 1 in the
    order given and returns, in that order, the numbered clusters whose
    number is not in the processed set; every pair it returns holds the
    cluster found at that 1-based position; and with a new, empty
    checkpoint it returns every cluster, which is the list
    [create_packages] builds when it is given no checkpoint. *)
Theorem get_unprocessed_clusters_numbering
    (cp : PackageCreationCheckpoint.checkpoint) (clusters : list (list nat)) :
  PackageCreationCheckpoint.get_unprocessed_clusters cp clusters
  = filter (fun q : Z * list nat =>
              KNum (fst q) ∉ PackageCreationCheckpoint.processed_cluster_indices cp)
           (enumerate1 clusters)
  /\ (forall i c,
        (i, c) ∈ PackageCreationCheckpoint.get_unprocessed_clusters cp clusters ->
        1 <= i /\ clusters !! Z.to_nat (i - 1) = Some c)
  /\ PackageCreationCheckpoint.get_unprocessed_clusters
       (snd (PackageCreationCheckpoint.__init__ Missing)) clusters
     = enumerate1 clusters.
Proof.
  assert (forall cp',
            PackageCreationCheckpoint.get_unprocessed_clusters cp' clusters
            = filter (fun q : Z * list nat =>
                        KNum (fst q)
                          ∉ PackageCreationCheckpoint.processed_cluster_indices cp')
                     (enumerate1 clusters)) as Heq.
  { intros cp'. unfold PackageCreationCheckpoint.get_unprocessed_clusters.
    rewrite get_unprocessed_clusters_acc. simpl. f_equal.
    unfold enumerate, enumerate1.
    change (map ?f ?l) with (f <$> l). rewrite fmap_imap. reflexivity. }
  split; [apply Heq|]. split.
  - intros i c Hin. rewrite Heq in Hin. apply list_elem_of_filter in Hin as [_ Hin].
    unfold enumerate1 in Hin.
    apply (elem_of_lookup_imap (fun (i : nat) (x : list nat) => (Z.of_nat i + 1, x)))
      in Hin as (j & x & Hjx & Hl).
    injection Hjx as -> ->. split; [lia|].
    replace (Z.to_nat (Z.of_nat j + 1 - 1)) with j by lia. exact Hl.
  - rewrite Heq. simpl. clear Heq.
    induction (enumerate1 clusters) as [|q l IH]; [reflexivity|].
    rewrite filter_cons_True; [f_equal; exact IH|]. apply not_elem_of_empty.
Qed.

End CheckpointMore.

(** ** Column letters *)

Module ColumnLetterFacts.
Import ColumnLetters.

Lemma string_app_assoc (a b c : string) : (a +:+ b) +:+ c = a +:+ (b +:+ c).
Proof.
  induction a as [|ch a IH]; [reflexivity|].
  change (String ch ((a +:+ b) +:+ c) = String ch (a +:+ (b +:+ c))).
  f_equal. exact IH.
Qed.

Lemma column_number_from_app (acc : Z) (a b : string) :
  column_number_from acc (a +:+ b)
  = column_number_from (column_number_from acc a) b.
Proof.
  revert acc. induction a as [|ch a IH]; intros acc; [reflexivity|].
  change (String ch a +:+ b) with (String ch (a +:+ b)). simpl. apply IH.
Qed.

Lemma capital_letters_app (a b : string) :
  capital_letters a -> capital_letters b -> capital_letters (a +:+ b).
Proof.
  induction a as [|ch a IH]; [auto|]. intros [Hc Ha] Hb.
  change (String ch a +:+ b) with (String ch (a +:+ b)). simpl. auto.
Qed.

Lemma column_loop_letters (fuel : nat) (col_num : Z) (result : string) :
  0 <= col_num <= Z.of_nat fuel ->
  exists letters,
    column_loop fuel col_num result = Some (letters +:+ result)
    /\ column_number letters = col_num
    /\ capital_letters letters
    /\ (0 < col_num -> letters <> "").
Proof.
  revert col_num result. induction fuel as [|fuel IH]; intros n result Hn.
  - assert (n = 0) as -> by lia. exists "". simpl.
    repeat split; try reflexivity. intros H. inversion H.
  - change (column_loop (S fuel) n result)
      with (if n >? 0
            then column_loop fuel ((n - 1) / 26)
                   (String (ascii_of_nat (Z.to_nat (65 + (n - 1) mod 26))) result)
            else Some result).
    destruct (n >? 0) eqn:Hpos.
    + apply Z.gtb_lt in Hpos.
      pose proof (Z.mod_pos_bound (n - 1) 26 ltac:(lia)) as Hmod.
      pose proof (Z.div_mod (n - 1) 26 ltac:(lia)) as Hdm.
      assert (0 <= (n - 1) / 26 <= Z.of_nat fuel) as Hq.
      { split; [apply Z.div_pos; lia|].
        assert ((n - 1) / 26 <= n - 1); [|lia].
        apply Z.div_le_upper_bound; lia. }
      set (ch := ascii_of_nat (Z.to_nat (65 + (n - 1) mod 26))).
      destruct (IH ((n - 1) / 26) (String ch result) Hq)
        as (letters & Hl & Hv & Hcap & _).
      assert (nat_of_ascii ch = Z.to_nat (65 + (n - 1) mod 26)) as Hch.
      { subst ch. apply nat_ascii_embedding. lia. }
      exists (letters +:+ String ch ""). split.
      { rewrite Hl, string_app_assoc. reflexivity. }
      split.
      { unfold column_number in *. rewrite column_number_from_app, Hv. simpl.
        rewrite Hch. lia. }
      split.
      { apply capital_letters_app; [exact Hcap|]. simpl. rewrite Hch. lia. }
      intros _. destruct letters; discriminate.
    + assert (n = 0) as -> by (rewrite Z.gtb_ltb in Hpos; apply Z.ltb_ge in Hpos; lia).
      exists "". simpl. repeat split; try reflexivity. intros H. inversion H.
Qed.

(** [_get_column_letter] always finishes; for a column number of at least 1
    it returns a non-empty run of capital letters that stands for exactly
    that column in A1 notation, so different columns get different letters;
    for a number below 1 it returns the empty string. *)
Theorem get_column_letter_round_trip (col_num : Z) :
  (0 < col_num ->
   exists letters,
     _get_column_letter col_num = Some letters
     /\ column_number letters = col_num
     /\ capital_letters letters
     /\ letters <> "")
  /\ (col_num <= 0 -> _get_column_letter col_num = Some "").
Proof.
  split.
  - intros Hpos. unfold _get_column_letter.
    destruct (column_loop_letters (Z.to_nat col_num) col_num "" ltac:(lia))
      as (letters & Hl & Hv & Hcap & Hne).
    exists letters. split.
    + rewrite Hl. f_equal. clear. induction letters as [|c l IH];
        [reflexivity|].
      change (String c (l +:+ "") = String c l). f_equal. exact IH.
    + auto.
  - intros Hle. unfold _get_column_letter.
    destruct (Z.to_nat col_num) eqn:E; simpl;
      destruct (col_num >? 0) eqn:Hpos; try reflexivity;
      apply Z.gtb_lt in Hpos; lia.
Qed.

Example get_column_letter_examples :
  _get_column_letter 1 = Some "A" /\ _get_column_letter 26 = Some "Z"
  /\ _get_column_letter 27 = Some "AA" /\ _get_column_letter 52 = Some "AZ"
  /\ _get_column_letter 703 = Some "AAA".
Proof. repeat split; vm_compute; reflexivity. Qed.

End ColumnLetterFacts.

(** ** Flattening of records *)

Module FlattenFacts.
Import IncrementalExporter.

(** Induction on JSON values that reaches the values inside a dict. *)
Lemma json_dict_ind (P : json -> Prop) :
  P JNull -> (forall b, P (JBool b)) -> (forall z, P (JNum z)) ->
  (forall s, P (JStr s)) -> (forall l, P (JList l)) ->
  (forall d, Forall (fun kv => P (snd kv)) d -> P (JDict d)) ->
  forall v, P v.
Proof.
  intros Hnull Hbool Hnum Hstr Hlist Hdict.
  fix F 1. intros [| b | z | s | l | d].
  - exact Hnull.
  - apply Hbool.
  - apply Hnum.
  - apply Hstr.
  - apply Hlist.
  - apply Hdict. induction d as [|[k v] d IH]; constructor; [apply F|exact IH].
Qed.

Lemma dict_set_keys {V : Type} (d : list (string * V)) (k : string) (v : V) :
  map fst (dict_set d k v)
  = if bool_decide (k ∈ map fst d) then map fst d else map fst d ++ [k].
Proof.
  induction d as [|[k' v'] d IH]; simpl; [reflexivity|].
  destruct (String.eqb_spec k' k) as [->|Hne]; simpl.
  - rewrite bool_decide_eq_true_2 by left. reflexivity.
  - rewrite IH. case_bool_decide as Hin.
    + rewrite bool_decide_eq_true_2 by (right; exact Hin). reflexivity.
    + rewrite bool_decide_eq_false_2; [reflexivity|].
      intros Hin'. apply elem_of_cons in Hin' as [->|Hin']; contradiction.
Qed.

Lemma dict_set_NoDup {V : Type} (d : list (string * V)) (k : string) (v : V) :
  NoDup (map fst d) -> NoDup (map fst (dict_set d k v)).
Proof.
  intros Hnd. rewrite dict_set_keys. case_bool_decide as Hin; [exact Hnd|].
  apply NoDup_app. split; [exact Hnd|]. split; [|apply NoDup_singleton].
  intros x Hx Hx'. apply list_elem_of_singleton in Hx'. subst x. contradiction.
Qed.

Lemma dict_set_values {V : Type} (Q : V -> Prop) (d : list (string * V))
    (k : string) (v : V) :
  Forall (fun kv => Q (snd kv)) d -> Q v ->
  Forall (fun kv => Q (snd kv)) (dict_set d k v).
Proof.
  intros Hd Hv. induction d as [|[k' v'] d IH]; simpl.
  - constructor; [exact Hv|constructor].
  - inversion Hd as [|? ? Hh Ht]; subst.
    destruct (String.eqb k' k); constructor; auto.
Qed.

Lemma dict_of_items_NoDup {V : Type} (items : list (string * V)) :
  NoDup (map fst (dict_of_items items)).
Proof.
  unfold dict_of_items.
  apply (PartitionFacts.fold_left_invariant
           (fun d : list (string * V) => NoDup (map fst d))).
  - constructor.
  - intros d p Hd _. apply dict_set_NoDup. exact Hd.
Qed.

Lemma dict_of_items_values {V : Type} (Q : V -> Prop) (items : list (string * V)) :
  Forall (fun kv => Q (snd kv)) items ->
  Forall (fun kv => Q (snd kv)) (dict_of_items items).
Proof.
  intros Hall. unfold dict_of_items.
  apply (PartitionFacts.fold_left_invariant
           (fun d : list (string * V) => Forall (fun kv => Q (snd kv)) d)).
  - constructor.
  - intros d p Hd Hp. apply dict_set_values; [exact Hd|].
    rewrite Forall_forall in Hall. apply (Hall p Hp).
Qed.

(** A dict built from items with distinct keys is the list of the items. *)
Lemma dict_of_items_distinct {V : Type} (items : list (string * V)) :
  NoDup (map fst items) -> dict_of_items items = items.
Proof.
  unfold dict_of_items.
  assert (forall acc : list (string * V),
            NoDup (map fst (acc ++ items)) ->
            fold_left (fun d p => dict_set d (fst p) (snd p)) items acc
            = acc ++ items) as Hgen.
  { induction items as [|[k v] items IH]; intros acc Hnd; simpl.
    - rewrite app_nil_r. reflexivity.
    - assert (dict_set acc k v = acc ++ [(k, v)]) as ->.
      { rewrite map_app in Hnd. apply NoDup_app in Hnd as (_ & Hdisj & _).
        assert (k ∉ map fst acc) as Hk.
        { intros Hin. apply (Hdisj k Hin). left. }
        clear -Hk. induction acc as [|[k' v'] acc IH]; simpl; [reflexivity|].
        destruct (String.eqb_spec k' k) as [->|Hne].
        - exfalso. apply Hk. left.
        - rewrite IH; [reflexivity|]. intros Hin. apply Hk. right. exact Hin. }
      rewrite IH; rewrite <- app_assoc; [reflexivity|exact Hnd]. }
  intros Hnd. apply (Hgen [] Hnd).
Qed.

Section Flatten.

Variable json_dumps : json -> string.

Lemma flatten_value_scalars (exclude_keys : list string) (sep : string)
    (v : json) :
  forall parent_key,
    Forall (fun kv => scalar (snd kv))
           (flatten_value json_dumps exclude_keys sep parent_key v).
Proof.
  induction v as [| b | z | s | l | d IH] using json_dict_ind;
    intros parent_key; try constructor.
  simpl. apply dict_of_items_values.
  induction d as [|[k v'] d IHd]; [constructor|].
  inversion IH as [|? ? Hv Hd]; subst. simpl in Hv.
  apply Forall_app. split; [|apply IHd; exact Hd].
  destruct (bool_decide (k ∈ exclude_keys)
            || String.eqb parent_key "" && bool_decide (k ∈ exclude_keys)).
  - constructor; [exact I|constructor].
  - destruct v' as [| b | z | s | l | d']; try (constructor; [exact I|constructor]).
    apply Hv.
Qed.

Lemma flatten_dict_NoDup (d : list (string * json))
    (parent_key sep : string) (exclude_keys : list string) :
  NoDup (map fst (flatten_dict json_dumps d parent_key sep exclude_keys)).
Proof. unfold flatten_dict. simpl. apply dict_of_items_NoDup. Qed.

Lemma flattened_record_NoDup (deal_dict : list (string * json)) :
  NoDup (map fst (flattened_record json_dumps deal_dict)).
Proof.
  unfold flattened_record. destruct (negb _).
  - apply dict_set_NoDup, flatten_dict_NoDup.
  - apply flatten_dict_NoDup.
Qed.

(** [flatten_dict] returns a flat record: its keys are distinct and none of
    its values is a list or a dict, whatever the nesting of the input. *)
Theorem flatten_dict_is_flat (d : list (string * json))
    (parent_key sep : string) (exclude_keys : list string) :
  NoDup (map fst (flatten_dict json_dumps d parent_key sep exclude_keys))
  /\ Forall (fun kv => scalar (snd kv))
            (flatten_dict json_dumps d parent_key sep exclude_keys).
Proof.
  split.
  - apply flatten_dict_NoDup.
  - apply flatten_value_scalars.
Qed.

(** A record that is already flat, with distinct keys of which none is
    excluded, passes through [flatten_dict] unchanged. *)
Theorem flatten_dict_keeps_flat_record (d : list (string * json))
    (sep : string) (exclude_keys : list string) :
  NoDup (map fst d) ->
  Forall (fun kv => scalar (snd kv)) d ->
  (forall k, k ∈ map fst d -> k ∉ exclude_keys) ->
  flatten_dict json_dumps d "" sep exclude_keys = d.
Proof.
  intros Hnd Hflat Hex. unfold flatten_dict.
  rewrite <- (dict_of_items_distinct d Hnd) at 2.
  simpl. f_equal. clear Hnd.
  induction d as [|[k v] d IH]; [reflexivity|].
  inversion Hflat as [|? ? Hv Hd]; subst. simpl in Hv.
  rewrite IH; [|exact Hd|intros k' Hk'; apply Hex; right; exact Hk'].
  rewrite bool_decide_eq_false_2 by (apply Hex; left). simpl.
  destruct v; try reflexivity; contradiction.
Qed.

End Flatten.

Lemma flatten_dict_keeps_flat_record_witness :
  flatten_dict (fun _ => "{}")
    [("deal_id", JStr "A"); ("floor_price", JNum 2); ("family_safe", JBool true)]
    "" "_" ["raw_deal_data"]
  = [("deal_id", JStr "A"); ("floor_price", JNum 2); ("family_safe", JBool true)].
Proof.
  apply (flatten_dict_keeps_flat_record (fun _ => "{}")).
  - apply (bool_decide_unpack _). vm_compute. exact I.
  - repeat constructor.
  - intros k Hk Hin. apply list_elem_of_singleton in Hin. subst k.
    revert Hk. apply (bool_decide_unpack _). vm_compute. exact I.
Defined.

End FlattenFacts.

(** ** The local files over a run of exports *)

Module FileSinkFacts.
Import IncrementalExporter.

Lemma assoc_get_NoDup {V : Type} (d : list (string * V)) (k : string) (v : V) :
  NoDup (map fst d) -> (k, v) ∈ d -> assoc_get d k = Some v.
Proof.
  induction d as [|[k' v'] d IH]; intros Hnd Hin; [inversion Hin|].
  simpl in Hnd. apply NoDup_cons in Hnd as [Hk' Hnd]. simpl.
  apply elem_of_cons in Hin as [Heq|Hin].
  - inversion Heq; subst. rewrite String.eqb_refl. reflexivity.
  - destruct (String.eqb_spec k' k) as [->|Hne]; [|apply IH; assumption].
    exfalso. apply Hk'. change (map fst d) with (fst <$> d).
    apply list_elem_of_fmap. exists (k, v). split; [reflexivity|exact Hin].
Qed.

(** Reindexing a record to its own columns gives its own cells. *)
Lemma reindex_own_columns (flattened : list (string * json)) :
  NoDup (map fst flattened) ->
  reindex_row (map fst flattened) flattened
  = map (fun p => cell_text (snd p)) flattened.
Proof.
  intros Hnd. unfold reindex_row. rewrite map_map. apply map_ext_in.
  intros [k v] Hin. simpl.
  rewrite (assoc_get_NoDup flattened k v Hnd); [reflexivity|].
  apply list_elem_of_In. exact Hin.
Qed.

Section Run.

Variable json_dumps : json -> string.
Variable py_repr : json -> string.

(** In a fresh run whose writes succeed, a record that flattens to the
    columns of the first record is written in full: its line is its own
    cells, in its own order. *)
Theorem tsv_record_with_header_columns_is_complete
    (first : list (string * json)) (later : list (list (string * json)))
    (jsonl : list json) :
  (forall r, r ∈ later ->
     map fst (flattened_record json_dumps r)
     = map fst (flattened_record json_dumps first)) ->
  let fresh :=
    snd (__init__ (fun _ => true) None NoSpreadsheet (on_disk jsonl None)) in
  let written :=
    snd (for_each (_append_tsv json_dumps (fun _ => true)) (first :: later) fresh) in
  tsv_file written
  = Some (map fst (flattened_record json_dumps first)
          :: map (fun r => map (fun p => cell_text (snd p))
                               (flattened_record json_dumps r))
                 (first :: later)).
Proof.
  intros Hsame fresh written.
  destruct (ExporterFacts.flattened_record_columns json_dumps first)
    as [c [cs Hcols]].
  assert (tsv_header_written fresh = false) as Hfresh by reflexivity.
  subst written. simpl. unfold bind at 1.
  pose proof (ExporterFacts.append_tsv_never_raises json_dumps first fresh) as Hok.
  destruct (ExporterFacts.append_tsv_first json_dumps first fresh Hfresh)
    as (K1 & K2 & K3).
  destruct (_append_tsv json_dumps (fun _ => true) first fresh) as [res s1].
  simpl in *. subst res. rewrite Hcols in K2.
  destruct (ExporterFacts.append_tsv_all_later json_dumps later s1 c cs _ K1 K2 K3)
    as [_ L2].
  rewrite L2. cbn [app]. do 3 f_equal.
  apply map_ext_in. intros r Hr. apply list_elem_of_In in Hr.
  rewrite <- Hcols, <- (Hsame r Hr).
  apply reindex_own_columns, FlattenFacts.flattened_record_NoDup.
Qed.

End Run.

Lemma tsv_record_with_header_columns_is_complete_witness :
  tsv_file
    (snd (for_each (_append_tsv (fun _ => "{}") (fun _ => true))
            [Inputs.record_five; Inputs.record_z]
            (snd (__init__ (fun _ => true) None NoSpreadsheet (on_disk [] None)))))
  = Some [["deal_id"; "deal_name"; "source"; "floor_price"; "raw_deal_data"];
          ["A"; "first"; "BidSwitch"; "2"; ""];
          ["Z"; "renamed"; "BidSwitch"; "2"; ""]].
Proof.
  apply (tsv_record_with_header_columns_is_complete (fun _ => "{}")
           Inputs.record_five [Inputs.record_z] []).
  intros r Hr. apply list_elem_of_singleton in Hr. subst r.
  vm_compute. reflexivity.
Defined.

End FileSinkFacts.

(** ** The append log over a run of exports *)

Module AppendLogFacts.
Import IncrementalExporter.

Section Run.

Variable json_dumps : json -> string.
Variable py_repr : json -> string.



End Run.

End AppendLogFacts.

(** ** The row index of the worksheet *)

Module RowIndexFacts.
Import IncrementalExporter.

Lemma build_index_snoc (col : nat) (rows : list (list string))
    (row_data : list string) :
  build_index col (rows ++ [row_data])
  = if decide (row_key col row_data = "") then build_index col rows
    else <[row_key col row_data := (length rows + 2)%nat]> (build_index col rows).
Proof.
  unfold build_index, enumerate. rewrite imap_app, fold_left_app. simpl.
  rewrite Nat.add_0_r. unfold row_key.
  destruct (row_data !! col) as [cell|]; [|reflexivity].
  destruct (String.eqb_spec cell "") as [->|Hcell]; simpl; [reflexivity|].
  destruct (String.eqb_spec (str_strip cell) "") as [Hs|Hs]; simpl.
  - rewrite decide_True by exact Hs. reflexivity.
  - rewrite decide_False by exact Hs. reflexivity.
Qed.


End RowIndexFacts.

(** ** Reasoning about invariants *)

Module HoareFacts.

Section Rules.

Context {S : Type}.

Lemma hoare_bind {A B : Type} (P Q R : S -> Prop) (m : M S A) (k : A -> M S B) :
  hoare P m Q -> (forall s, Q s -> R s) -> (forall a, hoare Q (k a) R) ->
  hoare P (bind m k) R.
Proof.
  intros Hm Hqr Hk s Hs. unfold bind. specialize (Hm s Hs).
  destruct (m s) as [[a|e] s1]; simpl in *.
  - apply (Hk a s1 Hm).
  - apply Hqr. exact Hm.
Qed.

Lemma hoare_try {A : Type} (P Q R : S -> Prop) (m : M S A) (h : exn -> M S A) :
  hoare P m Q -> (forall s, Q s -> R s) -> (forall e, hoare Q (h e) R) ->
  hoare P (try_except m h) R.
Proof.
  intros Hm Hqr Hh s Hs. unfold try_except. specialize (Hm s Hs).
  destruct (m s) as [[a|e] s1]; simpl in *.
  - apply Hqr. exact Hm.
  - apply (Hh e s1 Hm).
Qed.

Lemma hoare_modify (P Q : S -> Prop) (f : S -> S) :
  (forall s, P s -> Q (f s)) -> hoare P (modify f) Q.
Proof. intros Hf s Hs. simpl. apply Hf. exact Hs. Qed.

Lemma hoare_ret {A : Type} (P : S -> Prop) (a : A) : hoare P (ret a) P.
Proof. intros s Hs. exact Hs. Qed.

Lemma hoare_raise {A : Type} (P : S -> Prop) (e : exn) : hoare P (@raise S A e) P.
Proof. intros s Hs. exact Hs. Qed.

Lemma hoare_get (P : S -> Prop) : hoare P (@get S) P.
Proof. intros s Hs. exact Hs. Qed.

Lemma hoare_lift {A : Type} (P : S -> Prop) (r : result A) : hoare P (lift r) P.
Proof. intros s Hs. exact Hs. Qed.

Lemma hoare_weaken {A : Type} (P P' Q Q' : S -> Prop) (m : M S A) :
  (forall s, P s -> P' s) -> (forall s, Q' s -> Q s) ->
  hoare P' m Q' -> hoare P m Q.
Proof. intros Hp Hq Hm s Hs. apply Hq, Hm, Hp. exact Hs. Qed.

Lemma hoare_for_each {A : Type} (P : S -> Prop) (body : A -> M S unit)
    (l : list A) :
  (forall a, hoare P (body a) P) -> hoare P (for_each body l) P.
Proof.
  intros Hb. induction l as [|a l IH]; simpl.
  - apply hoare_ret.
  - apply (hoare_bind P P P); [apply Hb|auto|intros _; exact IH].
Qed.

End Rules.

Lemma hoare_io (io_ok : nat -> bool) (P : IncrementalExporter.exporter -> Prop)
    (c : io_call) :
  (forall s l, P s -> P (IncrementalExporter.set_io_log l s)) ->
  hoare P (IncrementalExporter.io io_ok c) P.
Proof. intros Hl s Hs. simpl. apply Hl. exact Hs. Qed.

Lemma keeps_bind {S A B : Type} (P : S -> Prop) (m : M S A) (k : A -> M S B) :
  hoare P m P -> (forall a, hoare P (k a) P) -> hoare P (bind m k) P.
Proof. intros Hm Hk. apply (hoare_bind P P P); auto. Qed.

Lemma keeps_try {S A : Type} (P : S -> Prop) (m : M S A) (h : exn -> M S A) :
  hoare P m P -> (forall e, hoare P (h e) P) -> hoare P (try_except m h) P.
Proof. intros Hm Hh. apply (hoare_try P P P); auto. Qed.

(** One step of a proof that [m] keeps the invariant [P]; [solve_update]
    settles what an assignment to a field leaves to prove. *)
Ltac keeps_step solve_update :=
  first
    [ apply keeps_bind; [|intros ?]
    | apply keeps_try; [|intros ?]
    | apply hoare_ret
    | apply hoare_raise
    | apply hoare_get
    | apply hoare_lift
    | apply hoare_io; intros ? ? ?; solve_update
    | apply hoare_modify; intros ? ?; solve_update
    | match goal with
      | |- hoare _ (if ?b then _ else _) _ => destruct b
      | |- hoare _ (match ?x with _ => _ end) _ => destruct x
      end ].

End HoareFacts.

(** ** The row index and the append cursor *)

Module CursorFacts.
Import IncrementalExporter HoareFacts.

Lemma build_index_bounds (col : nat) (rows : list (list string))
    (k : string) (r : nat) :
  build_index col rows !! k = Some r -> (2 <= r < length rows + 2)%nat.
Proof.
  revert k r. induction rows as [|x rows IH] using rev_ind; intros k r.
  - change (build_index col []) with (∅ : gmap string nat).
    rewrite lookup_empty. discriminate.
  - rewrite RowIndexFacts.build_index_snoc, length_app. simpl.
    destruct (decide (row_key col x = "")) as [_|_].
    + intros H. apply IH in H. lia.
    + rewrite lookup_insert. destruct (decide (row_key col x = k)) as [_|_].
      * intros H. inversion H. lia.
      * intros H. apply IH in H. lia.
Qed.

Section Cursor.

Variable json_dumps : json -> string.
Variable py_repr : json -> string.
Variable io_ok : nat -> bool.

Ltac cursor_step :=
  keeps_step ltac:(simpl in *; lia).

(** No step of an export moves the append cursor back. *)
Lemma export_deal_cursor (n : nat) (deal_dict : list (string * json)) :
  hoare (fun s => (n <= sheets_next_row s)%nat)
        (export_deal json_dumps py_repr io_ok deal_dict)
        (fun s => (n <= sheets_next_row s)%nat).
Proof.
  unfold export_deal, _append_jsonl, _append_tsv, _append_to_sheets,
    reconcile_header, header_column_count, get_all_values, expand_columns,
    update_header, update_sheet_row, on_worksheet.
  repeat cursor_step.
Qed.

Lemma export_deal_keeps_index_below_cursor (deal_dict : list (string * json)) :
  hoare index_below_cursor (export_deal json_dumps py_repr io_ok deal_dict)
        index_below_cursor.
Proof.
  intros s Hs k r Hk.
  rewrite ExporterFacts.export_deal_keeps_index in Hk.
  specialize (Hs k r Hk).
  pose proof (export_deal_cursor (sheets_next_row s) deal_dict s (le_n _)) as Hc.
  simpl in Hc. lia.
Qed.

Ltac empty_index_step :=
  keeps_step ltac:(simpl in *; first [assumption | reflexivity]).

(** Attaching the worksheet leaves every indexed row below the cursor. *)
Lemma init_google_sheets_index_below_cursor (remote : spreadsheet) :
  hoare (fun s => deal_id_to_row s = ∅) (_init_google_sheets io_ok remote)
        index_below_cursor.
Proof.
  assert (forall s : exporter, deal_id_to_row s = ∅ -> index_below_cursor s)
    as Hempty.
  { intros s Hs k r Hk. rewrite Hs, lookup_empty in Hk. discriminate. }
  assert (forall f : exporter -> exporter,
            (forall s, deal_id_to_row (f s) = ∅) ->
            hoare index_below_cursor (modify f) index_below_cursor) as Hreset.
  { intros f Hf. apply hoare_modify. intros s _. apply Hempty, Hf. }
  assert (forall (c : io_call),
            hoare index_below_cursor (io io_ok c) index_below_cursor) as Hio.
  { intros c. apply hoare_io. intros s l Hs. exact Hs. }
  unfold _init_google_sheets.
  apply (hoare_try _ index_below_cursor); [|auto|].
  2:{ intros e. apply keeps_bind; [|intros _; apply Hreset; reflexivity].
      apply hoare_modify. intros s Hs. exact Hs. }
  apply (hoare_bind _ (fun s => deal_id_to_row s = ∅)); [|exact Hempty|intros _].
  { empty_index_step. }
  destruct remote as [| |unified].
  - apply (hoare_weaken _ index_below_cursor _ index_below_cursor);
      [exact Hempty|auto|apply hoare_raise].
  - apply (hoare_weaken _ (fun s => deal_id_to_row s = ∅) _
                          (fun s => deal_id_to_row s = ∅));
      [auto|exact Hempty|]. repeat empty_index_step.
  - apply (hoare_try _ index_below_cursor); [|auto|].
    2:{ intros e. apply keeps_bind; [apply Hio|intros _].
        destruct unified; [apply hoare_raise|].
        apply keeps_bind; [|intros _; apply Hreset; reflexivity].
        apply hoare_modify. intros s Hs. exact Hs. }
    apply (hoare_bind _ (fun s => deal_id_to_row s = ∅));
      [|exact Hempty|intros _].
    { empty_index_step. }
    destruct unified as [ws|].
    2:{ apply (hoare_weaken _ index_below_cursor _ index_below_cursor);
          [exact Hempty|auto|apply hoare_raise]. }
    apply (hoare_bind _ (fun s => deal_id_to_row s = ∅));
      [|exact Hempty|intros _].
    { empty_index_step. }
    apply (hoare_bind _ (fun s => deal_id_to_row s = ∅));
      [|exact Hempty|intros existing_data].
    { unfold get_all_values. repeat empty_index_step. }
    apply (hoare_bind _ index_below_cursor); [|auto|intros _].
    2:{ unfold expand_columns, on_worksheet.
        repeat keeps_step ltac:(simpl in *; assumption). }
    intros s Hs. destruct existing_data as [|header [|row rows]]; simpl.
    + apply Hempty. exact Hs.
    + apply Hempty. reflexivity.
    + unfold bind, modify. simpl.
      destruct (find_deal_id_col header) as [col|]; simpl.
      * intros k r Hk. simpl in Hk. apply build_index_bounds in Hk.
        simpl in *. lia.
      * apply Hempty. reflexivity.
Qed.

Lemma init_index_below_cursor (google_sheets_id : option string)
    (remote : spreadsheet) :
  hoare (fun s => deal_id_to_row s = ∅) (__init__ io_ok google_sheets_id remote)
        index_below_cursor.
Proof.
  assert (forall s : exporter, deal_id_to_row s = ∅ -> index_below_cursor s)
    as Hempty.
  { intros s Hs k r Hk. rewrite Hs, lookup_empty in Hk. discriminate. }
  unfold __init__.
  repeat (apply (hoare_bind _ (fun s => deal_id_to_row s = ∅));
          [repeat empty_index_step|exact Hempty|intros ?]).
  destruct google_sheets_id as [id|].
  - destruct (negb (String.eqb id "")).
    + apply init_google_sheets_index_below_cursor.
    + apply (hoare_weaken _ index_below_cursor _ index_below_cursor);
        [exact Hempty|auto|apply hoare_ret].
  - apply (hoare_weaken _ index_below_cursor _ index_below_cursor);
      [exact Hempty|auto|apply hoare_ret].
Qed.

(** Whatever the constructor finds and whichever outside calls fail, every
    row the index points at is a data row strictly below the append cursor
    the constructor leaves; over any run of exports the index stays as it is
    and the cursor never moves back, so a row written at the cursor never
    lands on an indexed row. *)
Theorem indexed_rows_stay_below_cursor (google_sheets_id : option string)
    (remote : spreadsheet) (jsonl : list json) (tsv : option (list (list string)))
    (records : list (list (string * json))) :
  let opened := snd (__init__ io_ok google_sheets_id remote (on_disk jsonl tsv)) in
  let final :=
    snd (for_each (export_deal json_dumps py_repr io_ok) records opened) in
  deal_id_to_row final = deal_id_to_row opened
  /\ (sheets_next_row opened <= sheets_next_row final)%nat
  /\ forall k r, deal_id_to_row final !! k = Some r ->
                 (2 <= r < sheets_next_row opened)%nat.
Proof.
  intros opened final.
  assert (deal_id_to_row final = deal_id_to_row opened) as Hidx.
  { apply (hoare_for_each (fun s => deal_id_to_row s = deal_id_to_row opened)
             (export_deal json_dumps py_repr io_ok) records); [|reflexivity].
    intros r s Hs. rewrite ExporterFacts.export_deal_keeps_index. exact Hs. }
  split; [exact Hidx|]. split.
  - apply (hoare_for_each (fun s => (sheets_next_row opened <= sheets_next_row s)%nat)
             (export_deal json_dumps py_repr io_ok) records); [|apply le_n].
    intros r. apply export_deal_cursor.
  - rewrite Hidx. apply (init_index_below_cursor google_sheets_id remote).
    reflexivity.
Qed.

End Cursor.

(** A worksheet with one data row, for the deal Z: the index points at row
    2 and the cursor is at row 3. *)
Example index_of_sheet_with_one_row :
  let opened :=
    snd (__init__ (fun _ => true) (Some "sheet") (Spreadsheet (Some Inputs.sheet_with_one_row))
                  (on_disk [] None)) in
  deal_id_to_row opened !! "Z" = Some 2%nat /\ sheets_next_row opened = 3%nat.
Proof. vm_compute. split; reflexivity. Qed.

End CursorFacts.

(** ** Failures while the exporter is constructed *)

Module ConstructorFacts.
Import IncrementalExporter.

Lemma never_raises_bind {S A B : Type} (m : M S A) (k : A -> M S B) :
  never_raises m -> (forall a, never_raises (k a)) -> never_raises (bind m k).
Proof.
  intros Hm Hk s. unfold bind. destruct (Hm s) as [a Ha].
  destruct (m s) as [[a'|e] s1]; simpl in *; [|discriminate].
  apply Hk.
Qed.

Lemma never_raises_try {S A : Type} (m : M S A) (h : exn -> M S A) :
  (forall e, never_raises (h e)) -> never_raises (try_except m h).
Proof.
  intros Hh s. unfold try_except.
  destruct (m s) as [[a|e] s1]; simpl; [eauto|apply Hh].
Qed.

Lemma never_raises_ret {S A : Type} (a : A) : never_raises (@ret S A a).
Proof. intros s. exists a. reflexivity. Qed.

Lemma never_raises_get {S : Type} : never_raises (@get S).
Proof. intros s. exists s. reflexivity. Qed.

Lemma never_raises_modify {S : Type} (f : S -> S) : never_raises (modify f).
Proof. intros s. exists tt. reflexivity. Qed.

Ltac never_raises_step :=
  first
    [ apply never_raises_bind; [|intros ?]
    | apply never_raises_try; intros ?
    | apply never_raises_ret
    | apply never_raises_get
    | apply never_raises_modify
    | match goal with
      | |- never_raises (if ?b then _ else _) => destruct b
      | |- never_raises (match ?x with _ => _ end) => destruct x
      end ].

Section Constructor.

Variable io_ok : nat -> bool.

Lemma init_google_sheets_never_raises (remote : spreadsheet) :
  never_raises (_init_google_sheets io_ok remote).
Proof. unfold _init_google_sheets. repeat never_raises_step. Qed.

(** The constructor raises only when the output directory cannot be
    created: a header of the tabular file that cannot be read and any
    failure while attaching the worksheet are swallowed.  Attaching the
    worksheet never raises, and when the spreadsheet cannot be opened, or
    there is none, the exporter is left without a worksheet and with an
    empty row index. *)
Theorem constructor_raises_only_without_output_dir
    (google_sheets_id : option string) (remote : spreadsheet) (self : exporter) :
  fst (__init__ io_ok google_sheets_id remote self)
  = (if io_ok (length (io_log self)) then Ok tt else Raise OSError)
  /\ fst (_init_google_sheets io_ok remote self) = Ok tt
  /\ match remote with
     | Spreadsheet _ => True
     | _ => worksheet (snd (_init_google_sheets io_ok remote self)) = None
            /\ deal_id_to_row (snd (_init_google_sheets io_ok remote self)) = ∅
     end.
Proof.
  split; [|split].
  - unfold __init__. unfold bind at 1. unfold io at 1.
    destruct (io_ok (length (io_log self))); [|reflexivity].
    cbv beta iota zeta.
    match goal with
    | |- fst (?m ?s) = Ok tt =>
        assert (never_raises m) as Hn
    end.
    { repeat never_raises_step; apply init_google_sheets_never_raises. }
    match goal with
    | |- fst (?m ?s) = Ok tt => destruct (Hn s) as [[] Ha]; exact Ha
    end.
  - destruct (init_google_sheets_never_raises remote self) as [[] Ha]. exact Ha.
  - destruct remote as [| |unified]; [| |exact I];
      unfold _init_google_sheets, try_except, bind, io, modify, raise;
      destruct (io_ok (length (io_log self))); simpl; auto.
Qed.

End Constructor.

End ConstructorFacts.

(** ** A batch without incremental persistence *)

Module PlainBatchFacts.
Import DealEnricher.

Lemma for_each_app {S A : Type} (body : A -> M S unit) (l1 l2 : list A) (s : S) :
  for_each body (l1 ++ l2) s
  = bind (for_each body l1) (fun _ => for_each body l2) s.
Proof.
  revert s. induction l1 as [|a l1 IH]; intros s; simpl.
  - reflexivity.
  - unfold bind. destruct (body a s) as [[[]|e] s1]; [|reflexivity].
    rewrite IH. reflexivity.
Qed.

Lemma enumerate1_values {A : Type} (l : list A) : map snd (enumerate1 l) = l.
Proof.
  unfold enumerate1.
  assert (forall f : nat -> Z, map snd (imap (fun i x => (f i, x)) l) = l) as Hgen.
  { induction l as [|a l IH]; intros f; [reflexivity|].
    simpl. f_equal. apply (IH (fun i => f (S i))). }
  apply (Hgen (fun i => Z.of_nat i + 1)%Z).
Qed.

Section PlainBatch.

Variable enrich_deal : deal -> result (list (string * json)).
Variable now_iso : nat -> string.
Variable disk_ok : nat -> bool.
Variable json_dumps : json -> string.
Variable py_repr : json -> string.
Variable io_ok : nat -> bool.

(** The enriched deal when the transform succeeds. *)
Let enriched_of (d : deal) : option (list (string * json)) :=
  match enrich_deal d with
  | Ok enriched_deal => Some enriched_deal
  | Raise _ => None
  end.

Lemma enrich_one_plain
    (progress_callback : option (Z -> Z -> list (string * json) -> result unit))
    (total idx : Z) (d : deal) (k : key) (b : batch) :
  attr_deal_id d = Ok k ->
  let out :=
    enrich_one enrich_deal progress_callback now_iso disk_ok json_dumps py_repr
      io_ok true false total (idx, d) b in
  fst out = Ok tt
  /\ enriched (snd out) = enriched b ++ option_list (enriched_of d)
  /\ trace (snd out) = trace b ++ [EvProcess idx].
Proof.
  intros Hk. unfold enriched_of.
  unfold enrich_one, try_except, bind, log, lift, modify, get, ret. simpl.
  destruct (enrich_deal d) as [enriched_deal|e]; simpl.
  - destruct progress_callback as [cb|]; simpl.
    + destruct (cb idx total enriched_deal) as [[]|e]; simpl; rewrite Hk; simpl;
        auto.
    + rewrite Hk. simpl. auto.
  - rewrite Hk. simpl. rewrite app_nil_r. auto.
Qed.

Lemma plain_loop
    (progress_callback : option (Z -> Z -> list (string * json) -> result unit))
    (total : Z) (l : list (Z * deal)) (b : batch) :
  (forall p, p ∈ l -> exists k, attr_deal_id (snd p) = Ok k) ->
  let out :=
    for_each (enrich_one enrich_deal progress_callback now_iso disk_ok json_dumps
                py_repr io_ok true false total) l b in
  fst out = Ok tt
  /\ enriched (snd out) = enriched b ++ omap enriched_of (map snd l)
  /\ trace (snd out) = trace b ++ map (fun p => EvProcess (fst p)) l.
Proof.
  revert b. induction l as [|[idx d] l IH]; intros b Hall; simpl.
  - rewrite !app_nil_r. auto.
  - destruct (Hall (idx, d)) as [k Hk]; [left|]. simpl in Hk.
    destruct (enrich_one_plain progress_callback total idx d k b Hk)
      as (H1 & H2 & H3).
    unfold bind.
    destruct (enrich_one enrich_deal progress_callback now_iso disk_ok json_dumps
                py_repr io_ok true false total (idx, d) b) as [r b1].
    simpl in H1, H2, H3. subst r.
    destruct (IH b1) as (K1 & K2 & K3).
    { intros p Hp. apply Hall. right. exact Hp. }
    split; [exact K1|]. rewrite K2, K3, H2, H3, <- !app_assoc.
    split; [|reflexivity]. f_equal.
    destruct (enriched_of d); reflexivity.
Qed.

(** Without incremental persistence and with [continue_on_error], a batch
    attempts the transform for every deal once, in input order, never
    raises, and returns the enriched deals of exactly those whose transform
    succeeded, in input order; a failing transform or a raising progress
    callback only skips to the next deal. *)
Theorem plain_batch_returns_successes_in_order
    (progress_callback : option (Z -> Z -> list (string * json) -> result unit))
    (deals : list deal) (checkpoint_file : option backing_file)
    (output : option exporter_env) :
  (forall d, d ∈ deals -> exists k, attr_deal_id d = Ok k) ->
  let out :=
    enrich_batch enrich_deal progress_callback now_iso disk_ok json_dumps py_repr
      io_ok deals true false checkpoint_file output start in
  fst out
  = Ok (omap (fun d => match enrich_deal d with
                       | Ok enriched_deal => Some enriched_deal
                       | Raise _ => None
                       end) deals)
  /\ trace (snd out) = map (fun p => EvProcess (fst p)) (enumerate1 deals).
Proof.
  intros Hall out.
  destruct (plain_loop progress_callback (len deals) (enumerate1 deals) start)
    as (H1 & H2 & H3).
  { intros p Hp. apply Hall. rewrite <- (enumerate1_values deals).
    change (map snd ?x) with (snd <$> x). apply list_elem_of_fmap.
    exists p. split; [reflexivity|exact Hp]. }
  assert (exists b1, out = (Ok (enriched b1), b1)
                     /\ enriched b1 = omap enriched_of deals
                     /\ trace b1
                        = map (fun p => EvProcess (fst p)) (enumerate1 deals))
    as (b1 & -> & K2 & K3).
  { subst out. unfold enrich_batch.
    unfold bind at 1. unfold ret at 1. unfold bind at 1.
    destruct (for_each _ (enumerate1 deals) start) as [r b1].
    simpl in H1, H2, H3. subst r. rewrite enumerate1_values in H2.
    exists b1. unfold bind, get, ret.
    destruct (checkpoint b1); simpl; auto. }
  simpl. rewrite K2, K3. auto.
Qed.

Lemma enrich_one_success (continue_on_error : bool) (total idx : Z) (d : deal)
    (k : key) (enriched_deal : list (string * json)) (b : batch) :
  attr_deal_id d = Ok k -> enrich_deal d = Ok enriched_deal ->
  enrich_one enrich_deal None now_iso disk_ok json_dumps py_repr io_ok
    continue_on_error false total (idx, d) b
  = (Ok tt,
     set_enriched (enriched b ++ [enriched_deal])
       (set_trace (trace b ++ [EvProcess idx]) b)).
Proof.
  intros Hk He.
  unfold enrich_one, try_except, bind, log, lift, modify, get, ret. simpl.
  rewrite He. simpl. rewrite Hk. reflexivity.
Qed.

Lemma success_loop (continue_on_error : bool) (total : Z) (l : list (Z * deal))
    (b : batch) :
  (forall p, p ∈ l -> exists k, attr_deal_id (snd p) = Ok k) ->
  (forall p, p ∈ l -> exists e, enrich_deal (snd p) = Ok e) ->
  let out :=
    for_each (enrich_one enrich_deal None now_iso disk_ok json_dumps py_repr io_ok
                continue_on_error false total) l b in
  fst out = Ok tt
  /\ enriched (snd out) = enriched b ++ omap enriched_of (map snd l)
  /\ trace (snd out) = trace b ++ map (fun p => EvProcess (fst p)) l
  /\ errors (snd out) = errors b.
Proof.
  revert b. induction l as [|[idx d] l IH]; intros b Hid Hok; simpl.
  - rewrite !app_nil_r. auto.
  - destruct (Hid (idx, d)) as [k Hk]; [left|].
    destruct (Hok (idx, d)) as [e He]; [left|]. simpl in Hk, He.
    unfold bind. rewrite (enrich_one_success _ _ _ _ k e b Hk He).
    destruct (IH (set_enriched (enriched b ++ [e])
                    (set_trace (trace b ++ [EvProcess idx]) b)))
      as (K1 & K2 & K3 & K4).
    { intros p Hp. apply Hid. right. exact Hp. }
    { intros p Hp. apply Hok. right. exact Hp. }
    split; [exact K1|]. rewrite K2, K3, K4. simpl.
    unfold enriched_of at 2. rewrite He. simpl. rewrite <- !app_assoc.
    auto.
Qed.

(** Without [continue_on_error] a batch stops at the first deal whose
    transform fails: the batch raises that exception, the transform is not
    attempted for any later deal, and the enriched deals so far are lost to
    the caller (they are only in the local list). *)
Theorem plain_batch_stops_at_first_failure
    (before after : list deal) (d : deal) (e : exn)
    (checkpoint_file : option backing_file) (output : option exporter_env) :
  (forall x, x ∈ before ++ [d] -> exists k, attr_deal_id x = Ok k) ->
  (forall x, x ∈ before -> exists r, enrich_deal x = Ok r) ->
  enrich_deal d = Raise e ->
  let out :=
    enrich_batch enrich_deal None now_iso disk_ok json_dumps py_repr io_ok
      (before ++ d :: after) false false checkpoint_file output start in
  fst out = Raise e
  /\ trace (snd out)
     = map (fun p => EvProcess (fst p)) (enumerate1 (before ++ [d]))
  /\ length (enriched (snd out)) = length before
  /\ errors (snd out) = 1%nat.
Proof.
  intros Hid Hok Hfail out.
  assert (length (omap enriched_of before) = length before) as Hlen.
  { clear -Hok. induction before as [|x before IH]; [reflexivity|].
    simpl. destruct (Hok x) as [r Hr]; [left|].
    unfold enriched_of at 1. rewrite Hr. simpl. f_equal.
    apply IH. intros y Hy. apply Hok. right. exact Hy. }
  assert (exists b1, out = (Raise e, b1)
                     /\ trace b1
                        = map (fun p => EvProcess (fst p))
                              (enumerate1 (before ++ [d]))
                     /\ enriched b1 = omap enriched_of before
                     /\ errors b1 = 1%nat)
    as (b1 & -> & K1 & K2 & K3).
  { subst out. unfold enrich_batch.
    unfold bind at 1. unfold ret at 1. unfold bind at 1.
    unfold enumerate1. rewrite !imap_app. simpl.
    rewrite for_each_app. unfold bind at 1.
    set (total := len (before ++ d :: after)).
    destruct (success_loop false total
                (imap (fun i x => ((Z.of_nat i + 1)%Z, x)) before) start)
      as (H1 & H2 & H3 & H4).
    { intros p Hp. apply elem_of_lookup_imap in Hp as (i & x & -> & Hx).
      apply Hid. apply elem_of_app. left. apply list_elem_of_lookup. eauto. }
    { intros p Hp. apply elem_of_lookup_imap in Hp as (i & x & -> & Hx).
      apply Hok. apply list_elem_of_lookup. eauto. }
    destruct (for_each _ (imap _ before) start) as [r b1].
    simpl in H1, H2, H3, H4. subst r.
    destruct (Hid d) as [k Hk]; [apply elem_of_app; right; left|].
    simpl. unfold bind at 1.
    unfold enrich_one at 1, try_except, bind, log, lift, modify, get, ret, raise.
    simpl. rewrite Hfail. simpl. rewrite Hk. simpl.
    eexists. split; [reflexivity|]. simpl. rewrite H3, H2, H4.
    fold (enumerate1 before). rewrite enumerate1_values, map_app.
    repeat split; reflexivity. }
  simpl. rewrite K1, K2, K3, Hlen. auto.
Qed.

End PlainBatch.

Lemma plain_batch_returns_successes_in_order_witness :
  fst (enrich_batch MoreInputs.enrich_only_a None (fun _ => "now") (fun _ => true)
         (fun _ => "{}") (fun _ => "{}") (fun _ => true)
         [MoreInputs.deal_b; Inputs.deal_a; MoreInputs.deal_b] true false
         None None start)
  = Ok [[("deal_id", JStr "A")]].
Proof.
  refine (proj1 (plain_batch_returns_successes_in_order
                   MoreInputs.enrich_only_a (fun _ => "now") (fun _ => true)
                   (fun _ => "{}") (fun _ => "{}") (fun _ => true) None
                   [MoreInputs.deal_b; Inputs.deal_a; MoreInputs.deal_b]
                   None None _)).
  intros d Hd. repeat (apply elem_of_cons in Hd as [->|Hd]; [eexists; reflexivity|]).
  inversion Hd.
Defined.

Lemma plain_batch_stops_at_first_failure_witness :
  fst (enrich_batch MoreInputs.enrich_only_a None (fun _ => "now") (fun _ => true)
         (fun _ => "{}") (fun _ => "{}") (fun _ => true)
         ([Inputs.deal_a] ++ MoreInputs.deal_b :: [Inputs.deal_a]) false false
         None None start)
  = Raise ValueError.
Proof.
  refine (proj1 (plain_batch_stops_at_first_failure
                   MoreInputs.enrich_only_a (fun _ => "now") (fun _ => true)
                   (fun _ => "{}") (fun _ => "{}") (fun _ => true)
                   [Inputs.deal_a] [Inputs.deal_a] MoreInputs.deal_b ValueError
                   None None _ _ _)).
  - intros d Hd.
    repeat (apply elem_of_cons in Hd as [->|Hd]; [eexists; reflexivity|]).
    inversion Hd.
  - intros d Hd. apply list_elem_of_singleton in Hd. subst d.
    eexists. reflexivity.
  - reflexivity.
Defined.

End PlainBatchFacts.

(** ** Saving a checkpoint *)

Module SaveFacts.

Lemma insert_sorted_raises_TypeError (x : key) (l : list key) (e : exn) :
  insert_sorted x l = Raise e -> e = TypeError.
Proof.
  induction l as [|y l IH]; simpl; [discriminate|].
  destruct (key_lt x y) as [[|]|e'] eqn:E.
  - discriminate.
  - destruct (insert_sorted x l) as [r|e'']; [discriminate|].
    intros H. inversion H; subst. apply IH. reflexivity.
  - intros H. inversion H; subst.
    destruct x, y; simpl in E; congruence.
Qed.

(** Lists on which sorting has not yet had to compare keys of different
    kinds: keys of one kind, or at most one key. *)
Lemma insert_sorted_one_kind (x : key) (l r : list key) :
  insert_sorted x l = Ok r ->
  comparable l \/ (length l <= 1)%nat ->
  comparable r /\ Permutation r (x :: l) \/ r = [x] /\ l = [].
Proof.
  intros Hr Hl. destruct l as [|y l]; [right; simpl in Hr; split; congruence|].
  left.
  assert (comparable (x :: y :: l)) as Hc.
  { simpl in Hr. destruct (key_lt x y) as [b|e] eqn:E; [|discriminate].
    assert (comparable (y :: l)) as Hyl.
    { destruct Hl as [Hl|Hl]; [exact Hl|].
      destruct l; [|simpl in Hl; lia].
      destruct x, y; simpl in E; try discriminate; [right|left];
        intros k Hk; apply list_elem_of_singleton in Hk; subst; eauto. }
    destruct Hyl as [Hs|Hn]; [left|right]; intros k Hk;
      apply elem_of_cons in Hk as [->|Hk]; auto.
    - destruct (Hs y ltac:(left)) as [t ->].
      destruct x; simpl in E; try discriminate. eauto.
    - destruct (Hn y ltac:(left)) as [t ->].
      destruct x; simpl in E; try discriminate. eauto. }
  destruct (CheckpointMore.insert_sorted_comparable x (y :: l) Hc) as (r' & Hr' & Hp).
  rewrite Hr in Hr'. inversion Hr'; subst r'. split; [|exact Hp].
  destruct Hc as [Hc|Hc]; [left|right]; intros k Hk; apply Hc; rewrite <- Hp;
    exact Hk.
Qed.

Lemma elem_of_moved (k x : key) (acc todo r : list key) :
  Permutation r (x :: acc) -> k ∈ acc ++ x :: todo -> k ∈ r ++ todo.
Proof.
  intros Hp Hk. rewrite Hp. apply elem_of_app in Hk as [Hk|Hk].
  - apply elem_of_app. left. right. exact Hk.
  - apply elem_of_cons in Hk as [->|Hk].
    + apply elem_of_app. left. left.
    + apply elem_of_app. right. exact Hk.
Qed.

Lemma py_sorted_mixed (s : gset key) (str : string) (num : Z) :
  KStr str ∈ s -> KNum num ∈ s -> py_sorted s = Raise TypeError.
Proof.
  intros Hs Hn. unfold py_sorted.
  assert (forall todo acc : list key,
            comparable acc \/ (length acc <= 1)%nat ->
            KStr str ∈ acc ++ todo -> KNum num ∈ acc ++ todo ->
            rfold (fun acc x => insert_sorted x acc) todo acc = Raise TypeError)
    as Hgen.
  { induction todo as [|x todo IH]; intros acc Hacc H1 H2.
    - exfalso. rewrite app_nil_r in H1, H2. destruct Hacc as [[Hc|Hc]|Hlen].
      + destruct (Hc _ H2) as [? ?]. discriminate.
      + destruct (Hc _ H1) as [? ?]. discriminate.
      + destruct acc as [|a [|b acc]]; [inversion H1| |simpl in Hlen; lia].
        apply list_elem_of_singleton in H1, H2. congruence.
    - simpl. destruct (insert_sorted x acc) as [r|e] eqn:E; simpl.
      + assert (Permutation r (x :: acc)) as Hp.
        { destruct (insert_sorted_one_kind x acc r E Hacc) as [[_ Hp]|[-> ->]];
            [exact Hp|reflexivity]. }
        apply IH.
        * destruct (insert_sorted_one_kind x acc r E Hacc) as [[Hc _]|[-> _]];
            [left; exact Hc|right; simpl; lia].
        * apply (elem_of_moved _ x acc); assumption.
        * apply (elem_of_moved _ x acc); assumption.
      + apply insert_sorted_raises_TypeError in E. subst e. reflexivity. }
  apply Hgen.
  - right. simpl. lia.
  - simpl. apply elem_of_elements. exact Hs.
  - simpl. apply elem_of_elements. exact Hn.
Qed.

(** A checkpoint whose processed set mixes string keys and number keys
    cannot be saved: the keys are sorted before the guarded write, so
    [save] raises [TypeError] and leaves the backing file as it was. *)
Theorem save_raises_on_mixed_keys (cp : EnrichmentCheckpoint.checkpoint)
    (source_file : option string) (now : string) (disk_ok : bool)
    (str : string) (num : Z) :
  KStr str ∈ EnrichmentCheckpoint.processed_deal_ids cp ->
  KNum num ∈ EnrichmentCheckpoint.processed_deal_ids cp ->
  fst (EnrichmentCheckpoint.save source_file now disk_ok cp) = Raise TypeError
  /\ EnrichmentCheckpoint.checkpoint_file
       (snd (EnrichmentCheckpoint.save source_file now disk_ok cp))
     = EnrichmentCheckpoint.checkpoint_file cp.
Proof.
  intros Hs Hn.
  pose proof (py_sorted_mixed _ str num Hs Hn) as Hraise.
  unfold EnrichmentCheckpoint.save, bind, modify, get, lift, try_except, ret.
  destruct source_file as [src|]; [destruct (negb (String.eqb src ""))|];
    simpl; rewrite Hraise; simpl; auto.
Qed.

Lemma save_raises_on_mixed_keys_witness :
  fst (EnrichmentCheckpoint.save None "now" true
         (EnrichmentCheckpoint.mark_processed (KNum 7)
            (snd (EnrichmentCheckpoint.__init__ Inputs.checkpoint_with_a))))
  = Raise TypeError.
Proof.
  refine (proj1 (save_raises_on_mixed_keys _ None "now" true "A" 7 _ _)).
  - apply (bool_decide_unpack _). vm_compute. exact I.
  - apply (bool_decide_unpack _). vm_compute. exact I.
Defined.



End SaveFacts.

(** ** Width of a spreadsheet row *)

Module RowWidthFacts.
Import IncrementalExporter.

(** A row is written with exactly as many cells as the header has columns:
    cell [i] is the record's [i]-th value when it has one and [None]
    otherwise, and values beyond the header are dropped. *)
Theorem fit_row_matches_header_width (num_cols : nat) (row_values : list json) :
  length (fit_row num_cols row_values) = num_cols
  /\ forall i, (i < num_cols)%nat ->
               fit_row num_cols row_values !! i
               = Some (default JNull (row_values !! i)).
Proof.
  unfold fit_row. cbv zeta.
  destruct (Nat.ltb_spec num_cols
              (length (row_values
                       ++ replicate (num_cols - length row_values) JNull)))
    as [Hlt|Hge];
    rewrite length_app, length_replicate in *.
  - assert (num_cols < length row_values)%nat as Hrow by lia.
    split.
    + rewrite length_take, length_app, length_replicate. lia.
    + intros i Hi. rewrite lookup_take_lt by exact Hi.
      rewrite lookup_app_l by lia.
      destruct (lookup_lt_is_Some_2 row_values i) as [v Hv]; [lia|].
      rewrite Hv. reflexivity.
  - split; [lia|].
    intros i Hi. destruct (decide (i < length row_values)%nat) as [Hin|Hout].
    + rewrite lookup_app_l by exact Hin.
      destruct (lookup_lt_is_Some_2 row_values i Hin) as [v Hv].
      rewrite Hv. reflexivity.
    + rewrite lookup_app_r by lia.
      rewrite (proj2 (lookup_ge_None row_values i)) by lia. simpl.
      apply lookup_replicate. split; [reflexivity|lia].
Qed.

End RowWidthFacts.
